(** * SOFS14: a shallow embedding of the metadata engine

    The development follows the C sources of the repository:
    - [mkfs14/mkfs_sofs14.c]                       (formatter),
    - [sofs14/sofs_ifuncs_1]                       (inode and data-cluster allocation),
    - [sofs14/sofs_ifuncs_2]                       (inode read/write/clean, access rights),
    - [sofs14/sofs_ifuncs_3]                       (file-cluster index and sweep),
    - [sofs14/sofs_ifuncs_4]                       (directory operations).

    Every C function is a function of the state monad [M] below, the state
    being the storage device together with the few process attributes the
    code consults (uid, gid, euid, clock). *)

From stdpp Require Import gmap list.
From Stdlib Require Import ZArith Lia.

Local Open Scope Z_scope.

(** ** Machine integers *)

(** Every integer field of the on-disk structures is a [uint32_t]; it is a
    [Z] here, and arithmetic that can leave the range is wrapped. *)
Definition wrap32 (z : Z) : Z := z mod 4294967296.

Definition NULL_INODE : Z := 4294967295.
Definition NULL_CLUSTER : Z := 4294967295.

(** ** Compile-time constants

    The header files that fix the constants are not part of the sources at
    hand, so the constants are parameters of the development. *)
Class Params := {
  BLOCKS_PER_CLUSTER : Z;
  IPB : Z;
  DPC : Z;
  RPC : Z;
  N_DIRECT : Z;
  MAX_NAME : Z;
  DZONE_CACHE_SIZE : Z;
  BSLPC : Z;
  SIZEOF_DIRENTRY : Z;
  PARTITION_NAME_SIZE : Z;
  VERSION_NUMBER : Z;
  MAGIC_NUMBER : Z;
  PRU : Z;
  INODE_FREE : Z;
  INODE_DIR : Z;
  INODE_FILE : Z;
  INODE_SYMLINK : Z;
  INODE_RD_USR : Z;
  INODE_WR_USR : Z;
  INODE_EX_USR : Z;
  INODE_RD_GRP : Z;
  INODE_WR_GRP : Z;
  INODE_EX_GRP : Z;
  INODE_RD_OTH : Z;
  INODE_WR_OTH : Z;
  INODE_EX_OTH : Z
}.

(** ** Error codes *)

Inductive errno : Set :=
| EINVAL | ENOSPC | EACCES | EPERM | ENOENT | EEXIST | ENOTDIR
| ENAMETOOLONG | EMLINK | ENOTEMPTY | EFBIG | ELOOP | ERELPATH
| EIUININVAL | EFDININVAL | EFININVAL | ELDCININVAL | EDCINVAL
| EDCARDYIL | EDCNOTIL | EDCNALINVAL | EWGINODENB | EDIRINVAL
| EDEINVAL | EDCMINVAL | ELIBBAD | EBADF | EIO.

Global Instance errno_eq_dec : EqDecision errno.
Proof. solve_decision. Defined.

(** ** On-disk data structures *)

(** [struct fCNode]: a cache of references to free data clusters. *)
Record SOFreeCache := mkCache {
  cacheIdx : Z;
  cache : list Z
}.

Record SOSuperBlock := mkSB {
  magic : Z;
  version : Z;
  sbname : list Z;
  nTotal : Z;
  mStat : Z;
  iTableStart : Z;
  iTableSize : Z;
  iTotal : Z;
  iFree : Z;
  iHead : Z;
  iTail : Z;
  dZoneStart : Z;
  dZoneTotal : Z;
  dZoneFree : Z;
  dHead : Z;
  dTail : Z;
  dZoneRetriev : SOFreeCache;
  dZoneInsert : SOFreeCache
}.

(** [vD1] is the union of [aTime] and [next], [vD2] the union of [mTime]
    and [prev]: one 32-bit word each. *)
Record SOInode := mkInode {
  mode : Z;
  refCount : Z;
  owner : Z;
  group : Z;
  size : Z;
  cluCount : Z;
  vD1 : Z;
  vD2 : Z;
  d : list Z;
  i1 : Z;
  i2 : Z
}.

Record SODirEntry := mkDe {
  name : list Z;
  nInode : Z
}.

(** The body of a data cluster is a C union of a byte stream, an array of
    references and an array of directory entries. *)
Inductive SOInfo :=
| IData (data : list Z)
| IRef (ref : list Z)
| IDe (de : list SODirEntry).

Record SODataClust := mkDC {
  prev : Z;
  next : Z;
  stat : Z;
  info : SOInfo
}.

(** ** The state *)

Record FS := mkFS {
  sb : SOSuperBlock;
  itable : gmap Z SOInode;
  dzone : gmap Z SODataClust;
  uid : Z;
  gid : Z;
  euid : Z;
  egid : Z;
  clock : Z
}.

(** ** The monad of the C functions

    A call ends with a value ([Ok], status 0), with an error code ([Err], a
    negative status), or has no defined behaviour ([Undef]: an array index
    out of range, a store through a null pointer, a read of a variable that
    was never assigned).  An error keeps the state: the effects that took
    place before the error are not rolled back. *)
Inductive Res (A : Type) :=
| Ok (a : A) (s : FS)
| Err (e : errno) (s : FS)
| Undef.
Arguments Ok {A} a s.
Arguments Err {A} e s.
Arguments Undef {A}.

Definition M (A : Type) : Type := FS -> Res A.

Definition ret {A} (a : A) : M A := fun s => Ok a s.
Definition fail {A} (e : errno) : M A := fun s => Err e s.
Definition undef {A} : M A := fun _ => Undef.
Definition bind {A B} (m : M A) (k : A -> M B) : M B :=
  fun s => match m s with
           | Ok a s' => k a s'
           | Err e s' => Err e s'
           | Undef => Undef
           end.
Definition get : M FS := fun s => Ok s s.
Definition put (s : FS) : M unit := fun _ => Ok tt s.

Notation "x <- m ;; k" := (bind m (fun x => k))
  (at level 100, m at next level, right associativity).
Notation "m ;;; k" := (bind m (fun _ => k))
  (at level 100, right associativity).

(** [if ((stat = check) != 0) return stat;] for a check of the consistency
    layer, which answers with a status and changes nothing. *)
Definition check (r : option errno) : M unit :=
  match r with
  | None => ret tt
  | Some e => fail e
  end.

(** [if (c) return -e;] *)
Definition fail_if (c : bool) (e : errno) : M unit :=
  if c then fail e else ret tt.

(** [stat = f (...)] kept in a variable instead of being returned. *)
Definition try_status {A} (m : M A) : M (errno + A) :=
  fun s => match m s with
           | Ok a s' => Ok (inr a) s'
           | Err e s' => Ok (inl e) s'
           | Undef => Undef
           end.

(** [if ((stat = f (...)) != 0) return -e;] *)
Definition remap {A} (e : errno) (m : M A) : M A :=
  fun s => match m s with
           | Ok a s' => Ok a s'
           | Err _ s' => Err e s'
           | Undef => Undef
           end.

(** [for (i = lo; i < lo + n; i++) body(i)] *)
Fixpoint for_range (lo : Z) (n : nat) (body : Z -> M unit) : M unit :=
  match n with
  | O => ret tt
  | S n' => body lo ;;; for_range (lo + 1) n' body
  end.

(** ** C arrays *)

Definition arr_get {A} (l : list A) (i : Z) : M A :=
  if (0 <=? i) then
    match l !! Z.to_nat i with
    | Some v => ret v
    | None => undef
    end
  else undef.

Definition arr_set {A} (l : list A) (i : Z) (v : A) : M (list A) :=
  if (0 <=? i) && (i <? Z.of_nat (length l)) then ret (<[Z.to_nat i := v]> l)
  else undef.

(** ** Field updates *)

Definition set_cacheIdx (v : Z) (c : SOFreeCache) : SOFreeCache :=
  mkCache v (cache c).
Definition set_cache (v : list Z) (c : SOFreeCache) : SOFreeCache :=
  mkCache (cacheIdx c) v.

Definition set_magic (v : Z) (b : SOSuperBlock) : SOSuperBlock :=
  mkSB v (version b) (sbname b) (nTotal b) (mStat b) (iTableStart b)
       (iTableSize b) (iTotal b) (iFree b) (iHead b) (iTail b) (dZoneStart b)
       (dZoneTotal b) (dZoneFree b) (dHead b) (dTail b) (dZoneRetriev b)
       (dZoneInsert b).
Definition set_iFree (v : Z) (b : SOSuperBlock) : SOSuperBlock :=
  mkSB (magic b) (version b) (sbname b) (nTotal b) (mStat b) (iTableStart b)
       (iTableSize b) (iTotal b) v (iHead b) (iTail b) (dZoneStart b)
       (dZoneTotal b) (dZoneFree b) (dHead b) (dTail b) (dZoneRetriev b)
       (dZoneInsert b).
Definition set_iHead (v : Z) (b : SOSuperBlock) : SOSuperBlock :=
  mkSB (magic b) (version b) (sbname b) (nTotal b) (mStat b) (iTableStart b)
       (iTableSize b) (iTotal b) (iFree b) v (iTail b) (dZoneStart b)
       (dZoneTotal b) (dZoneFree b) (dHead b) (dTail b) (dZoneRetriev b)
       (dZoneInsert b).
Definition set_iTail (v : Z) (b : SOSuperBlock) : SOSuperBlock :=
  mkSB (magic b) (version b) (sbname b) (nTotal b) (mStat b) (iTableStart b)
       (iTableSize b) (iTotal b) (iFree b) (iHead b) v (dZoneStart b)
       (dZoneTotal b) (dZoneFree b) (dHead b) (dTail b) (dZoneRetriev b)
       (dZoneInsert b).
Definition set_dZoneFree (v : Z) (b : SOSuperBlock) : SOSuperBlock :=
  mkSB (magic b) (version b) (sbname b) (nTotal b) (mStat b) (iTableStart b)
       (iTableSize b) (iTotal b) (iFree b) (iHead b) (iTail b) (dZoneStart b)
       (dZoneTotal b) v (dHead b) (dTail b) (dZoneRetriev b) (dZoneInsert b).
Definition set_dHead (v : Z) (b : SOSuperBlock) : SOSuperBlock :=
  mkSB (magic b) (version b) (sbname b) (nTotal b) (mStat b) (iTableStart b)
       (iTableSize b) (iTotal b) (iFree b) (iHead b) (iTail b) (dZoneStart b)
       (dZoneTotal b) (dZoneFree b) v (dTail b) (dZoneRetriev b) (dZoneInsert b).
Definition set_dTail (v : Z) (b : SOSuperBlock) : SOSuperBlock :=
  mkSB (magic b) (version b) (sbname b) (nTotal b) (mStat b) (iTableStart b)
       (iTableSize b) (iTotal b) (iFree b) (iHead b) (iTail b) (dZoneStart b)
       (dZoneTotal b) (dZoneFree b) (dHead b) v (dZoneRetriev b) (dZoneInsert b).
Definition set_dZoneRetriev (v : SOFreeCache) (b : SOSuperBlock) : SOSuperBlock :=
  mkSB (magic b) (version b) (sbname b) (nTotal b) (mStat b) (iTableStart b)
       (iTableSize b) (iTotal b) (iFree b) (iHead b) (iTail b) (dZoneStart b)
       (dZoneTotal b) (dZoneFree b) (dHead b) (dTail b) v (dZoneInsert b).
Definition set_dZoneInsert (v : SOFreeCache) (b : SOSuperBlock) : SOSuperBlock :=
  mkSB (magic b) (version b) (sbname b) (nTotal b) (mStat b) (iTableStart b)
       (iTableSize b) (iTotal b) (iFree b) (iHead b) (iTail b) (dZoneStart b)
       (dZoneTotal b) (dZoneFree b) (dHead b) (dTail b) (dZoneRetriev b) v.

Definition set_mode (v : Z) (i : SOInode) : SOInode :=
  mkInode v (refCount i) (owner i) (group i) (size i) (cluCount i) (vD1 i)
          (vD2 i) (d i) (i1 i) (i2 i).
Definition set_refCount (v : Z) (i : SOInode) : SOInode :=
  mkInode (mode i) v (owner i) (group i) (size i) (cluCount i) (vD1 i)
          (vD2 i) (d i) (i1 i) (i2 i).
Definition set_owner (v : Z) (i : SOInode) : SOInode :=
  mkInode (mode i) (refCount i) v (group i) (size i) (cluCount i) (vD1 i)
          (vD2 i) (d i) (i1 i) (i2 i).
Definition set_group (v : Z) (i : SOInode) : SOInode :=
  mkInode (mode i) (refCount i) (owner i) v (size i) (cluCount i) (vD1 i)
          (vD2 i) (d i) (i1 i) (i2 i).
Definition set_size (v : Z) (i : SOInode) : SOInode :=
  mkInode (mode i) (refCount i) (owner i) (group i) v (cluCount i) (vD1 i)
          (vD2 i) (d i) (i1 i) (i2 i).
Definition set_cluCount (v : Z) (i : SOInode) : SOInode :=
  mkInode (mode i) (refCount i) (owner i) (group i) (size i) v (vD1 i)
          (vD2 i) (d i) (i1 i) (i2 i).
Definition set_vD1 (v : Z) (i : SOInode) : SOInode :=
  mkInode (mode i) (refCount i) (owner i) (group i) (size i) (cluCount i) v
          (vD2 i) (d i) (i1 i) (i2 i).
Definition set_vD2 (v : Z) (i : SOInode) : SOInode :=
  mkInode (mode i) (refCount i) (owner i) (group i) (size i) (cluCount i)
          (vD1 i) v (d i) (i1 i) (i2 i).
Definition set_d (v : list Z) (i : SOInode) : SOInode :=
  mkInode (mode i) (refCount i) (owner i) (group i) (size i) (cluCount i)
          (vD1 i) (vD2 i) v (i1 i) (i2 i).
Definition set_i1 (v : Z) (i : SOInode) : SOInode :=
  mkInode (mode i) (refCount i) (owner i) (group i) (size i) (cluCount i)
          (vD1 i) (vD2 i) (d i) v (i2 i).
Definition set_i2 (v : Z) (i : SOInode) : SOInode :=
  mkInode (mode i) (refCount i) (owner i) (group i) (size i) (cluCount i)
          (vD1 i) (vD2 i) (d i) (i1 i) v.

Definition set_prev (v : Z) (c : SODataClust) : SODataClust :=
  mkDC v (next c) (stat c) (info c).
Definition set_next (v : Z) (c : SODataClust) : SODataClust :=
  mkDC (prev c) v (stat c) (info c).
Definition set_stat (v : Z) (c : SODataClust) : SODataClust :=
  mkDC (prev c) (next c) v (info c).
Definition set_info (v : SOInfo) (c : SODataClust) : SODataClust :=
  mkDC (prev c) (next c) (stat c) v.

Definition set_sb (v : SOSuperBlock) (s : FS) : FS :=
  mkFS v (itable s) (dzone s) (uid s) (gid s) (euid s) (egid s)
       (clock s).
Definition set_itable (v : gmap Z SOInode) (s : FS) : FS :=
  mkFS (sb s) v (dzone s) (uid s) (gid s) (euid s) (egid s)
       (clock s).
Definition set_dzone (v : gmap Z SODataClust) (s : FS) : FS :=
  mkFS (sb s) (itable s) v (uid s) (gid s) (euid s) (egid s)
       (clock s).

(** ** Out-parameters

    A pointer argument is [None] (the null pointer) or [Some a], the address
    of a variable of the caller.  The variables of the caller are not part
    of the state: a function returns what it leaves in them, a value of type
    [option Z] being [None] when the variable was not assigned. *)
Definition is_null (p : option Z) : bool :=
  match p with None => true | Some _ => false end.

(** [*p = v;] answers the value now held by the variable. *)
Definition store (p : option Z) (v : Z) : M Z :=
  match p with
  | None => undef
  | Some _ => ret v
  end.

(** [if (p != NULL) *p = v;] on a variable that holds [cur]. *)
Definition store_opt (p : option Z) (v : Z) (cur : option Z) : option Z :=
  if is_null p then cur else Some v.

(** The read of a local variable. *)
Definition rd_var (v : option Z) : M Z :=
  match v with
  | None => undef
  | Some x => ret x
  end.

(** [&x] for a local variable [x]. *)
Definition local : option Z := Some 0.

(** ** The lower layers

    The buffer cache, the basic operations and the consistency checks are
    outside the sources at hand.  The transfer functions are modelled below
    at the granularity the code uses them; the consistency checks, which
    only answer with a status, and the two operations of the repository
    whose bodies are missing are parameters. *)

Inductive clt_stat : Set := ALLOC_CLT | FREE_CLT.

Global Instance clt_stat_eq_dec : EqDecision clt_stat.
Proof. solve_decision. Defined.

Class Lower := {
  soQCheckSuperBlock : FS -> option errno;
  soQCheckInT : FS -> option errno;
  soQCheckDZ : FS -> option errno;
  soQCheckInodeIU : FS -> SOInode -> option errno;
  soQCheckFDInode : FS -> SOInode -> option errno;
  soQCheckFCInode : SOInode -> option errno;
  soQCheckDirCont : FS -> SOInode -> option errno;
  soQCheckStatDC : FS -> Z -> errno + clt_stat;
  soCleanDataCluster : Z -> Z -> M unit;
  soCheckDirectoryEmptiness : Z -> M unit
}.

(** Modelled from the spec: the working copy of the superblock kept by the
    buffer cache.  [soLoadSuperBlock] makes it available, [soGetSuperBlock]
    returns the pointer to it and [soStoreSuperBlock] flushes it; the state
    holds that one copy, which every [p_sb->field] reads and writes. *)
Definition soLoadSuperBlock : M unit := ret tt.
Definition soStoreSuperBlock : M unit := ret tt.
Definition soGetSuperBlock : M SOSuperBlock := fun s => Ok (sb s) s.
Definition modify_sb (f : SOSuperBlock -> SOSuperBlock) : M unit :=
  fun s => Ok tt (set_sb (f (sb s)) s).

(** Modelled from the spec: transfer of one data cluster, addressed by the
    physical number of its first block.  A block number that is not the
    first block of a cluster of the device is refused. *)
Definition soReadCacheCluster (nBlk : Z) : M SODataClust :=
  fun s => match dzone s !! nBlk with
           | Some dc => Ok dc s
           | None => Err EINVAL s
           end.

Definition soWriteCacheCluster (nBlk : Z) (dc : SODataClust) : M unit :=
  fun s => match dzone s !! nBlk with
           | Some _ => Ok tt (set_dzone (<[nBlk := dc]> (dzone s)) s)
           | None => Err EINVAL s
           end.

Section Model.
Context {P : Params} {L : Lower}.

(** [p_sb->dZoneStart + nClust * BLOCKS_PER_CLUSTER], in [uint32_t]; the
    code also writes the sum as [BLOCKS_PER_CLUSTER * nClust + p_sb->dZoneStart]. *)
Definition phys (b : SOSuperBlock) (nClust : Z) : Z :=
  wrap32 (dZoneStart b + nClust * BLOCKS_PER_CLUSTER).

(** Modelled from the spec: inode [n] lives in block [n / IPB] of the table
    of inodes, at offset [n mod IPB]. *)
Definition soConvertRefInT (n : Z) : M (Z * Z) :=
  b <- soGetSuperBlock ;;
  if (0 <=? n) && (n <? iTotal b) then ret (n / IPB, n mod IPB)
  else fail EINVAL.

Definition soLoadBlockInT (nBlk : Z) : M unit :=
  b <- soGetSuperBlock ;;
  if (0 <=? nBlk) && (nBlk <? iTableSize b) then ret tt else fail EINVAL.

Definition soStoreBlockInT : M unit := ret tt.

(** [soGetBlockInT () + offset], read and written in place. *)
Definition inode_rd (nBlk offset : Z) : M SOInode :=
  fun s => match itable s !! (nBlk * IPB + offset) with
           | Some i => Ok i s
           | None => Undef
           end.

Definition inode_wr (nBlk offset : Z) (f : SOInode -> SOInode) : M unit :=
  fun s => match itable s !! (nBlk * IPB + offset) with
           | Some i =>
               Ok tt (set_itable (<[nBlk * IPB + offset := f i]> (itable s)) s)
           | None => Undef
           end.

(** [time (NULL)] *)
Definition time_now : M Z := fun s => Ok (clock s) s.

Definition checkStatDC (nClust : Z) : M clt_stat :=
  fun s => match soQCheckStatDC s nClust with
           | inl e => Err e s
           | inr st => Ok st s
           end.

(** ** sofs_ifuncs_1: soFreeDataCluster.c *)

(** One round of the loop of [soDeplete]. *)
Definition deplete_body (i : Z) : M unit :=
  p_sb <- soGetSuperBlock ;;
  let ins := dZoneInsert p_sb in
  (if i =? 0 then
     c0 <- arr_get (cache ins) 0 ;;
     let NFClt := phys p_sb c0 in
     dcluster <- soReadCacheCluster NFClt ;;
     soWriteCacheCluster NFClt (set_prev (dTail p_sb) dcluster)
   else
     ci <- arr_get (cache ins) i ;;
     let NFClt := phys p_sb ci in
     dcluster <- soReadCacheCluster NFClt ;;
     cp <- arr_get (cache ins) (i - 1) ;;
     soWriteCacheCluster NFClt (set_prev cp dcluster)) ;;;
  (if negb (i =? wrap32 (cacheIdx ins - 1)) then
     ci <- arr_get (cache ins) i ;;
     let NFClt := phys p_sb ci in
     dcluster <- soReadCacheCluster NFClt ;;
     cn <- arr_get (cache ins) (i + 1) ;;
     soWriteCacheCluster NFClt (set_next cn dcluster)
   else
     cl <- arr_get (cache ins) (wrap32 (cacheIdx ins - 1)) ;;
     let NFClt := phys p_sb cl in
     dcluster <- soReadCacheCluster NFClt ;;
     soWriteCacheCluster NFClt (set_next NULL_CLUSTER dcluster)).

Definition soDeplete : M unit :=
  s <- get ;;
  check (soQCheckSuperBlock s) ;;;
  p_sb <- soGetSuperBlock ;;
  (if negb (dTail p_sb =? NULL_CLUSTER) then
     let NFClt := phys p_sb (dTail p_sb) in
     dcluster <- soReadCacheCluster NFClt ;;
     c0 <- arr_get (cache (dZoneInsert p_sb)) 0 ;;
     soWriteCacheCluster NFClt (set_next c0 dcluster)
   else ret tt) ;;;
  for_range 0 (Z.to_nat (cacheIdx (dZoneInsert p_sb))) deplete_body ;;;
  p_sb <- soGetSuperBlock ;;
  let ins := dZoneInsert p_sb in
  cl <- arr_get (cache ins) (wrap32 (cacheIdx ins - 1)) ;;
  modify_sb (set_dTail cl) ;;;
  (if dHead p_sb =? NULL_CLUSTER then
     c0 <- arr_get (cache ins) 0 ;;
     modify_sb (set_dHead c0)
   else ret tt) ;;;
  for_range 0 (Z.to_nat (cacheIdx ins))
    (fun i =>
       b <- soGetSuperBlock ;;
       c' <- arr_set (cache (dZoneInsert b)) i NULL_CLUSTER ;;
       modify_sb (set_dZoneInsert (set_cache c' (dZoneInsert b)))) ;;;
  b <- soGetSuperBlock ;;
  modify_sb (set_dZoneInsert (set_cacheIdx 0 (dZoneInsert b))) ;;;
  soStoreSuperBlock.

Definition soFreeDataCluster (nClust : Z) : M unit :=
  soLoadSuperBlock ;;;
  p_sb <- soGetSuperBlock ;;
  dc_stat <- checkStatDC nClust ;;
  fail_if ((nClust =? 0) || (dZoneTotal p_sb <=? nClust)) EINVAL ;;;
  fail_if (bool_decide (dc_stat = FREE_CLT)) EDCNALINVAL ;;;
  s <- get ;;
  check (soQCheckDZ s) ;;;
  check (soQCheckSuperBlock s) ;;;
  let clustFirstBlock := phys p_sb nClust in
  dc <- soReadCacheCluster clustFirstBlock ;;
  soWriteCacheCluster clustFirstBlock
    (set_next NULL_CLUSTER (set_prev NULL_CLUSTER dc)) ;;;
  (if cacheIdx (dZoneInsert p_sb) =? DZONE_CACHE_SIZE then soDeplete
   else ret tt) ;;;
  soLoadSuperBlock ;;;
  p_sb <- soGetSuperBlock ;;
  let ins := dZoneInsert p_sb in
  c' <- arr_set (cache ins) (cacheIdx ins) nClust ;;
  modify_sb (set_dZoneInsert (mkCache (wrap32 (cacheIdx ins + 1)) c')) ;;;
  modify_sb (fun b => set_dZoneFree (wrap32 (dZoneFree b + 1)) b) ;;;
  _ <- checkStatDC nClust ;;
  soStoreSuperBlock.

(** ** sofs_ifuncs_1: soAllocDataCluster.c *)

(** The body shared by the two loops of [soReplenish]: take cluster
    [nLCluster] out of the chain into slot [n] of the retrieval cache and
    return the reference to its successor. *)
Definition replenish_take (n nLCluster : Z) : M Z :=
  p_sb <- soGetSuperBlock ;;
  dc <- soReadCacheCluster (phys p_sb nLCluster) ;;
  c' <- arr_set (cache (dZoneRetriev p_sb)) n nLCluster ;;
  modify_sb (set_dZoneRetriev (set_cache c' (dZoneRetriev p_sb))) ;;;
  let nextClust := next dc in
  soWriteCacheCluster (phys p_sb nLCluster)
    (set_next NULL_CLUSTER (set_prev NULL_CLUSTER dc)) ;;;
  ret nextClust.

(** First loop, [k] rounds left ([k = DZONE_CACHE_SIZE - n]); it stops early
    when the chain is exhausted.  Returns the final [n] and [nLCluster]. *)
Fixpoint replenish_loop1 (k : nat) (n nLCluster : Z) : M (Z * Z) :=
  match k with
  | O => ret (n, nLCluster)
  | S k' =>
      if nLCluster =? NULL_CLUSTER then ret (n, nLCluster)
      else
        nextClust <- replenish_take n nLCluster ;;
        replenish_loop1 k' (n + 1) nextClust
  end.

(** Second loop, after the insertion cache was depleted. *)
Fixpoint replenish_loop2 (k : nat) (n nLCluster : Z) : M Z :=
  match k with
  | O => ret nLCluster
  | S k' =>
      nextClust <- replenish_take n nLCluster ;;
      replenish_loop2 k' (n + 1) nextClust
  end.

Definition soReplenish : M unit :=
  s <- get ;;
  check (soQCheckSuperBlock s) ;;;
  p_sb <- soGetSuperBlock ;;
  let nctt := if dZoneFree p_sb <? DZONE_CACHE_SIZE then dZoneFree p_sb
              else DZONE_CACHE_SIZE in
  r <- replenish_loop1 (Z.to_nat nctt) (DZONE_CACHE_SIZE - nctt) (dHead p_sb) ;;
  let '(n, nLCluster) := r in
  nLCluster <-
    (if negb (n =? DZONE_CACHE_SIZE) then
       modify_sb (fun b => set_dTail NULL_CLUSTER (set_dHead NULL_CLUSTER b)) ;;;
       soDeplete ;;;
       b <- soGetSuperBlock ;;
       replenish_loop2 (Z.to_nat (DZONE_CACHE_SIZE - n)) n (dHead b)
     else ret nLCluster) ;;
  (if negb (nLCluster =? NULL_CLUSTER) then
     b <- soGetSuperBlock ;;
     dc <- soReadCacheCluster (phys b nLCluster) ;;
     soWriteCacheCluster (phys b nLCluster) (set_prev NULL_CLUSTER dc)
   else ret tt) ;;;
  b <- soGetSuperBlock ;;
  modify_sb (set_dZoneRetriev
               (set_cacheIdx (DZONE_CACHE_SIZE - nctt) (dZoneRetriev b))) ;;;
  modify_sb (set_dHead nLCluster) ;;;
  (if nLCluster =? NULL_CLUSTER then modify_sb (set_dTail NULL_CLUSTER)
   else ret tt) ;;;
  soStoreSuperBlock.

Definition soAllocDataCluster (nInode : Z) (p_nClust : option Z) : M Z :=
  soLoadSuperBlock ;;;
  p_sb <- soGetSuperBlock ;;
  s <- get ;;
  check (soQCheckDZ s) ;;;
  fail_if ((iTotal p_sb <=? nInode) || is_null p_nClust) EINVAL ;;;
  fail_if (dZoneFree p_sb =? 0) ENOSPC ;;;
  r <- soConvertRefInT nInode ;;
  let '(nBlk, offset) := r in
  soLoadBlockInT nBlk ;;;
  p_inode <- inode_rd nBlk offset ;;
  check (soQCheckInodeIU s p_inode) ;;;
  (if cacheIdx (dZoneRetriev p_sb) =? DZONE_CACHE_SIZE then soReplenish
   else ret tt) ;;;
  soLoadSuperBlock ;;;
  p_sb <- soGetSuperBlock ;;
  c <- arr_get (cache (dZoneRetriev p_sb)) (cacheIdx (dZoneRetriev p_sb)) ;;
  nClust <- store p_nClust c ;;
  _ <- checkStatDC nClust ;;
  dc <- soReadCacheCluster (phys p_sb nClust) ;;
  (if negb (stat dc =? NULL_INODE) then soCleanDataCluster (stat dc) nClust
   else ret tt) ;;;
  let dc := set_stat nInode (set_next NULL_CLUSTER (set_prev NULL_CLUSTER dc)) in
  p_sb <- soGetSuperBlock ;;
  let rt := dZoneRetriev p_sb in
  c' <- arr_set (cache rt) (cacheIdx rt) NULL_CLUSTER ;;
  modify_sb (set_dZoneRetriev (mkCache (wrap32 (cacheIdx rt + 1)) c')) ;;;
  modify_sb (fun b => set_dZoneFree (wrap32 (dZoneFree b - 1)) b) ;;;
  soWriteCacheCluster (phys p_sb nClust) dc ;;;
  soStoreSuperBlock ;;;
  ret nClust.

(** ** sofs_ifuncs_2: soReadInode.c, soWriteInode.c *)

Definition IUIN : Z := 0.
Definition FDIN : Z := 1.

(** The buffer [p_inode] of the caller is the value returned. *)
Definition soReadInode (nInode status : Z) : M SOInode :=
  soLoadSuperBlock ;;;
  p_sb <- soGetSuperBlock ;;
  fail_if (iTotal p_sb <=? nInode) EINVAL ;;;
  fail_if (negb (status =? IUIN) && negb (status =? FDIN)) EINVAL ;;;
  r <- soConvertRefInT nInode ;;
  let '(nBlk, offset) := r in
  soLoadBlockInT nBlk ;;;
  p_inodeTemp <- inode_rd nBlk offset ;;
  s <- get ;;
  (if status =? IUIN then check (soQCheckInodeIU s p_inodeTemp)
   else check (soQCheckFDInode s p_inodeTemp)) ;;;
  (if status =? IUIN then
     t <- time_now ;;
     inode_wr nBlk offset (set_vD1 t)
   else ret tt) ;;;
  p_inode <- inode_rd nBlk offset ;;
  soStoreBlockInT ;;;
  soStoreSuperBlock ;;;
  ret p_inode.

(** The loop over [d] copies the [N_DIRECT] elements of the array, that is
    the whole array. *)
Definition soWriteInode (p_inode : SOInode) (nInode status : Z) : M unit :=
  soLoadSuperBlock ;;;
  p_sb <- soGetSuperBlock ;;
  fail_if (iTotal p_sb <=? nInode) EINVAL ;;;
  fail_if (negb (status =? IUIN) && negb (status =? FDIN)) EINVAL ;;;
  s <- get ;;
  (if status =? IUIN then check (soQCheckInodeIU s p_inode)
   else check (soQCheckFDInode s p_inode)) ;;;
  r <- soConvertRefInT nInode ;;
  let '(Blk, offset) := r in
  soLoadBlockInT Blk ;;;
  inode_wr Blk offset
    (fun po_inode =>
       set_i2 (i2 p_inode) (set_i1 (i1 p_inode) (set_d (d p_inode)
       (set_vD2 (vD2 p_inode) (set_vD1 (vD1 p_inode)
       (set_cluCount (cluCount p_inode) (set_size (size p_inode)
       (set_group (group p_inode) (set_owner (owner p_inode)
       (set_refCount (refCount p_inode)
       (set_mode (mode p_inode) po_inode))))))))))) ;;;
  (if status =? IUIN then
     t <- time_now ;;
     inode_wr Blk offset (fun po_inode => set_vD2 t (set_vD1 t po_inode))
   else ret tt) ;;;
  soStoreBlockInT.

(** ** sofs_ifuncs_2: soAccessGranted.c *)

Definition R : Z := 4.
Definition W : Z := 2.
Definition X : Z := 1.

(** [if (opRequested & op) if ((inode.mode & bit) != bit) return -EACCES;] *)
Definition need (opRequested op md bit : Z) : M unit :=
  if negb (Z.land opRequested op =? 0) then
    fail_if (negb (Z.land md bit =? bit)) EACCES
  else ret tt.

Definition soAccessGranted (nInode opRequested : Z) : M unit :=
  s0 <- get ;;
  let owner_ := uid s0 in
  let group_ := gid s0 in
  fail_if ((opRequested <? 1) || (7 <? opRequested)) EINVAL ;;;
  soLoadSuperBlock ;;;
  p_sb <- soGetSuperBlock ;;
  fail_if (iTotal p_sb <=? nInode) EINVAL ;;;
  inode <- soReadInode nInode IUIN ;;
  if euid s0 =? 0 then
    (if negb (Z.land opRequested X =? 0) then
       fail_if (Z.land (mode inode)
                  (Z.lor (Z.lor INODE_EX_USR INODE_EX_GRP) INODE_EX_OTH) =? 0)
               EACCES
     else ret tt)
  else
    (if owner_ =? owner inode then
       need opRequested R (mode inode) INODE_RD_USR ;;;
       need opRequested W (mode inode) INODE_WR_USR ;;;
       need opRequested X (mode inode) INODE_EX_USR
     else if group_ =? group inode then
       need opRequested R (mode inode) INODE_RD_GRP ;;;
       need opRequested W (mode inode) INODE_WR_GRP ;;;
       need opRequested X (mode inode) INODE_EX_GRP
     else
       need opRequested R (mode inode) INODE_RD_OTH ;;;
       need opRequested W (mode inode) INODE_WR_OTH ;;;
       need opRequested X (mode inode) INODE_EX_OTH) ;;;
    soStoreBlockInT.

(** ** sofs_ifuncs_3: soHandleFileCluster.c *)

Definition GET : Z := 0.
Definition ALLOC : Z := 1.
Definition FREE : Z := 2.
Definition FREE_CLEAN : Z := 3.
Definition CLEAN : Z := 4.

(** Modelled from the spec: the number of file-cluster positions an inode
    can index, [N_DIRECT] direct ones, [RPC] through [i1] and [RPC * RPC]
    through [i2]. *)
Definition MAX_FILE_CLUSTERS : Z := N_DIRECT + RPC + RPC * RPC.

Definition INODE_TYPE_MASK : Z :=
  Z.lor (Z.lor INODE_DIR INODE_FILE) INODE_SYMLINK.

(** The members of the union [info].  A cluster body last written as one
    member is read here as that member only; a zero-filled byte stream
    reads as directory entries that are all zero. *)
Definition all_zero (l : list Z) : bool := forallb (Z.eqb 0) l.

Definition zero_name : list Z := replicate (Z.to_nat (MAX_NAME + 1)) 0.

Definition ref_of (c : SODataClust) : M (list Z) :=
  match info c with
  | IRef r => ret r
  | _ => undef
  end.

Definition de_of (c : SODataClust) : M (list SODirEntry) :=
  match info c with
  | IDe e => ret e
  | IData l =>
      if all_zero l then ret (replicate (Z.to_nat DPC) (mkDe zero_name 0))
      else undef
  | IRef _ => undef
  end.

(** [p->info.ref[i]] and [p->info.ref[i] = v]. *)
Definition ref_get (c : SODataClust) (i : Z) : M Z :=
  r <- ref_of c ;; arr_get r i.

Definition ref_set (c : SODataClust) (i v : Z) : M SODataClust :=
  r <- ref_of c ;;
  r' <- arr_set r i v ;;
  ret (set_info (IRef r') c).

(** [for (i = 0; i < RPC; i++) p->info.ref[i] = NULL_CLUSTER;] *)
Definition ref_init (c : SODataClust) : SODataClust :=
  set_info (IRef (replicate (Z.to_nat RPC) NULL_CLUSTER)) c.

(** [for (i = 0; i < RPC; i++) if (p->info.ref[i] != NULL_CLUSTER) return 0;]
    answers whether the loop ran to its end. *)
Definition ref_all_null (c : SODataClust) : M bool :=
  r <- ref_of c ;;
  ret (forallb (Z.eqb NULL_CLUSTER) (take (Z.to_nat RPC) r)).

(** Modelled from the spec: the storage areas of the buffer cache for a
    cluster of references.  Loading copies the cluster of the device into
    the area and returns it; storing writes the area back where it was
    loaded from. *)
Definition soLoadDirRefClust (nBlk : Z) : M SODataClust := soReadCacheCluster nBlk.
Definition soStoreDirRefClust (nBlk : Z) (dc : SODataClust) : M unit :=
  soWriteCacheCluster nBlk dc.
Definition soLoadSngIndRefClust (nBlk : Z) : M SODataClust := soReadCacheCluster nBlk.
Definition soStoreSngIndRefClust (nBlk : Z) (dc : SODataClust) : M unit :=
  soWriteCacheCluster nBlk dc.

Definition soCleanLogicalCluster (nInode nLClust : Z) : M unit :=
  p_sb <- soGetSuperBlock ;;
  dc <- soReadCacheCluster (phys p_sb nLClust) ;;
  _ <- checkStatDC nLClust ;;
  fail_if (negb (stat dc =? nInode)) EWGINODENB ;;;
  soWriteCacheCluster (phys p_sb nLClust) (set_stat NULL_INODE dc).

Section Handle.

(** [soHandleFileCluster] and [soAttachLogicalCluster] call each other; the
    knot is tied below. *)
Variable attach : Z -> Z -> Z -> M unit.

(** The handlers work on the copy [inode] of the caller; they return it
    together with what they leave in [*p_outVal]. *)
Definition soHandleDirect (nInode : Z) (p_inode : SOInode)
    (clustInd op : Z) (p_outVal : option Z) : M (SOInode * option Z) :=
  if op =? GET then
    v <- arr_get (d p_inode) clustInd ;;
    o <- store p_outVal v ;;
    ret (p_inode, Some o)
  else if op =? ALLOC then
    v <- arr_get (d p_inode) clustInd ;;
    fail_if (negb (v =? NULL_CLUSTER)) EDCARDYIL ;;;
    o <- soAllocDataCluster nInode p_outVal ;;
    attach nInode clustInd o ;;;
    d' <- arr_set (d p_inode) clustInd o ;;
    ret (set_cluCount (wrap32 (cluCount p_inode + 1)) (set_d d' p_inode),
         Some o)
  else if op =? FREE then
    v <- arr_get (d p_inode) clustInd ;;
    fail_if (v =? NULL_CLUSTER) EDCNOTIL ;;;
    soFreeDataCluster v ;;;
    ret (p_inode, None)
  else if op =? CLEAN then
    v <- arr_get (d p_inode) clustInd ;;
    fail_if (v =? NULL_CLUSTER) EDCNOTIL ;;;
    soCleanLogicalCluster nInode v ;;;
    d' <- arr_set (d p_inode) clustInd NULL_CLUSTER ;;
    ret (set_cluCount (wrap32 (cluCount p_inode - 1)) (set_d d' p_inode),
         None)
  else if op =? FREE_CLEAN then
    v <- arr_get (d p_inode) clustInd ;;
    fail_if (v =? NULL_CLUSTER) EDCNOTIL ;;;
    soFreeDataCluster v ;;;
    soCleanLogicalCluster nInode v ;;;
    d' <- arr_set (d p_inode) clustInd NULL_CLUSTER ;;
    ret (set_cluCount (wrap32 (cluCount p_inode - 1)) (set_d d' p_inode),
         None)
  else fail EINVAL.

Definition soHandleSIndirect (nInode : Z) (p_inode : SOInode)
    (clustInd op : Z) (p_outVal : option Z) : M (SOInode * option Z) :=
  p_sb <- soGetSuperBlock ;;
  if i1 p_inode =? NULL_CLUSTER then
    if op =? GET then
      o <- store p_outVal NULL_CLUSTER ;;
      ret (p_inode, Some o)
    else if op =? ALLOC then
      o <- soAllocDataCluster nInode p_outVal ;;
      let p_inode := set_i1 o (set_cluCount (wrap32 (cluCount p_inode + 1)) p_inode) in
      p_dirrefdc <- soLoadDirRefClust (phys p_sb (i1 p_inode)) ;;
      soStoreDirRefClust (phys p_sb (i1 p_inode)) (ref_init p_dirrefdc) ;;;
      o <- soAllocDataCluster nInode p_outVal ;;
      attach nInode clustInd o ;;;
      p_dirrefdc <- soLoadDirRefClust (phys p_sb (i1 p_inode)) ;;
      let p_inode := set_cluCount (wrap32 (cluCount p_inode + 1)) p_inode in
      p_dirrefdc <- ref_set p_dirrefdc (clustInd - N_DIRECT) o ;;
      soStoreDirRefClust (phys p_sb (i1 p_inode)) p_dirrefdc ;;;
      ret (p_inode, Some o)
    else if (op =? FREE) || (op =? FREE_CLEAN) || (op =? CLEAN) then
      fail EDCNOTIL
    else fail EINVAL
  else
    p_dirrefdc <- soLoadDirRefClust (phys p_sb (i1 p_inode)) ;;
    if op =? GET then
      v <- ref_get p_dirrefdc (clustInd - N_DIRECT) ;;
      o <- store p_outVal v ;;
      ret (p_inode, Some o)
    else if op =? ALLOC then
      v <- ref_get p_dirrefdc (clustInd - N_DIRECT) ;;
      fail_if (negb (v =? NULL_CLUSTER)) EDCARDYIL ;;;
      o <- soAllocDataCluster nInode p_outVal ;;
      attach nInode clustInd o ;;;
      p_dirrefdc <- soLoadDirRefClust (phys p_sb (i1 p_inode)) ;;
      p_dirrefdc <- ref_set p_dirrefdc (clustInd - N_DIRECT) o ;;
      let p_inode := set_cluCount (wrap32 (cluCount p_inode + 1)) p_inode in
      soStoreDirRefClust (phys p_sb (i1 p_inode)) p_dirrefdc ;;;
      ret (p_inode, Some o)
    else if (op =? FREE) || (op =? FREE_CLEAN) || (op =? CLEAN) then
      v <- ref_get p_dirrefdc (clustInd - N_DIRECT) ;;
      fail_if (v =? NULL_CLUSTER) EDCNOTIL ;;;
      (if negb (op =? CLEAN) then soFreeDataCluster v else ret tt) ;;;
      if op =? FREE then ret (p_inode, None)
      else
        soCleanLogicalCluster nInode v ;;;
        p_dirrefdc <- ref_set p_dirrefdc (clustInd - N_DIRECT) NULL_CLUSTER ;;
        let p_inode := set_cluCount (wrap32 (cluCount p_inode - 1)) p_inode in
        soStoreDirRefClust (phys p_sb (i1 p_inode)) p_dirrefdc ;;;
        clean <- ref_all_null p_dirrefdc ;;
        if negb clean then ret (p_inode, None)
        else
          soFreeDataCluster (i1 p_inode) ;;;
          soCleanLogicalCluster nInode (i1 p_inode) ;;;
          ret (set_cluCount (wrap32 (cluCount p_inode - 1))
                 (set_i1 NULL_CLUSTER p_inode), None)
    else ret (p_inode, None).

Definition soHandleDIndirect (nInode : Z) (p_inode : SOInode)
    (clustInd op : Z) (p_outVal : option Z) : M (SOInode * option Z) :=
  p_sb <- soGetSuperBlock ;;
  let indirref_idx := wrap32 (clustInd - N_DIRECT - RPC) / RPC in
  let dirref_idx := wrap32 (clustInd - N_DIRECT - RPC) mod RPC in
  if op =? GET then
    if i2 p_inode =? NULL_CLUSTER then
      o <- store p_outVal NULL_CLUSTER ;;
      ret (p_inode, Some o)
    else
      p_dirrefdc <- soLoadSngIndRefClust (phys p_sb (i2 p_inode)) ;;
      r <- ref_get p_dirrefdc indirref_idx ;;
      if r =? NULL_CLUSTER then
        o <- store p_outVal NULL_CLUSTER ;;
        ret (p_inode, Some o)
      else
        p_indrefdc <- soLoadDirRefClust (phys p_sb r) ;;
        v <- ref_get p_indrefdc dirref_idx ;;
        o <- store p_outVal v ;;
        ret (p_inode, Some o)
  else if op =? ALLOC then
    p_inode <-
      (if i2 p_inode =? NULL_CLUSTER then
         nLClust <- soAllocDataCluster nInode local ;;
         let p_inode :=
           set_cluCount (wrap32 (cluCount p_inode + 1)) (set_i2 nLClust p_inode) in
         p_indrefdc <- soLoadSngIndRefClust (phys p_sb (i2 p_inode)) ;;
         soStoreSngIndRefClust (phys p_sb (i2 p_inode)) (ref_init p_indrefdc) ;;;
         ret p_inode
       else ret p_inode) ;;
    p_indrefdc <- soLoadSngIndRefClust (phys p_sb (i2 p_inode)) ;;
    r <- ref_get p_indrefdc indirref_idx ;;
    pr <-
      (if r =? NULL_CLUSTER then
         nLClust <- soAllocDataCluster nInode local ;;
         let p_inode := set_cluCount (wrap32 (cluCount p_inode + 1)) p_inode in
         p_dirrefdc <- soLoadDirRefClust (phys p_sb nLClust) ;;
         soStoreDirRefClust (phys p_sb nLClust) (ref_init p_dirrefdc) ;;;
         ret (p_inode, nLClust)
       else ret (p_inode, r)) ;;
    let '(p_inode, dirref) := pr in
    p_dirrefdc <- soLoadDirRefClust (phys p_sb dirref) ;;
    v <- ref_get p_dirrefdc dirref_idx ;;
    if v =? NULL_CLUSTER then
      nLClust <- soAllocDataCluster nInode local ;;
      attach nInode clustInd nLClust ;;;
      p_dirrefdc <- soLoadDirRefClust (phys p_sb dirref) ;;
      let p_inode := set_cluCount (wrap32 (cluCount p_inode + 1)) p_inode in
      p_dirrefdc <- ref_set p_dirrefdc dirref_idx nLClust ;;
      v' <- ref_get p_dirrefdc dirref_idx ;;
      o <- store p_outVal v' ;;
      soStoreDirRefClust (phys p_sb dirref) p_dirrefdc ;;;
      p_indrefdc <- soLoadSngIndRefClust (phys p_sb (i2 p_inode)) ;;
      p_indrefdc <- ref_set p_indrefdc indirref_idx dirref ;;
      soStoreSngIndRefClust (phys p_sb (i2 p_inode)) p_indrefdc ;;;
      ret (p_inode, Some o)
    else fail EDCARDYIL
  else if (op =? FREE) || (op =? FREE_CLEAN) || (op =? CLEAN) then
    fail_if (i2 p_inode =? NULL_CLUSTER) EDCNOTIL ;;;
    p_indrefdc <- soLoadSngIndRefClust (phys p_sb (i2 p_inode)) ;;
    r <- ref_get p_indrefdc indirref_idx ;;
    fail_if (r =? NULL_CLUSTER) EDCNOTIL ;;;
    p_dirrefdc <- soLoadDirRefClust (phys p_sb r) ;;
    v <- ref_get p_dirrefdc dirref_idx ;;
    fail_if (v =? NULL_CLUSTER) EDCNOTIL ;;;
    (if (op =? FREE) || (op =? FREE_CLEAN) then soFreeDataCluster v
     else ret tt) ;;;
    if op =? FREE then ret (p_inode, None)
    else
      soCleanLogicalCluster nInode v ;;;
      p_dirrefdc <- ref_set p_dirrefdc dirref_idx NULL_CLUSTER ;;
      let p_inode := set_cluCount (wrap32 (cluCount p_inode - 1)) p_inode in
      soStoreDirRefClust (phys p_sb r) p_dirrefdc ;;;
      clean <- ref_all_null p_dirrefdc ;;
      if negb clean then ret (p_inode, None)
      else
        soFreeDataCluster r ;;;
        soCleanLogicalCluster nInode r ;;;
        p_indrefdc <- ref_set p_indrefdc indirref_idx NULL_CLUSTER ;;
        let p_inode := set_cluCount (wrap32 (cluCount p_inode - 1)) p_inode in
        soStoreSngIndRefClust (phys p_sb (i2 p_inode)) p_indrefdc ;;;
        clean <- ref_all_null p_indrefdc ;;
        if negb clean then ret (p_inode, None)
        else
          soFreeDataCluster (i2 p_inode) ;;;
          soCleanLogicalCluster nInode (i2 p_inode) ;;;
          ret (set_cluCount (wrap32 (cluCount p_inode - 1))
                 (set_i2 NULL_CLUSTER p_inode), None)
  else fail EINVAL.

(** The value returned is what the call leaves in [*p_outVal]. *)
Definition soHandleFileCluster_body (nInode clustInd op : Z)
    (p_outVal : option Z) : M (option Z) :=
  fail_if (MAX_FILE_CLUSTERS <=? clustInd) EINVAL ;;;
  fail_if (((op =? GET) || (op =? ALLOC)) && is_null p_outVal) EINVAL ;;;
  fail_if (negb (op =? GET) && negb (op =? ALLOC) && negb (op =? FREE)
           && negb (op =? FREE_CLEAN) && negb (op =? CLEAN)) EINVAL ;;;
  soLoadSuperBlock ;;;
  p_sb <- soGetSuperBlock ;;
  fail_if (iTotal p_sb <=? nInode) EINVAL ;;;
  let p_outVal :=
    if (op =? FREE) || (op =? FREE_CLEAN) || (op =? CLEAN) then None
    else p_outVal in
  inode <- (if op =? CLEAN then soReadInode nInode FDIN
            else soReadInode nInode IUIN) ;;
  r <- (if clustInd <? N_DIRECT then
          soHandleDirect nInode inode clustInd op p_outVal
        else ret (inode, None)) ;;
  r <- (if (N_DIRECT <=? clustInd) && (clustInd <? N_DIRECT + RPC) then
          soHandleSIndirect nInode (fst r) clustInd op p_outVal
        else ret r) ;;
  r <- (if N_DIRECT + RPC <=? clustInd then
          soHandleDIndirect nInode (fst r) clustInd op p_outVal
        else ret r) ;;
  let '(inode, outVal) := r in
  (if (op =? ALLOC) || (op =? FREE) || (op =? FREE_CLEAN) then
     soWriteInode inode nInode IUIN
   else ret tt) ;;;
  (if op =? CLEAN then soWriteInode inode nInode FDIN else ret tt) ;;;
  ret outVal.

End Handle.

(** The calls of [soHandleFileCluster] made by [soAttachLogicalCluster]:
    their operation is [GET], which never attaches. *)
Definition soHandleFileCluster_get : Z -> Z -> Z -> option Z -> M (option Z) :=
  soHandleFileCluster_body (fun _ _ _ => undef).

Definition soAttachLogicalCluster (nInode clustInd nLClust : Z) : M unit :=
  p_sb <- soGetSuperBlock ;;
  let nLClustNext := NULL_CLUSTER in
  let nLClustPrev := NULL_CLUSTER in
  dc <- soReadCacheCluster (phys p_sb nLClust) ;;
  fail_if (negb (stat dc =? nInode)) EWGINODENB ;;;
  r <- (if negb (clustInd =? 0) then
          o <- soHandleFileCluster_get nInode (wrap32 (clustInd - 1)) GET local ;;
          let nLClustPrev := default nLClustPrev o in
          ret (nLClustPrev, set_prev nLClustPrev dc)
        else ret (nLClustPrev, dc)) ;;
  let '(nLClustPrev, dc) := r in
  r <- (if negb (clustInd =? MAX_FILE_CLUSTERS) then
          o <- soHandleFileCluster_get nInode (wrap32 (clustInd + 1)) GET local ;;
          let nLClustNext := default nLClustNext o in
          ret (nLClustNext, set_next nLClustNext dc)
        else ret (nLClustNext, dc)) ;;
  let '(nLClustNext, dc) := r in
  soWriteCacheCluster (phys p_sb nLClust) dc ;;;
  (if negb (nLClustPrev =? NULL_CLUSTER) then
     dc <- soReadCacheCluster (phys p_sb nLClustPrev) ;;
     soWriteCacheCluster (phys p_sb nLClustPrev)
       (set_next nLClust dc)
   else ret tt) ;;;
  (if negb (nLClustNext =? NULL_CLUSTER) then
     dc <- soReadCacheCluster (phys p_sb nLClustNext) ;;
     soWriteCacheCluster (phys p_sb nLClustNext)
       (set_prev nLClust dc)
   else ret tt).

Definition soHandleFileCluster : Z -> Z -> Z -> option Z -> M (option Z) :=
  soHandleFileCluster_body soAttachLogicalCluster.

(** ** sofs_ifuncs_3: soHandleFileClusters.c *)

(** [if (t.info.ref[i] != NULL_CLUSTER) soHandleFileCluster (nInode, pos, op, NULL);] *)
Definition sweep_ref (t : SODataClust) (i nInode pos op : Z) : M unit :=
  r <- ref_get t i ;;
  if negb (r =? NULL_CLUSTER) then
    _ <- soHandleFileCluster nInode pos op None ;; ret tt
  else ret tt.

(** The loop over [j] of the double-indirect part, [k] rounds left.  The
    counter [i] of the inner loop is a variable of the function: it is reset
    to 0 at the end of the conditional that holds the inner loop. *)
Fixpoint sweep_i2 (k : nat) (j i : Z) (temp1 : SODataClust)
    (nInode op : Z) : M unit :=
  match k with
  | O => ret tt
  | S k' =>
      r <- ref_get temp1 j ;;
      i <- (if negb (r =? NULL_CLUSTER) then
              p_sb <- soGetSuperBlock ;;
              temp2 <- soLoadDirRefClust (phys p_sb r) ;;
              for_range i (Z.to_nat (RPC - i))
                (fun i => sweep_ref temp2 i nInode
                            (N_DIRECT + RPC + j * RPC + i) op) ;;;
              ret 0
            else ret i) ;;
      sweep_i2 k' (j + 1) i temp1 nInode op
  end.

Definition soHandleFileClusters (nInode clustIndIn op : Z) : M unit :=
  soLoadSuperBlock ;;;
  p_sb <- soGetSuperBlock ;;
  fail_if (iTotal p_sb <=? nInode) EINVAL ;;;
  fail_if (MAX_FILE_CLUSTERS <=? clustIndIn) EINVAL ;;;
  fail_if (negb (op =? FREE) && negb (op =? FREE_CLEAN) && negb (op =? CLEAN))
          EINVAL ;;;
  let inode_status := if op =? CLEAN then FDIN else IUIN in
  inode <- soReadInode nInode inode_status ;;
  (if negb (i2 inode =? NULL_CLUSTER) then
     temp1 <- soLoadSngIndRefClust (phys p_sb (i2 inode)) ;;
     let i := if clustIndIn <? N_DIRECT + RPC then 0
              else (clustIndIn - N_DIRECT - RPC) mod RPC in
     let j := if clustIndIn <? N_DIRECT + RPC then 0
              else (clustIndIn - N_DIRECT - RPC) / RPC in
     sweep_i2 (Z.to_nat (RPC - j)) j i temp1 nInode op
   else ret tt) ;;;
  (if (clustIndIn <? N_DIRECT + RPC) && negb (i1 inode =? NULL_CLUSTER) then
     temp1 <- soLoadDirRefClust (phys p_sb (i1 inode)) ;;
     let i := if clustIndIn <? N_DIRECT then 0 else clustIndIn - N_DIRECT in
     for_range i (Z.to_nat (RPC - i))
       (fun i => sweep_ref temp1 i nInode (N_DIRECT + i) op)
   else ret tt) ;;;
  (if clustIndIn <? N_DIRECT then
     for_range clustIndIn (Z.to_nat (N_DIRECT - clustIndIn))
       (fun i =>
          v <- arr_get (d inode) i ;;
          if negb (v =? NULL_CLUSTER) then
            _ <- soHandleFileCluster nInode i op None ;; ret tt
          else ret tt)
   else ret tt).

(** ** sofs_ifuncs_3: soReadFileCluster.c, soWriteFileCluster.c *)

(** [memset (buff, 0, sizeof (SODataClust))] *)
Definition zero_cluster : SODataClust :=
  mkDC 0 0 0 (IData (replicate (Z.to_nat BSLPC) 0)).

Definition legal_type (md : Z) : bool :=
  (Z.land md INODE_TYPE_MASK =? INODE_DIR)
  || (Z.land md INODE_TYPE_MASK =? INODE_FILE)
  || (Z.land md INODE_TYPE_MASK =? INODE_SYMLINK).

(** The buffer [buff] of the caller is the value returned. *)
Definition soReadFileCluster (nInode clustInd : Z) : M SODataClust :=
  soLoadSuperBlock ;;;
  p_sb <- soGetSuperBlock ;;
  fail_if ((MAX_FILE_CLUSTERS <=? clustInd) || (iTotal p_sb <=? nInode)) EINVAL ;;;
  o <- soHandleFileCluster nInode clustInd GET local ;;
  clustLogicNumber <- rd_var o ;;
  r <- soConvertRefInT nInode ;;
  let '(nBlk, offset) := r in
  soLoadBlockInT nBlk ;;;
  p_inode <- inode_rd nBlk offset ;;
  s <- get ;;
  check (soQCheckInodeIU s p_inode) ;;;
  fail_if (negb (legal_type (mode p_inode))) EIUININVAL ;;;
  buff <- (if negb (clustLogicNumber =? NULL_CLUSTER) then
             soReadCacheCluster (phys p_sb clustLogicNumber)
           else ret zero_cluster) ;;
  soStoreSuperBlock ;;;
  ret buff.

(** [memcpy (dc.info.data, buff->info.data, BSLPC)] copies the whole body. *)
Definition soWriteFileCluster (nInode clustInd : Z) (buff : SODataClust) : M unit :=
  soLoadSuperBlock ;;;
  p_sb <- soGetSuperBlock ;;
  fail_if ((MAX_FILE_CLUSTERS <=? clustInd) || (iTotal p_sb <=? nInode)) EINVAL ;;;
  r <- soConvertRefInT nInode ;;
  let '(nBlk, offset) := r in
  soLoadBlockInT nBlk ;;;
  p_inode <- inode_rd nBlk offset ;;
  s <- get ;;
  check (soQCheckInodeIU s p_inode) ;;;
  fail_if (negb (legal_type (mode p_inode))) EIUININVAL ;;;
  o <- soHandleFileCluster nInode clustInd GET local ;;
  clustLogicNumber <- rd_var o ;;
  clustLogicNumber <-
    (if clustLogicNumber =? NULL_CLUSTER then
       o <- soHandleFileCluster nInode clustInd ALLOC local ;;
       ret (default clustLogicNumber o)
     else ret clustLogicNumber) ;;
  dc <- soReadCacheCluster (phys p_sb clustLogicNumber) ;;
  soWriteCacheCluster (phys p_sb clustLogicNumber) (set_info (info buff) dc) ;;;
  inode <- soReadInode nInode IUIN ;;
  soWriteInode inode nInode IUIN ;;;
  soStoreSuperBlock.

(** ** sofs_ifuncs_2: soCleanInode.c *)

Definition soCleanInode (nInode : Z) : M unit :=
  p_sb <- soGetSuperBlock ;;
  fail_if ((nInode =? 0) || (iTotal p_sb <? nInode)) EINVAL ;;;
  soLoadSuperBlock ;;;
  inode <- soReadInode nInode FDIN ;;
  s <- get ;;
  check (soQCheckFDInode s inode) ;;;
  soHandleFileClusters nInode 0 CLEAN ;;;
  soStoreBlockInT ;;;
  soStoreSuperBlock.

(** ** sofs_ifuncs_1: soAllocInode.c, soFreeInode.c

    In [soFreeInode] the status of [soConvertRefInT] is compared with 0
    inside the assignment, and the function returns 0 when the conversion
    fails. *)

Definition soAllocInode (type : Z) (p_nInode : option Z) : M Z :=
  fail_if (is_null p_nInode
           || (negb (type =? INODE_DIR) && negb (type =? INODE_FILE)
               && negb (type =? INODE_SYMLINK))) EINVAL ;;;
  soLoadSuperBlock ;;;
  s <- get ;;
  check (soQCheckSuperBlock s) ;;;
  check (soQCheckInT s) ;;;
  p_sb <- soGetSuperBlock ;;
  fail_if (iFree p_sb =? 0) ENOSPC ;;;
  n <- store p_nInode (iHead p_sb) ;;
  r <- soConvertRefInT (iHead p_sb) ;;
  let '(nBlk, offset) := r in
  soLoadBlockInT nBlk ;;;
  inode <- inode_rd nBlk offset ;;
  (match soQCheckFCInode inode with
   | Some _ =>
       soCleanInode n ;;;
       soLoadBlockInT nBlk
   | None => ret tt
   end) ;;;
  inode <- inode_rd nBlk offset ;;
  modify_sb (set_iHead (vD1 inode)) ;;;
  u <- (fun s => Ok (uid s, gid s) s) ;;
  t <- time_now ;;
  inode_wr nBlk offset
    (fun inode =>
       set_d (replicate (Z.to_nat N_DIRECT) NULL_CLUSTER)
       (set_i2 NULL_CLUSTER (set_i1 NULL_CLUSTER (set_cluCount 0 (set_size 0
       (set_refCount 0 (set_vD2 t (set_vD1 t (set_group (snd u)
       (set_owner (fst u) (set_mode type inode))))))))))) ;;;
  soStoreBlockInT ;;;
  p_sb <- soGetSuperBlock ;;
  (if iFree p_sb =? 1 then
     modify_sb (fun b => set_iTail NULL_INODE (set_iHead NULL_INODE b))
   else
     r <- soConvertRefInT (iHead p_sb) ;;
     let '(nBlk, offset) := r in
     soLoadBlockInT nBlk ;;;
     inode_wr nBlk offset (set_vD2 NULL_INODE) ;;;
     soStoreBlockInT) ;;;
  modify_sb (fun b => set_iFree (wrap32 (iFree b - 1)) b) ;;;
  soStoreSuperBlock ;;;
  ret n.

Definition soFreeInode (nInode : Z) : M unit :=
  soLoadSuperBlock ;;;
  sb_ <- soGetSuperBlock ;;
  fail_if ((nInode =? 0) || (iTotal sb_ <=? nInode)) EINVAL ;;;
  s <- get ;;
  check (soQCheckInT s) ;;;
  r <- try_status (soConvertRefInT nInode) ;;
  match r with
  | inl _ => ret tt
  | inr (p_Blk, p_offset) =>
  soLoadBlockInT p_Blk ;;;
  in_ <- inode_rd p_Blk p_offset ;;
  check (soQCheckInodeIU s in_) ;;;
  fail_if (negb (legal_type (mode in_))) EIUININVAL ;;;
  fail_if (negb (refCount in_ =? 0)) EINVAL ;;;
  inode_wr p_Blk p_offset (fun i => set_mode (Z.lor (mode i) INODE_FREE) i) ;;;
  (if iFree sb_ =? 0 then
     inode_wr p_Blk p_offset (fun i => set_vD1 NULL_INODE (set_vD2 NULL_INODE i)) ;;;
     soStoreBlockInT ;;;
     modify_sb (fun b => set_iTail nInode (set_iHead nInode b))
   else
     inode_wr p_Blk p_offset (fun i => set_vD1 NULL_INODE (set_vD2 (iTail sb_) i)) ;;;
     soStoreBlockInT ;;;
     r <- soConvertRefInT (iTail sb_) ;;
     let '(p_Blk, p_offset) := r in
     soLoadBlockInT p_Blk ;;;
     inode_wr p_Blk p_offset (set_vD1 nInode) ;;;
     soStoreBlockInT ;;;
     modify_sb (set_iTail nInode)) ;;;
  modify_sb (fun b => set_iFree (wrap32 (iFree b + 1)) b) ;;;
  soStoreSuperBlock
  end.

(** ** C strings

    A string argument is the list of its bytes; as in C it ends at its first
    NUL byte, or at the end of the list. *)
Fixpoint cstr (l : list Z) : list Z :=
  match l with
  | [] => []
  | c :: l' => if c =? 0 then [] else c :: cstr l'
  end.

Definition strlen (l : list Z) : Z := Z.of_nat (length (cstr l)).

Definition strchr (l : list Z) (c : Z) : bool := existsb (Z.eqb c) (cstr l).

Fixpoint bytes_eqb (a b : list Z) : bool :=
  match a, b with
  | [], [] => true
  | x :: a', y :: b' => (x =? y) && bytes_eqb a' b'
  | _, _ => false
  end.

(** [strcmp (a, b) == 0] *)
Definition strcmp0 (a b : list Z) : bool := bytes_eqb (cstr a) (cstr b).

(** [strncpy (dest, src, n)]: the bytes of [src], padded with NUL up to
    [n] bytes. *)
Definition strncpy (src : list Z) (n : Z) : list Z :=
  take (Z.to_nat n) (cstr src ++ replicate (Z.to_nat n) 0).

Definition slash : Z := 47.
Definition dot : list Z := [46].
Definition dotdot : list Z := [46; 46].

(** ** sofs_ifuncs_4: soGetDirEntryByName.c *)

(** What a call leaves behind: the status returned, 0 ([None]) or
    [-ENOENT], and the variables [*p_nInodeEnt] and [*p_idx].  The other
    errors, which are returned before anything is stored, are errors of the
    monad. *)
Record Lookup := mkLookup {
  l_stat : option errno;
  l_nInodeEnt : option Z;
  l_idx : option Z
}.

(** The state of the scan: whether the name was found, [flag], and the two
    variables of the caller. *)
Record Scan := mkScan {
  sc_found : bool;
  sc_flag : Z;
  sc_ent : option Z;
  sc_idx : option Z
}.

(** The loop over the entries of one cluster, [k] rounds left. *)
Fixpoint scan_cluster (k : nat) (idxDirEntry idxCluster : Z)
    (de : list SODirEntry) (eName : list Z) (p_nInodeEnt p_idx : option Z)
    (a : Scan) : M Scan :=
  match k with
  | O => ret a
  | S k' =>
      e <- arr_get de idxDirEntry ;;
      if strcmp0 (name e) eName then
        ret (mkScan true (sc_flag a)
               (store_opt p_nInodeEnt (nInode e) (sc_ent a))
               (store_opt p_idx (wrap32 (idxCluster * DPC + idxDirEntry))
                  (sc_idx a)))
      else
        n0 <- arr_get (name e) 0 ;;
        nM <- arr_get (name e) MAX_NAME ;;
        let a := if (n0 =? 0) && (nM =? 0) && (sc_flag a =? 0) then
                   mkScan false 1 (sc_ent a)
                     (store_opt p_idx (wrap32 (idxCluster * DPC + idxDirEntry))
                        (sc_idx a))
                 else a in
        scan_cluster k' (idxDirEntry + 1) idxCluster de eName p_nInodeEnt
          p_idx a
  end.

(** The loop over the clusters of the directory, [k] rounds left. *)
Fixpoint scan_dir (k : nat) (idxCluster nInodeDir : Z) (eName : list Z)
    (p_nInodeEnt p_idx : option Z) (a : Scan) : M Scan :=
  match k with
  | O => ret a
  | S k' =>
      dc <- soReadFileCluster nInodeDir idxCluster ;;
      de <- de_of dc ;;
      a <- scan_cluster (Z.to_nat DPC) 0 idxCluster de eName p_nInodeEnt
             p_idx a ;;
      if sc_found a then ret a
      else scan_dir k' (idxCluster + 1) nInodeDir eName p_nInodeEnt p_idx a
  end.

Definition soGetDirEntryByName (nInodeDir : Z) (eName : list Z)
    (p_nInodeEnt p_idx : option Z) : M Lookup :=
  soLoadSuperBlock ;;;
  p_sb <- soGetSuperBlock ;;
  fail_if ((strlen eName =? 0) || (iTotal p_sb <=? nInodeDir)
           || strchr eName slash) EINVAL ;;;
  fail_if (MAX_NAME <? strlen eName) ENAMETOOLONG ;;;
  inode <- soReadInode nInodeDir IUIN ;;
  fail_if (negb (Z.land (mode inode) INODE_TYPE_MASK =? INODE_DIR)) ENOTDIR ;;;
  s <- get ;;
  check (soQCheckDirCont s inode) ;;;
  soAccessGranted nInodeDir X ;;;
  a <- scan_dir (Z.to_nat (size inode / (DPC * SIZEOF_DIRENTRY))) 0 nInodeDir
         eName p_nInodeEnt p_idx (mkScan false 0 None None) ;;
  if sc_found a then ret (mkLookup None (sc_ent a) (sc_idx a))
  else
    ret (mkLookup (Some ENOENT) (sc_ent a)
           (if negb (is_null p_idx) && (sc_flag a =? 0) then
              Some (wrap32 (cluCount inode * DPC))
            else sc_idx a)).

(** ** sofs_ifuncs_4: soAddAttDirEntry.c *)

Definition ADD : Z := 0.
Definition ATTACH : Z := 1.

(** [refCount] is bounded by [65536 - 2] in the code: a 16-bit field. *)
Definition wrap16 (z : Z) : Z := z mod 65536.

(** [for (j = lo; j < DPC; j++) { memset (de[j].name, 0, MAX_NAME+1);
    de[j].nInode = NULL_INODE; }] *)
Definition clear_from (lo : Z) (de : list SODirEntry) : list SODirEntry :=
  take (Z.to_nat lo) de
  ++ replicate (Z.to_nat DPC - Z.to_nat lo)%nat (mkDe zero_name NULL_INODE).

(** The part common to the directory case of [ADD] and [ATTACH]: write
    "." and ".." into the first two entries. *)
Definition dots (de : list SODirEntry) (nInodeEnt nInodeDir : Z)
  : M (list SODirEntry) :=
  de <- arr_set de 0 (mkDe (strncpy dot (MAX_NAME + 1)) nInodeEnt) ;;
  arr_set de 1 (mkDe (strncpy dotdot (MAX_NAME + 1)) nInodeDir).

(** [junk] is the content of the local variable [dcEnt] before it is
    assigned. *)
Definition soAddAttDirEntry (junk : SODataClust) (nInodeDir : Z)
    (eName : list Z) (nInodeEnt op : Z) : M unit :=
  soLoadSuperBlock ;;;
  p_sb <- soGetSuperBlock ;;
  fail_if (iTotal p_sb <? nInodeDir) EINVAL ;;;
  fail_if (iTotal p_sb <? nInodeEnt) EINVAL ;;;
  fail_if (MAX_NAME <? strlen eName) ENAMETOOLONG ;;;
  InodeDir <- soReadInode nInodeDir IUIN ;;
  fail_if (negb (Z.land (mode InodeDir) INODE_DIR =? INODE_DIR)) ENOTDIR ;;;
  fail_if (65536 - 2 <=? refCount InodeDir) EMLINK ;;;
  soAccessGranted nInodeDir X ;;;
  soAccessGranted nInodeDir W ;;;
  r <- try_status (soGetDirEntryByName nInodeDir eName None local) ;;
  fail_if (match r with inr (mkLookup None _ _) => true | _ => false end)
          EEXIST ;;;
  let idx := match r with inr l => l_idx l | inl _ => None end in
  pr <-
    (if op =? ADD then
       InodeEnt <- soReadInode nInodeEnt IUIN ;;
       let type := Z.land (mode InodeEnt) INODE_TYPE_MASK in
       if type =? INODE_DIR then
         de <- dots (replicate (Z.to_nat DPC) (mkDe zero_name 0)) nInodeEnt
                 nInodeDir ;;
         let dcEnt := set_info (IDe (clear_from 2 de)) junk in
         soWriteFileCluster nInodeEnt 0 dcEnt ;;;
         InodeEnt <- soReadInode nInodeEnt IUIN ;;
         ret (set_size (wrap32 (SIZEOF_DIRENTRY * DPC))
                (set_refCount (wrap16 (refCount InodeEnt + 2)) InodeEnt),
              set_refCount (wrap16 (refCount InodeDir + 1)) InodeDir)
       else if (type =? INODE_FILE) || (type =? INODE_SYMLINK) then
         ret (set_refCount (wrap16 (refCount InodeEnt + 1)) InodeEnt, InodeDir)
       else fail EIUININVAL
     else if op =? ATTACH then
       InodeEnt <- soReadInode nInodeEnt IUIN ;;
       let type := Z.land (mode InodeEnt) INODE_TYPE_MASK in
       if type =? INODE_DIR then
         fail_if (negb (Z.land (mode InodeEnt) INODE_DIR =? INODE_DIR)) ENOTDIR ;;;
         fail_if (65200 - 2 <=? refCount InodeEnt) EMLINK ;;;
         dcEnt <- soReadFileCluster nInodeEnt 0 ;;
         de <- de_of dcEnt ;;
         de <- dots de nInodeEnt nInodeDir ;;
         soWriteFileCluster nInodeEnt 0 (set_info (IDe de) dcEnt) ;;;
         InodeEnt <- soReadInode nInodeEnt IUIN ;;
         ret (set_refCount (wrap16 (refCount InodeEnt + 2)) InodeEnt,
              set_refCount (wrap16 (refCount InodeDir + 1)) InodeDir)
       else if (type =? INODE_FILE) || (type =? INODE_SYMLINK) then
         ret (set_refCount (wrap16 (refCount InodeEnt + 1)) InodeEnt, InodeDir)
       else fail EIUININVAL
     else fail EINVAL) ;;
  let '(InodeEnt, InodeDir) := pr in
  idx <- rd_var idx ;;
  let i := idx / DPC in
  let k := idx mod DPC in
  dc <- soReadFileCluster nInodeDir i ;;
  de <- de_of dc ;;
  de <- arr_set de k (mkDe (strncpy eName (MAX_NAME + 1)) nInodeEnt) ;;
  let grow := (k =? 0) && (0 <? i) in
  let de := if grow then clear_from 1 de else de in
  let InodeDir :=
    if grow then set_size (wrap32 (size InodeDir + SIZEOF_DIRENTRY * DPC)) InodeDir
    else InodeDir in
  soWriteInode InodeDir nInodeDir IUIN ;;;
  soWriteFileCluster nInodeDir i (set_info (IDe de) dc) ;;;
  soWriteInode InodeEnt nInodeEnt IUIN.

(** ** sofs_ifuncs_4: soRemDetachDirEntry.c *)

Definition REM : Z := 0.
Definition DETACH : Z := 1.

Definition soRemDetachDirEntry (nInodeDir : Z) (eName : list Z) (op : Z)
  : M unit :=
  soLoadSuperBlock ;;;
  p_sb <- soGetSuperBlock ;;
  fail_if ((negb (op =? DETACH) && negb (op =? REM))
           || (iTotal p_sb <? nInodeDir)) EINVAL ;;;
  inodeDir <- soReadInode nInodeDir IUIN ;;
  fail_if (negb (Z.land (mode inodeDir) INODE_DIR =? INODE_DIR)) ENOTDIR ;;;
  s <- get ;;
  check (soQCheckDirCont s inodeDir) ;;;
  fail_if (MAX_NAME <? strlen eName) ENAMETOOLONG ;;;
  remap EACCES (soAccessGranted nInodeDir X) ;;;
  remap EPERM (soAccessGranted nInodeDir W) ;;;
  l <- soGetDirEntryByName nInodeDir eName local local ;;
  check (l_stat l) ;;;
  nInodeEnt <- rd_var (l_nInodeEnt l) ;;
  dirInd <- rd_var (l_idx l) ;;
  inodeEnt <- soReadInode nInodeEnt IUIN ;;
  let clustInd := dirInd / DPC in
  let entInd := dirInd mod DPC in
  fail_if (iTableSize p_sb <=? nInodeDir) EINVAL ;;;
  dc <-
    (if op =? REM then
       (if Z.land (mode inodeEnt) INODE_DIR =? INODE_DIR then
          soCheckDirectoryEmptiness nInodeEnt
        else ret tt) ;;;
       dc <- soReadFileCluster nInodeDir clustInd ;;
       de <- de_of dc ;;
       e <- arr_get de entInd ;;
       n0 <- arr_get (name e) 0 ;;
       nm <- arr_set (name e) MAX_NAME n0 ;;
       nm <- arr_set nm 0 0 ;;
       de <- arr_set de entInd (mkDe nm (nInode e)) ;;
       ret (set_info (IDe de) dc)
     else
       dc <- soReadFileCluster nInodeDir clustInd ;;
       de <- de_of dc ;;
       _ <- arr_get de entInd ;;
       de <- arr_set de entInd (mkDe zero_name NULL_INODE) ;;
       ret (set_info (IDe de) dc)) ;;
  soWriteFileCluster nInodeDir clustInd dc ;;;
  let isdir := Z.land (mode inodeEnt) INODE_DIR =? INODE_DIR in
  let inodeEnt :=
    if isdir then set_refCount (wrap16 (refCount inodeEnt - 2)) inodeEnt
    else set_refCount (wrap16 (refCount inodeEnt - 1)) inodeEnt in
  let inodeDir :=
    if isdir then set_refCount (wrap16 (refCount inodeDir - 1)) inodeDir
    else inodeDir in
  soWriteInode inodeEnt nInodeEnt IUIN ;;;
  (if (refCount inodeEnt =? 0) && (op =? REM) then
     soHandleFileClusters nInodeEnt 0 FREE ;;;
     soFreeInode nInodeEnt
   else ret tt) ;;;
  soWriteInode inodeDir nInodeDir IUIN.

(** ** mkfs14: mkfs_sofs14.c *)

Definition fillInSuperBlock (ntotal itotal nclusttotal : Z) (name_ : list Z)
  : M unit :=
  modify_sb (fun _ =>
    mkSB 65535 VERSION_NUMBER
         (<[Z.to_nat PARTITION_NAME_SIZE := 0]>
            (strncpy name_ (PARTITION_NAME_SIZE + 1)))
         ntotal PRU
         1 (itotal / IPB) itotal
         (wrap32 (itotal - 1)) 1 (wrap32 (itotal - 1))
         (wrap32 (1 + itotal / IPB)) nclusttotal (wrap32 (nclusttotal - 1))
         1 (wrap32 (nclusttotal - 1))
         (mkCache DZONE_CACHE_SIZE
                  (replicate (Z.to_nat DZONE_CACHE_SIZE) NULL_CLUSTER))
         (mkCache 0 (replicate (Z.to_nat DZONE_CACHE_SIZE) NULL_CLUSTER))).

Definition root_mode : Z :=
  Z.lor (Z.lor (Z.lor (Z.lor (Z.lor (Z.lor (Z.lor (Z.lor (Z.lor
    INODE_DIR INODE_RD_USR) INODE_WR_USR) INODE_EX_USR) INODE_RD_GRP)
    INODE_WR_GRP) INODE_EX_GRP) INODE_RD_OTH) INODE_WR_OTH) INODE_EX_OTH.

(** The assignments made to [soin[i]], inode number [inode], in the order
    of the code. *)
Definition fill_inode (p_sb : SOSuperBlock) (u g t inode : Z) (soin : SOInode)
  : M SOInode :=
  let soin := set_cluCount 0 (set_size 0 (set_group 0 (set_owner 0
                (set_refCount 0 (set_mode INODE_FREE soin))))) in
  let soin := set_d (replicate (Z.to_nat N_DIRECT) NULL_CLUSTER) soin in
  let soin := set_vD2 (wrap32 (inode - 1)) (set_vD1 (wrap32 (inode + 1))
                (set_i2 NULL_CLUSTER (set_i1 NULL_CLUSTER soin))) in
  soin <- (if inode =? 0 then
             let soin := set_vD2 t (set_vD1 t (set_cluCount 1
                           (set_size (wrap32 (DPC * SIZEOF_DIRENTRY))
                           (set_group g (set_owner u (set_refCount 2
                           (set_mode root_mode soin))))))) in
             d' <- arr_set (d soin) 0 0 ;;
             ret (set_d d' soin)
           else ret soin) ;;
  let soin := if inode =? 1 then
                set_vD2 NULL_INODE (set_vD1 (wrap32 (inode + 1)) soin)
              else soin in
  let soin := if inode =? wrap32 (iTotal p_sb - 1) then
                set_vD2 (wrap32 (inode - 1)) (set_vD1 NULL_INODE soin)
              else soin in
  ret soin.

Definition fillInINT : M unit :=
  p_sb <- soGetSuperBlock ;;
  for_range 0 (Z.to_nat (iTableSize p_sb))
    (fun nblk =>
       soLoadBlockInT nblk ;;;
       for_range 0 (Z.to_nat IPB)
         (fun i =>
            s <- get ;;
            t <- time_now ;;
            soin <- inode_rd nblk i ;;
            soin <- fill_inode p_sb (uid s) (gid s) t (wrap32 (IPB * nblk + i)) soin ;;
            inode_wr nblk i (fun _ => soin)) ;;;
       soStoreBlockInT).

Definition fillInRootDir : M unit :=
  p_sb <- soGetSuperBlock ;;
  let de := replicate (Z.to_nat DPC) (mkDe zero_name 0) in
  de <- arr_set de 0 (mkDe (strncpy dot (MAX_NAME + 1)) 0) ;;
  de <- arr_set de 1 (mkDe (strncpy dotdot (MAX_NAME + 1)) 0) ;;
  let de := take 2 de
            ++ replicate (Z.to_nat DPC - 2)%nat (mkDe zero_name NULL_INODE) in
  soWriteCacheCluster (dZoneStart p_sb)
    (mkDC NULL_CLUSTER NULL_CLUSTER 0 (IDe de)).

(** [junk] is the content of the body of the local variable [newClust],
    which is assigned in zero mode only. *)
Definition fillInGenRep (zero : bool) (junk : SOInfo) : M unit :=
  p_sb <- soGetSuperBlock ;;
  let body := if zero then IData (replicate (Z.to_nat BSLPC) 0) else junk in
  for_range 1 (Z.to_nat (dZoneTotal p_sb - 1))
    (fun NLClt =>
       let clustFirstBlock := wrap32 (dZoneStart p_sb + BLOCKS_PER_CLUSTER * NLClt) in
       let prev_ := if NLClt =? 1 then NULL_CLUSTER else NLClt - 1 in
       let next_ := if NLClt =? wrap32 (dZoneTotal p_sb - 1) then NULL_CLUSTER
                    else NLClt + 1 in
       soWriteCacheCluster clustFirstBlock (mkDC prev_ next_ NULL_INODE body)).

Definition checkFSConsist : M unit :=
  soLoadSuperBlock ;;;
  s <- get ;;
  check (soQCheckSuperBlock s) ;;;
  soLoadBlockInT 0 ;;;
  inode <- inode_rd 0 0 ;;
  check (soQCheckInodeIU s inode) ;;;
  check (soQCheckDirCont s inode).

(** The body of [main] from the evaluation of the architecture of the file
    system on: [ntotal] is the number of blocks of the device, [itotal] the
    number of inodes asked for (0 when not given). *)
Definition geometry (ntotal itotal : Z) : Z * Z :=
  let itotal := if itotal =? 0 then Z.shiftr ntotal 3 else itotal in
  let iblktotal := if itotal mod IPB =? 0 then itotal / IPB
                   else itotal / IPB + 1 in
  let nclusttotal := wrap32 (ntotal - 1 - iblktotal) / BLOCKS_PER_CLUSTER in
  let iblktotal := wrap32 (ntotal - 1 - nclusttotal * BLOCKS_PER_CLUSTER) in
  (wrap32 (iblktotal * IPB), nclusttotal).

Definition mkfs (ntotal itotal : Z) (name_ : list Z) (zero : bool)
    (junk : SOInfo) : M unit :=
  let '(itotal, nclusttotal) := geometry ntotal itotal in
  soLoadSuperBlock ;;;
  fillInSuperBlock ntotal itotal nclusttotal name_ ;;;
  fillInINT ;;;
  fillInRootDir ;;;
  fillInGenRep zero junk ;;;
  modify_sb (set_magic MAGIC_NUMBER) ;;;
  soStoreSuperBlock ;;;
  checkFSConsist.

(** ** sofs_ifuncs_4: soRenameDirEntry.c *)

(** [basename] of [<libgen.h>]: the last component of a path, trailing
    slashes apart; ["."] for the empty string and ["/"] for a string of
    slashes. *)
Fixpoint drop_slashes (l : list Z) : list Z :=
  match l with
  | [] => []
  | c :: l' => if c =? slash then drop_slashes l' else l
  end.

Fixpoint until_slash (l : list Z) : list Z :=
  match l with
  | [] => []
  | c :: l' => if c =? slash then [] else c :: until_slash l'
  end.

Definition basename (path : list Z) : list Z :=
  match cstr path with
  | [] => dot
  | p =>
      match drop_slashes (reverse p) with
      | [] => [slash]
      | t => reverse (until_slash t)
      end
  end.

(** [memset (nm, 0, MAX_NAME); strcpy (nm, newName);] on the field [nm] of
    an entry, [newName] being no longer than [MAX_NAME]. *)
Definition rename_field (nm newName : list Z) : list Z :=
  let cleared := replicate (Z.to_nat MAX_NAME) 0 ++ drop (Z.to_nat MAX_NAME) nm in
  cstr newName ++ 0 :: drop (S (length (cstr newName))) cleared.

(** The names are strings, never null pointers.  [oldName] is copied into
    the array [aux] of [MAX_NAME + 1] bytes before its length is looked
    at.  The entry is addressed in the cluster read by its index in the
    directory, [dc.info.de[idx]]. *)
Definition soRenameDirEntry (nInodeDir : Z) (oldName newName : list Z)
  : M unit :=
  inode <- soReadInode nInodeDir IUIN ;;
  fail_if (Z.land (mode inode) INODE_DIR =? 0) ENOENT ;;;
  remap EACCES (soAccessGranted nInodeDir X) ;;;
  remap EPERM (soAccessGranted nInodeDir W) ;;;
  fail_if (MAX_NAME <? strlen newName) ENAMETOOLONG ;;;
  (if MAX_NAME <? strlen oldName then undef else ret tt) ;;;
  fail_if (negb (strcmp0 oldName (basename oldName))) EINVAL ;;;
  fail_if (negb (strcmp0 newName (basename newName))) EINVAL ;;;
  l <- soGetDirEntryByName nInodeDir oldName None local ;;
  check (l_stat l) ;;;
  r <- try_status (soGetDirEntryByName nInodeDir newName None None) ;;
  fail_if (match r with inr (mkLookup None _ _) => true | _ => false end)
          EEXIST ;;;
  idx <- rd_var (l_idx l) ;;
  let nClust := idx / DPC in
  dc <- soReadFileCluster nInodeDir nClust ;;
  de <- de_of dc ;;
  e <- arr_get de idx ;;
  de <- arr_set de idx (mkDe (rename_field (name e) newName) (nInode e)) ;;
  soWriteFileCluster nInodeDir nClust (set_info (IDe de) dc).

End Model.

(** ** A lower layer and two sets of constants to run the code on

    The theorems below hold for every lower layer and every choice of the
    constants unless they say otherwise; the scenarios run the code on the
    instances of this section. *)

(** Modelled from the spec: the consistency checks of section 4.8, each
    reduced to the part of the data model the operations rely on.  An inode
    in use has its free flag clear, a free inode has it set, and a free
    inode is clean when it references no cluster.  A cluster is free when
    it is held by one of the two caches or by the chain of free clusters.
    The two operations of the repository whose bodies are missing are
    absent from this layer: cleaning a dirty cluster is refused, and every
    directory is taken as empty. *)
Section RefLower.
Context {P : Params}.

Fixpoint in_chain (fuel : nat) (s : FS) (c x : Z) : bool :=
  match fuel with
  | O => false
  | S fuel' =>
      if c =? NULL_CLUSTER then false
      else if c =? x then true
      else match dzone s !! phys (sb s) c with
           | Some dc => in_chain fuel' s (next dc) x
           | None => false
           end
  end.

Definition is_free_cluster (s : FS) (x : Z) : bool :=
  existsb (Z.eqb x)
    (drop (Z.to_nat (cacheIdx (dZoneRetriev (sb s)))) (cache (dZoneRetriev (sb s))))
  || existsb (Z.eqb x)
       (take (Z.to_nat (cacheIdx (dZoneInsert (sb s)))) (cache (dZoneInsert (sb s))))
  || in_chain (Z.to_nat (dZoneTotal (sb s))) s (dHead (sb s)) x.

Definition ref_soQCheckInodeIU (s : FS) (i : SOInode) : option errno :=
  if Z.land (mode i) INODE_FREE =? 0 then None else Some EIUININVAL.

Definition ref_soQCheckFDInode (s : FS) (i : SOInode) : option errno :=
  if Z.land (mode i) INODE_FREE =? 0 then Some EFDININVAL else None.

Definition ref_soQCheckFCInode (i : SOInode) : option errno :=
  if negb (Z.land (mode i) INODE_FREE =? 0)
     && forallb (Z.eqb NULL_CLUSTER) (d i)
     && (i1 i =? NULL_CLUSTER) && (i2 i =? NULL_CLUSTER)
  then None else Some EFININVAL.

Definition ref_soQCheckStatDC (s : FS) (x : Z) : errno + clt_stat :=
  if (0 <=? x) && (x <? dZoneTotal (sb s)) then
    inr (if is_free_cluster s x then FREE_CLT else ALLOC_CLT)
  else inl EINVAL.

Definition ref_lower : Lower := {|
  soQCheckSuperBlock := fun _ => None;
  soQCheckInT := fun _ => None;
  soQCheckDZ := fun _ => None;
  soQCheckInodeIU := ref_soQCheckInodeIU;
  soQCheckFDInode := ref_soQCheckFDInode;
  soQCheckFCInode := ref_soQCheckFCInode;
  soQCheckDirCont := fun _ _ => None;
  soQCheckStatDC := ref_soQCheckStatDC;
  soCleanDataCluster := fun _ _ => fail ELIBBAD;
  soCheckDirectoryEmptiness := fun _ => ret tt
|}.

(** A device before it is formatted: [ni] inodes and [nc] data clusters of
    indeterminate content, the clusters laid out from block [start] on. *)
Definition junk_inode : SOInode := mkInode 0 0 0 0 0 0 0 0 [] 0 0.
Definition junk_cluster : SODataClust := mkDC 0 0 0 (IData []).
Definition junk_sb : SOSuperBlock :=
  mkSB 0 0 [] 0 0 0 0 0 0 0 0 0 0 0 0 0 (mkCache 0 []) (mkCache 0 []).

Definition blank_device (ni nc start : Z) (u g eu eg t : Z) : FS :=
  mkFS junk_sb
       (list_to_map (map (fun n => (n, junk_inode)) (seqZ 0 ni)))
       (list_to_map
          (map (fun c => (start + c * BLOCKS_PER_CLUSTER, junk_cluster))
               (seqZ 0 nc)))
       u g eu eg t.

End RefLower.

(** Mode bits as in the usual layout of a UNIX mode word. *)
Definition tiny : Params := {|
  BLOCKS_PER_CLUSTER := 2; IPB := 2; DPC := 2; RPC := 3; N_DIRECT := 1;
  MAX_NAME := 3; DZONE_CACHE_SIZE := 2; BSLPC := 16; SIZEOF_DIRENTRY := 8;
  PARTITION_NAME_SIZE := 7; VERSION_NUMBER := 14; MAGIC_NUMBER := 26110;
  PRU := 0;
  INODE_FREE := 4096; INODE_DIR := 2048; INODE_FILE := 1024;
  INODE_SYMLINK := 512;
  INODE_RD_USR := 256; INODE_WR_USR := 128; INODE_EX_USR := 64;
  INODE_RD_GRP := 32; INODE_WR_GRP := 16; INODE_EX_GRP := 8;
  INODE_RD_OTH := 4; INODE_WR_OTH := 2; INODE_EX_OTH := 1
|}.

(** Eight inodes in a block and four blocks in a cluster; the other
    constants are those of [tiny]. *)
Definition wide : Params := {|
  BLOCKS_PER_CLUSTER := 4; IPB := 8; DPC := 2; RPC := 3; N_DIRECT := 1;
  MAX_NAME := 3; DZONE_CACHE_SIZE := 2; BSLPC := 16; SIZEOF_DIRENTRY := 8;
  PARTITION_NAME_SIZE := 7; VERSION_NUMBER := 14; MAGIC_NUMBER := 26110;
  PRU := 0;
  INODE_FREE := 4096; INODE_DIR := 2048; INODE_FILE := 1024;
  INODE_SYMLINK := 512;
  INODE_RD_USR := 256; INODE_WR_USR := 128; INODE_EX_USR := 64;
  INODE_RD_GRP := 32; INODE_WR_GRP := 16; INODE_EX_GRP := 8;
  INODE_RD_OTH := 4; INODE_WR_OTH := 2; INODE_EX_OTH := 1
|}.

(** ** Outcomes of a call *)

(** [post m s Qok Qerr Qundef]: what the call [m] in the state [s] ends
    with, whatever the outcome. *)
Definition post {A} (m : M A) (s : FS) (Qok : A -> FS -> Prop)
    (Qerr : errno -> FS -> Prop) (Qundef : Prop) : Prop :=
  match m s with
  | Ok a s' => Qok a s'
  | Err e s' => Qerr e s'
  | Undef => Qundef
  end.

(** ** Notions used by the statements *)

Section Specs.
Context {P : Params} {L : Lower}.

(** *** Access rights *)

(** The class of the caller with respect to an inode, as [soAccessGranted]
    determines it: from the real user and group identifiers, [getuid ()]
    and [getgid ()]. *)
Inductive class : Set := Usr | Grp | Oth.

Definition class_of (s : FS) (i : SOInode) : class :=
  if uid s =? owner i then Usr
  else if gid s =? group i then Grp
  else Oth.

(** The class according to the effective identifiers. *)
Definition eclass_of (s : FS) (i : SOInode) : class :=
  if euid s =? owner i then Usr
  else if egid s =? group i then Grp
  else Oth.

Definition rd_bit (c : class) : Z :=
  match c with Usr => INODE_RD_USR | Grp => INODE_RD_GRP | Oth => INODE_RD_OTH end.
Definition wr_bit (c : class) : Z :=
  match c with Usr => INODE_WR_USR | Grp => INODE_WR_GRP | Oth => INODE_WR_OTH end.
Definition ex_bit (c : class) : Z :=
  match c with Usr => INODE_EX_USR | Grp => INODE_EX_GRP | Oth => INODE_EX_OTH end.

(** Every operation requested by [op] is permitted to class [c] by the
    mode [md]. *)
Definition permits (c : class) (md op : Z) : Prop :=
  (Z.land op R <> 0 -> Z.land md (rd_bit c) = rd_bit c)
  /\ (Z.land op W <> 0 -> Z.land md (wr_bit c) = wr_bit c)
  /\ (Z.land op X <> 0 -> Z.land md (ex_bit c) = ex_bit c).

(** Some execution permission is set in [md]. *)
Definition any_exec (md : Z) : Prop :=
  Z.land md (Z.lor (Z.lor INODE_EX_USR INODE_EX_GRP) INODE_EX_OTH) <> 0.

(** *** Directory entries *)

(** The test [soGetDirEntryByName] makes on an entry to take it as free in
    the clean state: the first and the last byte of the name are NUL. *)
Definition looks_free (e : SODirEntry) : bool :=
  match name e !! 0%nat, name e !! Z.to_nat MAX_NAME with
  | Some a, Some b => (a =? 0) && (b =? 0)
  | _, _ => false
  end.

(** An entry that is free in the clean state according to the data model:
    the inode field is [NULL_INODE] as well. *)
Definition free_clean (e : SODirEntry) : bool :=
  looks_free e && (nInode e =? NULL_INODE).

(** The index of the first entry of a list that passes a test. *)
Fixpoint first_index {A} (f : A -> bool) (l : list A) : option nat :=
  match l with
  | [] => None
  | e :: l' => if f e then Some O else S <$> first_index f l'
  end.

(** The contents of [k] clusters of the directory [n] from position [c]
    on, read in ascending order. *)
Fixpoint dir_clusters (k : nat) (c n : Z) : M (list (list SODirEntry)) :=
  match k with
  | O => ret []
  | S k' =>
      dc <- soReadFileCluster n c ;;
      de <- de_of dc ;;
      rest <- dir_clusters k' (c + 1) n ;;
      ret (de :: rest)
  end.

(** Every cluster holds [DPC] entries, every name [MAX_NAME + 1] bytes, and
    no name is [eName]. *)
Definition no_match (eName : list Z) (des : list (list SODirEntry)) : bool :=
  forallb (fun de =>
             (length de =? Z.to_nat DPC)%nat
             && forallb (fun e =>
                           (length (name e) =? Z.to_nat (MAX_NAME + 1))%nat
                           && negb (strcmp0 (name e) eName)) de) des.

(** The state of the scan after entries among which the first that looks
    free, if any, has index [i] of the directory. *)
Definition scan_after (a : Scan) (p_idx : option Z) (i : option Z) : Scan :=
  if sc_flag a =? 0 then
    match i with
    | Some i => mkScan false 1 (sc_ent a) (store_opt p_idx (wrap32 i) (sc_idx a))
    | None => a
    end
  else a.

(** *** Free data clusters *)

(** [chain b d c l]: following the [next] fields from cluster [c] visits
    the clusters of [l] in turn and ends with [NULL_CLUSTER]. *)
Inductive chain (b : SOSuperBlock) (d : gmap Z SODataClust)
  : Z -> list Z -> Prop :=
| chain_end : chain b d NULL_CLUSTER []
| chain_step c dc l :
    c <> NULL_CLUSTER ->
    d !! phys b c = Some dc ->
    chain b d (next dc) l ->
    chain b d c (c :: l).

(** The last cluster of a chain, [NULL_CLUSTER] for the empty one. *)
Definition tail_of (l : list Z) : Z := default NULL_CLUSTER (last l).

(** The references held in the insertion cache: the slots below
    [cacheIdx]. *)
Definition inserted (b : SOSuperBlock) : list Z :=
  take (Z.to_nat (cacheIdx (dZoneInsert b))) (cache (dZoneInsert b)).

(** The references held in the retrieval cache: the slots from [cacheIdx]
    on. *)
Definition retrievable (b : SOSuperBlock) : list Z :=
  drop (Z.to_nat (cacheIdx (dZoneRetriev b))) (cache (dZoneRetriev b)).

(** All the references to free clusters, the chain being [l]. *)
Definition free_refs (b : SOSuperBlock) (l : list Z) : list Z :=
  inserted b ++ l ++ retrievable b.

Definition in_zone (b : SOSuperBlock) (c : Z) : Prop := 0 <= c < dZoneTotal b.

Definition cache_ok (c : SOFreeCache) : Prop :=
  0 <= cacheIdx c <= DZONE_CACHE_SIZE
  /\ length (cache c) = Z.to_nat DZONE_CACHE_SIZE.

(** The block numbers of the data zone and the size of the caches fit in
    [uint32_t], and [NULL_CLUSTER] is the number of no cluster. *)
Definition geometry_ok (b : SOSuperBlock) : Prop :=
  0 < BLOCKS_PER_CLUSTER
  /\ 0 < DZONE_CACHE_SIZE < 4294967296
  /\ 0 <= dZoneStart b
  /\ dZoneTotal b <= NULL_CLUSTER
  /\ dZoneStart b + dZoneTotal b * BLOCKS_PER_CLUSTER <= 4294967296.

(** The free clusters are accounted for: [l] is the chain from [dHead] to
    [dTail], no cluster is referenced twice by the caches and the chain, and
    [dZoneFree] counts the references. *)
Record FreeInv (s : FS) (l : list Z) : Prop := mkFreeInv {
  fi_geom : geometry_ok (sb s);
  fi_ins : cache_ok (dZoneInsert (sb s));
  fi_ret : cache_ok (dZoneRetriev (sb s));
  fi_chain : chain (sb s) (dzone s) (dHead (sb s)) l;
  fi_tail : dTail (sb s) = tail_of l;
  fi_range : Forall (in_zone (sb s)) (free_refs (sb s) l);
  fi_nodup : NoDup (free_refs (sb s) l);
  fi_count :
    dZoneFree (sb s)
    = cacheIdx (dZoneInsert (sb s)) + Z.of_nat (length l)
      + (DZONE_CACHE_SIZE - cacheIdx (dZoneRetriev (sb s)))
}.

(** [vs] written over the slots [n], [n + 1], ... of an array. *)
Definition fill (n : nat) (vs l : list Z) : list Z :=
  take n l ++ vs ++ drop (n + length vs) l.

(** The chain after [soFreeDataCluster]: a full insertion cache is first
    appended to it. *)
Definition chain_after_free (b : SOSuperBlock) (l : list Z) : list Z :=
  if cacheIdx (dZoneInsert b) =? DZONE_CACHE_SIZE then l ++ inserted b else l.

(** What the statements assume of [soCleanDataCluster], which belongs to a
    layer whose code is missing: it keeps the free clusters accounted for
    and leaves the retrieval cache alone. *)
Definition clean_preserves : Prop :=
  forall n c s s' l,
    FreeInv s l -> soCleanDataCluster n c s = Ok tt s' ->
    dZoneRetriev (sb s') = dZoneRetriev (sb s) /\ exists l', FreeInv s' l'.


(** *** Free inodes *)

(** [ichain it n l]: following the [next] fields ([vD1]) from the free
    inode [n] visits the inodes of [l] in turn and ends with [NULL_INODE]. *)
Inductive ichain (it : gmap Z SOInode) : Z -> list Z -> Prop :=
| ichain_end : ichain it NULL_INODE []
| ichain_step n i l :
    n <> NULL_INODE ->
    it !! n = Some i ->
    ichain it (vD1 i) l ->
    ichain it n (n :: l).

(** The list of the free inodes is [l]: it starts at [iHead], ends at
    [iTail], holds no inode twice and [iFree] is its length. *)
Record InodeInv (s : FS) (l : list Z) : Prop := mkInodeInv {
  ii_ipb : 0 < IPB;
  ii_table : iTotal (sb s) <= iTableSize (sb s) * IPB;
  ii_total : iTotal (sb s) <= NULL_INODE;
  ii_chain : ichain (itable s) (iHead (sb s)) l;
  ii_tail : iTail (sb s) = default NULL_INODE (last l);
  ii_range : Forall (fun n => 0 <= n < iTotal (sb s)) l;
  ii_nodup : NoDup l;
  ii_count : iFree (sb s) = Z.of_nat (length l)
}.

(** The inode [soAllocInode] leaves in the table. *)
Definition fresh_inode (type u g t : Z) : SOInode :=
  mkInode type 0 u g 0 0 t t (replicate (Z.to_nat N_DIRECT) NULL_CLUSTER)
    NULL_CLUSTER NULL_CLUSTER.

(** *** Files and directories *)

(** [s'] is [s], or [s] with the time of the last access of the inode [n]
    set to the current time. *)
Definition only_atime (n : Z) (s s' : FS) : Prop :=
  s' = s
  \/ exists i, itable s !! n = Some i
       /\ s' = set_itable (<[n := set_vD1 (clock s) i]> (itable s)) s.

(** Element [k] of the cluster of references [c]. *)
Definition ref_at (s : FS) (c k : Z) : option Z :=
  match dzone s !! phys (sb s) c with
  | Some dc =>
      match info dc with
      | IRef r => if 0 <=? k then r !! Z.to_nat k else None
      | _ => None
      end
  | None => None
  end.

(** The data cluster at position [p] of a file, read off the references
    of its inode [i]: the direct ones, the cluster [i1] of references, or
    the clusters of references named by the cluster [i2]. *)
Definition cluster_at (s : FS) (i : SOInode) (p : Z) : option Z :=
  if p <? N_DIRECT then
    if 0 <=? p then d i !! Z.to_nat p else None
  else if p <? N_DIRECT + RPC then
    if i1 i =? NULL_CLUSTER then Some NULL_CLUSTER
    else ref_at s (i1 i) (p - N_DIRECT)
  else
    if i2 i =? NULL_CLUSTER then Some NULL_CLUSTER
    else
      match ref_at s (i2 i) ((p - N_DIRECT - RPC) / RPC) with
      | Some r =>
          if r =? NULL_CLUSTER then Some NULL_CLUSTER
          else ref_at s r ((p - N_DIRECT - RPC) mod RPC)
      | None => None
      end.

Definition sizes_ok : Prop :=
  0 < IPB /\ 0 <= N_DIRECT /\ 0 < RPC /\ MAX_FILE_CLUSTERS <= 4294967296.

(** Whatever its outcome, the call [m] leaves the state as it is but for
    the time of the last access of the inode [n]. *)
Definition reads_only {A} (n : Z) (m : M A) : Prop :=
  forall s, post m s (fun _ s' => only_atime n s s')
                     (fun _ s' => only_atime n s s') True.

(** The inode [i'] is the file [i]: type, owner, size and references. *)
Definition same_file (i i' : SOInode) : Prop :=
  mode i' = mode i /\ owner i' = owner i /\ group i' = group i
  /\ size i' = size i /\ cluCount i' = cluCount i
  /\ d i' = d i /\ i1 i' = i1 i /\ i2 i' = i2 i.

(** Every cluster of directory entries of the data zone holds [DPC]
    entries. *)
Definition entries_sized (s : FS) : Prop :=
  forall k dc e,
    dzone s !! k = Some dc -> info dc = IDe e -> length e = Z.to_nat DPC.

(** *** The formatter *)

(** What [fillInINT] leaves in the inode [j], other than inode 0: a free
    inode whose [next] is [j + 1] and whose [prev] is [j - 1], but for the
    [prev] of inode 1 and the [next] of the last inode; the assignments for
    the last inode are made after those for inode 1. *)
Definition filled_inode (b : SOSuperBlock) (j : Z) (i : SOInode) : Prop :=
  mode i = INODE_FREE
  /\ vD1 i = (if j =? iTotal b - 1 then NULL_INODE else j + 1)
  /\ vD2 i = (if j =? iTotal b - 1 then j - 1
              else if j =? 1 then NULL_INODE else j - 1).

(** The inodes below [k] are filled in. *)
Definition inodes_filled (b : SOSuperBlock) (k : Z) (s : FS) : Prop :=
  sb s = b
  /\ forall j, 1 <= j < k ->
       exists ij, itable s !! j = Some ij /\ filled_inode b j ij.

(** The free clusters below [k] are linked. *)
Definition clusters_filled (b : SOSuperBlock) (k : Z) (s : FS) : Prop :=
  sb s = b
  /\ forall j, 1 <= j < k ->
       exists dc, dzone s !! phys b j = Some dc
         /\ next dc = if j =? dZoneTotal b - 1 then NULL_CLUSTER else j + 1.

End Specs.

(** ** Scenarios

    The code is run on a small device: the constants are those of [tiny]
    (those of [wide] for the device [dev_wide]), the lower layer is
    [ref_lower], and every state is reached from the formatter by calls of
    the operations. *)
Module Scenario.
#[local] Existing Instance tiny.
#[local] Existing Instance ref_lower.

(** The state in which a call ends, whatever its status. *)
Definition after {A} (m : M A) (s : FS) : FS :=
  match m s with
  | Ok _ s' => s'
  | Err _ s' => s'
  | Undef => s
  end.

(** The status and the value of a call. *)
Definition outcome {A} (m : M A) (s : FS) : option (errno + A) :=
  match m s with
  | Ok a _ => Some (inr a)
  | Err e _ => Some (inl e)
  | Undef => None
  end.

(** A device of 28 blocks, formatted with 6 inodes and 12 data clusters;
    the caller is an ordinary user. *)
Definition dev0 : FS := blank_device 6 12 4 1000 1000 1000 1000 77.
Definition formatted : FS := after (mkfs 28 6 [83; 79] false (IData [])) dev0.

(** A device of 10 blocks, formatted with 2 inodes. *)
Definition dev2 : FS := blank_device 2 4 2 1000 1000 1000 1000 77.
Definition formatted2 : FS := after (mkfs 10 2 [83; 79] false (IData [])) dev2.

(** Inode 1 allocated as a regular file. *)
Definition with_file : FS := after (soAllocInode INODE_FILE local) formatted.

(** A buffer whose body is 16 bytes of value [b]. *)
Definition buf (b : Z) : SODataClust := mkDC 9 9 9 (IData (replicate 16 b)).

(** [soAllocInode] of a regular file followed by [soAddAttDirEntry] of its
    inode to the root directory under the name [nm]. *)
Definition addfile (nm : list Z) : M unit :=
  n <- soAllocInode INODE_FILE local ;;
  soAddAttDirEntry junk_cluster 0 nm n ADD.

Definition name_a : list Z := [97].
Definition name_b : list Z := [98].
Definition name_c : list Z := [99].
Definition name_z : list Z := [122].

(** The root directory after the files "a", "b" and "c" were added. *)
Definition with_abc : FS :=
  after (addfile name_a ;;; addfile name_b ;;; addfile name_c) formatted.

(** The file of inode 1 with the positions 7 and 8 written. *)
Definition with_7_8 : FS :=
  after (soWriteFileCluster 1 7 (buf 170) ;;; soWriteFileCluster 1 8 (buf 171))
        with_file.

(** The same device used by a process whose effective identifiers (2000)
    differ from its real ones (1000): inode 1 is allocated as a regular
    file, owned by the real user, and given the mode "read by owner". *)
Definition dev_setuid : FS := blank_device 6 12 4 1000 1000 2000 2000 77.
Definition chmod (n md : Z) : M unit :=
  i <- soReadInode n IUIN ;;
  soWriteInode (set_mode md i) n IUIN.
Definition with_owned_file : FS :=
  after (n <- soAllocInode INODE_FILE local ;;
         chmod n (Z.lor INODE_FILE INODE_RD_USR))
        (after (mkfs 28 6 [83; 79] false (IData [])) dev_setuid).

(** The inode 1 of [with_owned_file] as [soReadInode] returns it, and the
    state it leaves. *)
Definition owned_inode : SOInode :=
  match soReadInode 1 IUIN with_owned_file with
  | Ok i _ => i
  | _ => junk_inode
  end.
Definition owned_read : FS := after (soReadInode 1 IUIN) with_owned_file.

(** The lookup of a name in the root directory of [with_abc], step by
    step: the inode as [soReadInode] returns it, the states after the read
    and after the check of the access rights, the three clusters the scan
    reads and the state after them. *)
Definition abc_inode : SOInode :=
  match soReadInode 0 IUIN with_abc with
  | Ok i _ => i
  | _ => junk_inode
  end.
Definition abc_s1 : FS := after (soReadInode 0 IUIN) with_abc.
Definition abc_s2 : FS := after (soAccessGranted 0 X) abc_s1.
Definition abc_des : list (list SODirEntry) :=
  match dir_clusters 3 0 0 abc_s2 with
  | Ok des _ => des
  | _ => []
  end.
Definition abc_s3 : FS := after (dir_clusters 3 0 0) abc_s2.

(** The free chain of [formatted]. *)
Definition free_chain0 : list Z := [1; 2; 3; 4; 5; 6; 7; 8; 9; 10; 11].

(** [soReplenish] once, and once more on the retrieval cache it has filled. *)
Definition replenished : FS := after soReplenish formatted.
Definition replenished2 : FS := after soReplenish replenished.

(** An allocation that replenishes, one that does not, and a release. *)
Definition alloc1 : FS := after (soAllocDataCluster 0 local) formatted.
Definition alloc4 : FS := after (soAllocDataCluster 0 local) with_abc.
Definition freed3 : FS := after (soFreeDataCluster 3) with_7_8.

(** The free inodes of [formatted] and of [with_file], and the inode 1 of
    [with_file]. *)
Definition free_inodes0 : list Z := [1; 2; 3; 4; 5].
Definition free_inodes1 : list Z := [2; 3; 4; 5].
Definition file_inode : SOInode :=
  default junk_inode (itable with_file !! 1).

(** The inode of the root directory of [formatted]. *)
Definition root_inode : SOInode := default junk_inode (itable formatted !! 0).

(** The free chain of [with_abc]. *)
Definition free_chain_abc : list Z := [5; 6; 7; 8; 9; 10; 11].

(** More calls: the file of [with_file] freed; the cluster allocated on
    [with_abc] freed again; the first cluster of the root directory and of
    the file of [with_file] written; the file entered into the root
    directory; the entry ".." of the root directory renamed; the
    entry of the file removed again. *)
Definition unlinked : FS := after (soFreeInode 1) with_file.
Definition alloc4_freed : FS := after (soFreeDataCluster 4) alloc4.
Definition root_written : FS :=
  after (soWriteFileCluster 0 0 (buf 170)) formatted.
Definition hole_written : FS :=
  after (soWriteFileCluster 1 0 (buf 170)) with_file.
Definition linked : FS :=
  after (soAddAttDirEntry junk_cluster 0 name_a 1 ADD) with_file.
Definition renamed : FS := after (soRenameDirEntry 0 dotdot name_z) formatted.
Definition removed : FS := after (soRemDetachDirEntry 0 name_a REM) linked.

(** The free chain of [replenished] and of [replenished2]. *)
Definition free_chain_r : list Z := [3; 4; 5; 6; 7; 8; 9; 10; 11].
Definition free_chain_r2 : list Z := [5; 6; 7; 8; 9; 10; 11].

(** Ten allocations on [formatted] and the release of cluster 3: the
    retrieval cache is empty, the chain holds cluster 11 and the insertion
    cache cluster 3. *)
Definition alloc_ten : M unit :=
  for_range 0 10 (fun _ => _ <- soAllocDataCluster 0 local ;; ret tt).
Definition drained : FS := after (alloc_ten ;;; soFreeDataCluster 3) formatted.

(** The steps of [soReplenish] up to its call of [soDeplete], which the
    next allocation on [drained] runs: the first loop and the reset of
    [dHead] and [dTail]. *)
Definition replenish_first_part : M unit :=
  p_sb <- soGetSuperBlock ;;
  let nctt := if dZoneFree p_sb <? DZONE_CACHE_SIZE then dZoneFree p_sb
              else DZONE_CACHE_SIZE in
  _ <- replenish_loop1 (Z.to_nat nctt) (DZONE_CACHE_SIZE - nctt) (dHead p_sb) ;;
  modify_sb (fun b => set_dTail NULL_CLUSTER (set_dHead NULL_CLUSTER b)).
Definition drained_mid : FS := after replenish_first_part drained.
Definition drained_depleted : FS := after soDeplete drained_mid.

(** A device of 1000 blocks, formatted with the constants [wide] for 128
    inodes: the table of inodes takes 19 blocks, that is 152 inodes. *)
Definition mkfs_wide : M unit :=
  @mkfs wide (@ref_lower wide) 1000 128 [83; 79] false (IData []).
Definition dev_wide : FS :=
  @blank_device wide 152 245 20 1000 1000 1000 1000 77.
Definition formatted_wide : FS := after mkfs_wide dev_wide.

End Scenario.

(** * Properties *)

(** ** The monad *)

Lemma bind_Ok {A B} (m : M A) (k : A -> M B) (s : FS) (b : B) (s' : FS) :
  bind m k s = Ok b s' ->
  exists a s1, m s = Ok a s1 /\ k a s1 = Ok b s'.
Proof.
  unfold bind. destruct (m s) as [a s1 | e s1 |]; try discriminate.
  intros H. exists a, s1. split; [reflexivity | exact H].
Qed.

Lemma bind_Ok_intro {A B} (m : M A) (k : A -> M B) (s s1 : FS) (a : A) :
  m s = Ok a s1 -> bind m k s = k a s1.
Proof. unfold bind. intros ->. reflexivity. Qed.

Lemma bind_Err_intro {A B} (m : M A) (k : A -> M B) (s s1 : FS) (e : errno) :
  m s = Err e s1 -> bind m k s = Err e s1.
Proof. unfold bind. intros ->. reflexivity. Qed.

Lemma ret_Ok {A} (a b : A) (s s' : FS) : ret a s = Ok b s' -> a = b /\ s = s'.
Proof. unfold ret. intros H. injection H as -> ->. split; reflexivity. Qed.

Lemma fail_if_Ok (c : bool) (e : errno) (s : FS) (u : unit) (s' : FS) :
  fail_if c e s = Ok u s' -> c = false /\ s = s'.
Proof.
  unfold fail_if. destruct c; [discriminate |].
  intros H. apply ret_Ok in H. destruct H as [_ ->]. split; reflexivity.
Qed.

Lemma check_Ok (r : option errno) (s : FS) (u : unit) (s' : FS) :
  check r s = Ok u s' -> r = None /\ s = s'.
Proof.
  unfold check. destruct r; [discriminate |].
  intros H. apply ret_Ok in H. destruct H as [_ ->]. split; reflexivity.
Qed.

Lemma store_Ok (p : option Z) (v : Z) (s : FS) (o : Z) (s' : FS) :
  store p v s = Ok o s' -> p <> None /\ o = v /\ s' = s.
Proof.
  unfold store. destruct p; [| discriminate].
  intros H. apply ret_Ok in H. destruct H as [-> ->]. repeat split. discriminate.
Qed.

Lemma arr_get_Ok {A} (l : list A) (i : Z) (s : FS) (v : A) (s' : FS) :
  arr_get l i s = Ok v s' -> 0 <= i /\ l !! Z.to_nat i = Some v /\ s' = s.
Proof.
  unfold arr_get. destruct (0 <=? i) eqn:Hi; [| discriminate].
  destruct (l !! Z.to_nat i) eqn:Hl; [| discriminate].
  intros H. apply ret_Ok in H. destruct H as [-> ->].
  repeat split. lia.
Qed.

Lemma arr_set_Ok {A} (l : list A) (i : Z) (v : A) (s : FS) (l' : list A)
    (s' : FS) :
  arr_set l i v s = Ok l' s' ->
  0 <= i < Z.of_nat (length l) /\ l' = <[Z.to_nat i := v]> l /\ s' = s.
Proof.
  unfold arr_set.
  destruct ((0 <=? i) && (i <? Z.of_nat (length l))) eqn:Hi; [| discriminate].
  intros H. apply ret_Ok in H. destruct H as [<- ->].
  apply andb_true_iff in Hi. destruct Hi as [H1 H2].
  repeat split; lia.
Qed.

(** The transfer functions. *)
Section Primitives.
Context {P : Params} {L : Lower}.

Lemma soConvertRefInT_Ok n s r s' :
  soConvertRefInT n s = Ok r s' ->
  s' = s /\ r = (n / IPB, n mod IPB) /\ 0 <= n < iTotal (sb s).
Proof.
  unfold soConvertRefInT, bind, soGetSuperBlock.
  destruct ((0 <=? n) && (n <? iTotal (sb s))) eqn:E; [| discriminate].
  intros H. apply ret_Ok in H. destruct H as [<- <-].
  apply andb_true_iff in E. repeat split; lia.
Qed.

Lemma soLoadBlockInT_Ok nBlk s u s' :
  soLoadBlockInT nBlk s = Ok u s' ->
  s' = s /\ 0 <= nBlk < iTableSize (sb s).
Proof.
  unfold soLoadBlockInT, bind, soGetSuperBlock.
  destruct ((0 <=? nBlk) && (nBlk <? iTableSize (sb s))) eqn:E; [| discriminate].
  intros H. apply ret_Ok in H. destruct H as [_ <-].
  apply andb_true_iff in E. repeat split; lia.
Qed.

Lemma inode_rd_Ok nBlk offset s i s' :
  inode_rd nBlk offset s = Ok i s' ->
  s' = s /\ itable s !! (nBlk * IPB + offset) = Some i.
Proof.
  unfold inode_rd. destruct (itable s !! (nBlk * IPB + offset)); [| discriminate].
  intros [= ? ?]. subst. split; reflexivity.
Qed.

Lemma inode_wr_Ok nBlk offset f s u s' :
  inode_wr nBlk offset f s = Ok u s' ->
  exists i, itable s !! (nBlk * IPB + offset) = Some i
            /\ s' = set_itable (<[nBlk * IPB + offset := f i]> (itable s)) s.
Proof.
  unfold inode_wr. destruct (itable s !! (nBlk * IPB + offset)) as [i |];
    [| discriminate].
  intros [= ?]. subst s'. exists i. split; reflexivity.
Qed.

Lemma time_now_Ok s t s' : time_now s = Ok t s' -> s' = s /\ t = clock s.
Proof. unfold time_now. intros [= ? ?]. subst. split; reflexivity. Qed.

Lemma checkStatDC_Ok c s st s' :
  checkStatDC c s = Ok st s' -> s' = s /\ soQCheckStatDC s c = inr st.
Proof.
  unfold checkStatDC. destruct (soQCheckStatDC s c); [discriminate |].
  intros [= ? ?]. subst. split; reflexivity.
Qed.

End Primitives.

Lemma soReadCacheCluster_Ok nBlk s dc s' :
  soReadCacheCluster nBlk s = Ok dc s' -> s' = s /\ dzone s !! nBlk = Some dc.
Proof.
  unfold soReadCacheCluster. destruct (dzone s !! nBlk); [| discriminate].
  intros [= ? ?]. subst. split; reflexivity.
Qed.

Lemma soWriteCacheCluster_Ok nBlk dc s u s' :
  soWriteCacheCluster nBlk dc s = Ok u s' ->
  is_Some (dzone s !! nBlk) /\ s' = set_dzone (<[nBlk := dc]> (dzone s)) s.
Proof.
  unfold soWriteCacheCluster. destruct (dzone s !! nBlk) eqn:E; [| discriminate].
  intros [= ?]. subst s'. split; [eauto | reflexivity].
Qed.

Lemma modify_sb_Ok f s u s' :
  modify_sb f s = Ok u s' -> s' = set_sb (f (sb s)) s.
Proof. unfold modify_sb. intros [= ?]. subst s'. reflexivity. Qed.

(** Decomposition of a hypothesis [H : m s = Ok v s'] along the binds of
    [m]. *)
Ltac inv_ok H :=
  lazymatch type of H with
  | bind _ _ _ = Ok _ _ =>
      let a := fresh "a" in
      let s1 := fresh "s" in
      let H1 := fresh "H" in
      let H2 := fresh "H" in
      apply bind_Ok in H; destruct H as (a & s1 & H1 & H2);
      inv_ok H1; inv_ok H2
  | ret _ _ = Ok _ _ =>
      apply ret_Ok in H; destruct H as [? ?]; subst
  | fail _ _ = Ok _ _ => discriminate H
  | undef _ = Ok _ _ => discriminate H
  | fail_if _ _ _ = Ok _ _ =>
      apply fail_if_Ok in H; destruct H as [? ?]; subst
  | check _ _ = Ok _ _ =>
      apply check_Ok in H; destruct H as [? ?]; subst
  | store _ _ _ = Ok _ _ =>
      apply store_Ok in H; destruct H as (? & ? & ?); subst
  | soGetSuperBlock _ = Ok _ _ =>
      injection H as ? ?; subst
  | soLoadSuperBlock _ = Ok _ _ =>
      apply ret_Ok in H; destruct H as [? ?]; subst
  | soStoreSuperBlock _ = Ok _ _ =>
      apply ret_Ok in H; destruct H as [? ?]; subst
  | soStoreBlockInT _ = Ok _ _ =>
      apply ret_Ok in H; destruct H as [? ?]; subst
  | get _ = Ok _ _ =>
      injection H as ? ?; subst
  | soConvertRefInT _ _ = Ok _ _ =>
      apply soConvertRefInT_Ok in H; destruct H as (? & ? & ?); subst
  | soLoadBlockInT _ _ = Ok _ _ =>
      apply soLoadBlockInT_Ok in H; destruct H as (? & ?); subst
  | inode_rd _ _ _ = Ok _ _ =>
      apply inode_rd_Ok in H; destruct H as (? & ?); subst
  | inode_wr _ _ _ _ = Ok _ _ =>
      apply inode_wr_Ok in H; destruct H as (? & ? & ?); subst
  | time_now _ = Ok _ _ =>
      apply time_now_Ok in H; destruct H as (? & ?); subst
  | checkStatDC _ _ = Ok _ _ =>
      apply checkStatDC_Ok in H; destruct H as (? & ?); subst
  | soReadCacheCluster _ _ = Ok _ _ =>
      apply soReadCacheCluster_Ok in H; destruct H as (? & ?); subst
  | soWriteCacheCluster _ _ _ = Ok _ _ =>
      apply soWriteCacheCluster_Ok in H; destruct H as (? & ?); subst
  | modify_sb _ _ = Ok _ _ =>
      apply modify_sb_Ok in H; subst
  | arr_get _ _ _ = Ok _ _ =>
      apply arr_get_Ok in H; destruct H as (? & ? & ?); subst
  | arr_set _ _ _ _ = Ok _ _ =>
      apply arr_set_Ok in H; destruct H as (? & ? & ?); subst
  | (if ?c then _ else _) _ = Ok _ _ =>
      let E := fresh "E" in
      destruct c eqn:E; inv_ok H
  | (let '(_, _) := ?r in _) _ = Ok _ _ =>
      destruct r; inv_ok H
  | _ => idtac
  end.

Section Props.
Context {P : Params} {L : Lower}.

(** ** C10: the pointer [p_outVal] of the operations that free or clean *)

(** No handler stores through [p_outVal] for FREE, FREE_CLEAN and CLEAN. *)
Lemma soHandleDirect_no_store attach nInode inode clustInd op s r s' :
  op = FREE \/ op = FREE_CLEAN \/ op = CLEAN ->
  soHandleDirect attach nInode inode clustInd op None s = Ok r s' ->
  snd r = None.
Proof.
  intros Hop H. unfold soHandleDirect in H.
  destruct Hop as [-> | [-> | ->]]; cbn in H; inv_ok H; reflexivity.
Qed.

Lemma soHandleSIndirect_no_store attach nInode inode clustInd op s r s' :
  op = FREE \/ op = FREE_CLEAN \/ op = CLEAN ->
  soHandleSIndirect attach nInode inode clustInd op None s = Ok r s' ->
  snd r = None.
Proof.
  intros Hop H. unfold soHandleSIndirect in H.
  destruct Hop as [-> | [-> | ->]]; cbn in H; inv_ok H; reflexivity.
Qed.

Lemma soHandleDIndirect_no_store attach nInode inode clustInd op s r s' :
  op = FREE \/ op = FREE_CLEAN \/ op = CLEAN ->
  soHandleDIndirect attach nInode inode clustInd op None s = Ok r s' ->
  snd r = None.
Proof.
  intros Hop H. unfold soHandleDIndirect in H.
  destruct Hop as [-> | [-> | ->]]; cbn in H; inv_ok H; reflexivity.
Qed.

Lemma soHandleFileCluster_no_store nInode clustInd op p s v s' :
  op = FREE \/ op = FREE_CLEAN \/ op = CLEAN ->
  soHandleFileCluster nInode clustInd op p s = Ok v s' ->
  v = None.
Proof.
  intros Hop H.
  unfold soHandleFileCluster, soHandleFileCluster_body in H.
  assert (Hn : (if (op =? FREE) || (op =? FREE_CLEAN) || (op =? CLEAN)
                then None else p) = None).
  { destruct Hop as [-> | [-> | ->]]; reflexivity. }
  rewrite Hn in H. clear Hn.
  inv_ok H.
  all: repeat match goal with
       | H : soHandleDirect _ _ _ _ _ None _ = Ok _ _ |- _ =>
           apply (soHandleDirect_no_store _ _ _ _ _ _ _ _ Hop) in H
       | H : soHandleSIndirect _ _ _ _ _ None _ = Ok _ _ |- _ =>
           apply (soHandleSIndirect_no_store _ _ _ _ _ _ _ _ Hop) in H
       | H : soHandleDIndirect _ _ _ _ _ None _ = Ok _ _ |- _ =>
           apply (soHandleDIndirect_no_store _ _ _ _ _ _ _ _ Hop) in H
       end; simpl in *; congruence.
Qed.

(** C10. For FREE, FREE_CLEAN and CLEAN a call of [soHandleFileCluster]
    with a non-null [p_outVal] is the call with a null one: same status,
    same final state, and nothing is left in the variable of the caller.
    With a null [p_outVal], GET and ALLOC answer [-EINVAL] and change
    nothing. *)
Theorem C10_outval_ignored_when_freeing (nInode clustInd p : Z) (s : FS) :
  soHandleFileCluster nInode clustInd FREE (Some p) s
    = soHandleFileCluster nInode clustInd FREE None s
  /\ soHandleFileCluster nInode clustInd FREE_CLEAN (Some p) s
    = soHandleFileCluster nInode clustInd FREE_CLEAN None s
  /\ soHandleFileCluster nInode clustInd CLEAN (Some p) s
    = soHandleFileCluster nInode clustInd CLEAN None s
  /\ match soHandleFileCluster nInode clustInd FREE (Some p) s with
     | Ok v _ => v = None | _ => True end
  /\ match soHandleFileCluster nInode clustInd FREE_CLEAN (Some p) s with
     | Ok v _ => v = None | _ => True end
  /\ match soHandleFileCluster nInode clustInd CLEAN (Some p) s with
     | Ok v _ => v = None | _ => True end
  /\ soHandleFileCluster nInode clustInd GET None s = Err EINVAL s
  /\ soHandleFileCluster nInode clustInd ALLOC None s = Err EINVAL s.
Proof.
  repeat apply conj.
  - reflexivity.
  - reflexivity.
  - reflexivity.
  - destruct (soHandleFileCluster nInode clustInd FREE (Some p) s) eqn:H; trivial.
    eapply soHandleFileCluster_no_store; [| exact H]. auto.
  - destruct (soHandleFileCluster nInode clustInd FREE_CLEAN (Some p) s) eqn:H;
      trivial.
    eapply soHandleFileCluster_no_store; [| exact H]. auto.
  - destruct (soHandleFileCluster nInode clustInd CLEAN (Some p) s) eqn:H; trivial.
    eapply soHandleFileCluster_no_store; [| exact H]. auto.
  - unfold soHandleFileCluster, soHandleFileCluster_body, bind, fail_if.
    destruct (MAX_FILE_CLUSTERS <=? clustInd); reflexivity.
  - unfold soHandleFileCluster, soHandleFileCluster_body, bind, fail_if.
    destruct (MAX_FILE_CLUSTERS <=? clustInd); reflexivity.
Qed.

(** ** C8, C1: the last position of a file *)

(** C8, C1: at the last position of a file the attachment asks for the
    cluster of position [MAX_FILE_CLUSTERS], which [soHandleFileCluster]
    refuses: it never succeeds. *)
Lemma soAttachLogicalCluster_last_position nInode nLClust s u s' :
  0 < MAX_FILE_CLUSTERS < 4294967296 ->
  soAttachLogicalCluster nInode (MAX_FILE_CLUSTERS - 1) nLClust s <> Ok u s'.
Proof.
  intros Hmax H. unfold soAttachLogicalCluster in H.
  apply bind_Ok in H. destruct H as (? & ? & G1 & H). inv_ok G1.
  apply bind_Ok in H. destruct H as (? & ? & G2 & H). inv_ok G2.
  apply bind_Ok in H. destruct H as (? & ? & G3 & H). inv_ok G3.
  apply bind_Ok in H. destruct H as ([? ?] & ? & _ & H).
  apply bind_Ok in H. destruct H as ([? ?] & ? & G5 & _).
  replace (MAX_FILE_CLUSTERS - 1 =? MAX_FILE_CLUSTERS) with false in G5
    by (symmetry; apply Z.eqb_neq; lia).
  cbn [negb] in G5.
  apply bind_Ok in G5. destruct G5 as (? & ? & G6 & _).
  unfold soHandleFileCluster_get, soHandleFileCluster_body in G6.
  apply bind_Ok in G6. destruct G6 as (? & ? & G7 & _).
  apply fail_if_Ok in G7. destruct G7 as [G7 _].
  replace (MAX_FILE_CLUSTERS - 1 + 1) with MAX_FILE_CLUSTERS in G7 by lia.
  unfold wrap32 in G7. rewrite Z.mod_small in G7 by lia.
  apply Z.leb_gt in G7. lia.
Qed.

(** An allocation goes through the attachment. *)
Lemma soHandleDirect_alloc attach nInode inode clustInd p s r s' :
  (forall c s0 u s1, attach nInode clustInd c s0 <> Ok u s1) ->
  soHandleDirect attach nInode inode clustInd ALLOC p s <> Ok r s'.
Proof.
  intros Ha H. unfold soHandleDirect in H.
  change (ALLOC =? GET) with false in H.
  change (ALLOC =? ALLOC) with true in H. cbn iota in H.
  inv_ok H. eapply Ha; eassumption.
Qed.

Lemma soHandleSIndirect_alloc attach nInode inode clustInd p s r s' :
  (forall c s0 u s1, attach nInode clustInd c s0 <> Ok u s1) ->
  soHandleSIndirect attach nInode inode clustInd ALLOC p s <> Ok r s'.
Proof.
  intros Ha H. unfold soHandleSIndirect in H.
  change (ALLOC =? GET) with false in H.
  change (ALLOC =? ALLOC) with true in H. cbn iota in H.
  inv_ok H; eapply Ha; eassumption.
Qed.

Lemma soHandleDIndirect_alloc attach nInode inode clustInd p s r s' :
  (forall c s0 u s1, attach nInode clustInd c s0 <> Ok u s1) ->
  soHandleDIndirect attach nInode inode clustInd ALLOC p s <> Ok r s'.
Proof.
  intros Ha H. unfold soHandleDIndirect in H.
  change (ALLOC =? GET) with false in H.
  change (ALLOC =? ALLOC) with true in H. cbn iota in H.
  inv_ok H; eapply Ha; eassumption.
Qed.

(** C1: no cluster is ever allocated at the last position of a file. *)
Lemma soHandleFileCluster_alloc_last_position nInode p s r s' :
  0 <= N_DIRECT -> 0 <= RPC -> 0 < MAX_FILE_CLUSTERS < 4294967296 ->
  soHandleFileCluster nInode (MAX_FILE_CLUSTERS - 1) ALLOC p s <> Ok r s'.
Proof.
  intros Hd Hr Hmax H.
  assert (Ha : forall c s0 u s1,
             soAttachLogicalCluster nInode (MAX_FILE_CLUSTERS - 1) c s0
             <> Ok u s1)
    by (intros; apply soAttachLogicalCluster_last_position; exact Hmax).
  unfold soHandleFileCluster, soHandleFileCluster_body in H.
  apply bind_Ok in H. destruct H as (? & ? & _ & H).
  apply bind_Ok in H. destruct H as (? & ? & _ & H).
  apply bind_Ok in H. destruct H as (? & ? & _ & H).
  apply bind_Ok in H. destruct H as (? & ? & _ & H).
  apply bind_Ok in H. destruct H as (? & ? & _ & H).
  apply bind_Ok in H. destruct H as (? & ? & _ & H).
  apply bind_Ok in H. destruct H as (? & ? & _ & H).
  apply bind_Ok in H. destruct H as (? & ? & G1 & H).
  apply bind_Ok in H. destruct H as (? & ? & G2 & H).
  apply bind_Ok in H. destruct H as (? & ? & G3 & _).
  destruct (MAX_FILE_CLUSTERS - 1 <? N_DIRECT) eqn:E1.
  { eapply soHandleDirect_alloc; eassumption. }
  destruct ((N_DIRECT <=? MAX_FILE_CLUSTERS - 1)
            && (MAX_FILE_CLUSTERS - 1 <? N_DIRECT + RPC)) eqn:E2.
  { eapply soHandleSIndirect_alloc; eassumption. }
  destruct (N_DIRECT + RPC <=? MAX_FILE_CLUSTERS - 1) eqn:E3.
  { eapply soHandleDIndirect_alloc; eassumption. }
  apply Z.ltb_ge in E1. apply Z.leb_gt in E3.
  apply andb_false_iff in E2. destruct E2 as [E2 | E2];
    [apply Z.leb_gt in E2 | apply Z.ltb_ge in E2]; lia.
Qed.

(** ** C6: access rights *)

Lemma need_Ok opRequested op md bit s u s' :
  need opRequested op md bit s = Ok u s' ->
  (Z.land opRequested op <> 0 -> Z.land md bit = bit) /\ s' = s.
Proof.
  unfold need. intros H.
  destruct (Z.land opRequested op =? 0) eqn:E; cbn in H.
  - apply ret_Ok in H. destruct H as [_ ->]. split; [lia | reflexivity].
  - apply fail_if_Ok in H. destruct H as [H ->]. split; [| reflexivity].
    intros _. apply negb_false_iff in H. lia.
Qed.

Lemma need_cases opRequested op md bit s :
  (need opRequested op md bit s = Ok tt s
   /\ (Z.land opRequested op <> 0 -> Z.land md bit = bit))
  \/ (need opRequested op md bit s = Err EACCES s
      /\ Z.land opRequested op <> 0 /\ Z.land md bit <> bit).
Proof.
  unfold need, fail_if.
  destruct (Z.land opRequested op =? 0) eqn:E; cbn.
  - left. split; [reflexivity | lia].
  - destruct (Z.land md bit =? bit) eqn:E'; cbn.
    + left. split; [reflexivity | lia].
    + right. repeat split; lia.
Qed.

(** The three tests made for a class. *)
Lemma needs_spec c opRequested md s :
  let m := need opRequested R md (rd_bit c) ;;;
           need opRequested W md (wr_bit c) ;;;
           need opRequested X md (ex_bit c) in
  (m s = Ok tt s /\ permits c md opRequested)
  \/ (m s = Err EACCES s /\ ~ permits c md opRequested).
Proof.
  intros m. subst m. unfold permits.
  destruct (need_cases opRequested R md (rd_bit c) s) as [[H1 P1] | [H1 [N1 N1']]].
  2: { right. split; [apply (bind_Err_intro _ _ _ _ _ H1) | tauto]. }
  rewrite (bind_Ok_intro _ _ _ _ _ H1).
  destruct (need_cases opRequested W md (wr_bit c) s) as [[H2 P2] | [H2 [N2 N2']]].
  2: { right. split; [apply (bind_Err_intro _ _ _ _ _ H2) | tauto]. }
  rewrite (bind_Ok_intro _ _ _ _ _ H2).
  destruct (need_cases opRequested X md (ex_bit c) s) as [[H3 P3] | [H3 [N3 N3']]].
  2: { right. split; [exact H3 | tauto]. }
  left. split; [exact H3 | tauto].
Qed.

Lemma soReadInode_inv nInode status s inode s1 :
  soReadInode nInode status s = Ok inode s1 ->
  (iTotal (sb s) <=? nInode) = false
  /\ uid s1 = uid s /\ gid s1 = gid s /\ euid s1 = euid s.
Proof.
  intros H. unfold soReadInode in H. inv_ok H; cbn; auto.
Qed.

(** C6, amended.  For an inode in use and a request [op] between 1 and 7:
    when the effective user is root, a request without X is granted and a
    request with X is granted iff some execution permission is set; for
    another effective user, the class is the owner's if the real user
    identifier is the owner of the inode, else the group's if the real
    group identifier is its group, else that of the others, and the request
    is granted iff every operation requested is permitted to that class.
    A request that is not granted is answered with [-EACCES]. *)
Theorem C6_access_by_real_ids (s : FS) (nInode op : Z) (inode : SOInode)
    (s1 : FS) :
  1 <= op <= 7 ->
  soReadInode nInode IUIN s = Ok inode s1 ->
  (soAccessGranted nInode op s = Ok tt s1
   \/ soAccessGranted nInode op s = Err EACCES s1)
  /\ (euid s = 0 -> Z.land op X = 0 -> soAccessGranted nInode op s = Ok tt s1)
  /\ (euid s = 0 -> Z.land op X <> 0 ->
      (soAccessGranted nInode op s = Ok tt s1 <-> any_exec (mode inode)))
  /\ (euid s <> 0 ->
      (soAccessGranted nInode op s = Ok tt s1
       <-> permits (class_of s inode) (mode inode) op)).
Proof.
  intros Hop Hrd.
  pose proof (soReadInode_inv _ _ _ _ _ Hrd) as (Hn & _).
  assert (Hstart : soAccessGranted nInode op s =
    (if euid s =? 0 then
       (if negb (Z.land op X =? 0) then
          fail_if (Z.land (mode inode)
                     (Z.lor (Z.lor INODE_EX_USR INODE_EX_GRP) INODE_EX_OTH) =? 0)
                  EACCES
        else ret tt)
     else
       (if uid s =? owner inode then
          need op R (mode inode) INODE_RD_USR ;;;
          need op W (mode inode) INODE_WR_USR ;;;
          need op X (mode inode) INODE_EX_USR
        else if gid s =? group inode then
          need op R (mode inode) INODE_RD_GRP ;;;
          need op W (mode inode) INODE_WR_GRP ;;;
          need op X (mode inode) INODE_EX_GRP
        else
          need op R (mode inode) INODE_RD_OTH ;;;
          need op W (mode inode) INODE_WR_OTH ;;;
          need op X (mode inode) INODE_EX_OTH) ;;;
       soStoreBlockInT) s1).
  { unfold soAccessGranted.
    unfold bind at 1. cbn [get].
    assert (E : (op <? 1) || (7 <? op) = false).
    { apply orb_false_iff. split; lia. }
    rewrite E. cbn [fail_if].
    unfold bind at 1. cbn [ret].
    unfold bind at 1. cbn [soLoadSuperBlock ret].
    unfold bind at 1. cbn [soGetSuperBlock].
    rewrite Hn. cbn [fail_if].
    unfold bind at 1. cbn [ret].
    unfold bind at 1. rewrite Hrd. reflexivity. }
  rewrite Hstart. clear Hstart.
  destruct (euid s =? 0) eqn:Eroot.
  - (* root *)
    assert (Hr : euid s = 0) by lia.
    destruct (Z.land op X =? 0) eqn:EX; cbn [negb].
    + repeat apply conj; intros; try lia; auto.
    + unfold any_exec, fail_if.
      destruct (Z.land (mode inode)
                  (Z.lor (Z.lor INODE_EX_USR INODE_EX_GRP) INODE_EX_OTH) =? 0)
        eqn:Eany.
      * repeat apply conj; intros; try lia; auto.
        split; [discriminate | intros; lia].
      * repeat apply conj; intros; try lia; auto.
        split; [intros; lia | reflexivity].
  - (* an ordinary user *)
    assert (Hr : euid s <> 0) by lia.
    assert (Hcls :
      forall c, let m := need op R (mode inode) (rd_bit c) ;;;
                         need op W (mode inode) (wr_bit c) ;;;
                         need op X (mode inode) (ex_bit c) in
      ((m ;;; soStoreBlockInT) s1 = Ok tt s1
       \/ (m ;;; soStoreBlockInT) s1 = Err EACCES s1)
      /\ ((m ;;; soStoreBlockInT) s1 = Ok tt s1
          <-> permits c (mode inode) op)).
    { intros c m.
      destruct (needs_spec c op (mode inode) s1) as [[Hm Hp] | [Hm Hp]];
        fold m in Hm.
      - rewrite (bind_Ok_intro _ _ _ _ _ Hm). split; [left; reflexivity |].
        split; auto.
      - rewrite (bind_Err_intro _ _ _ _ _ Hm). split; [right; reflexivity |].
        split; [discriminate | tauto]. }
    unfold class_of.
    destruct (uid s =? owner inode); [| destruct (gid s =? group inode)].
    + destruct (Hcls Usr) as [H1 H2]. cbn in H1, H2.
      repeat apply conj; intros; try lia; auto.
    + destruct (Hcls Grp) as [H1 H2]. cbn in H1, H2.
      repeat apply conj; intros; try lia; auto.
    + destruct (Hcls Oth) as [H1 H2]. cbn in H1, H2.
      repeat apply conj; intros; try lia; auto.
Qed.

(** ** C9: the index answered by a lookup that fails *)

Lemma first_index_app {A} (f : A -> bool) (l1 l2 : list A) :
  first_index f (l1 ++ l2)
  = match first_index f l1 with
    | Some i => Some i
    | None => (fun i => (length l1 + i)%nat) <$> first_index f l2
    end.
Proof.
  induction l1 as [| e l1 IH]; cbn.
  - destruct (first_index f l2); reflexivity.
  - destruct (f e); [reflexivity |]. rewrite IH.
    destruct (first_index f l1); [reflexivity |].
    destruct (first_index f l2); reflexivity.
Qed.

Lemma scan_cluster_spec eName pe p_idx c de :
  0 <= MAX_NAME ->
  forall k j a s,
    length (drop j de) = k ->
    forallb (fun e => (length (name e) =? Z.to_nat (MAX_NAME + 1))%nat
                      && negb (strcmp0 (name e) eName)) (drop j de) = true ->
    scan_cluster k (Z.of_nat j) c de eName pe p_idx a s
    = Ok (scan_after a p_idx
            ((fun i => c * DPC + Z.of_nat (j + i))
               <$> first_index looks_free (drop j de))) s.
Proof.
  intros HM. induction k as [| k IH]; intros j a s Hlen Hall.
  - apply length_zero_iff_nil in Hlen. rewrite Hlen. cbn.
    unfold scan_after. destruct (sc_flag a =? 0); reflexivity.
  - destruct (drop j de) as [| e rest] eqn:Hd; [discriminate |].
    assert (Hj : de !! j = Some e).
    { rewrite <- (Nat.add_0_r j), <- lookup_drop, Hd. reflexivity. }
    assert (Hrest : drop (S j) de = rest).
    { rewrite <- Nat.add_1_r, <- drop_drop, Hd. reflexivity. }
    cbn in Hall. apply andb_true_iff in Hall. destruct Hall as [He Hall].
    apply andb_true_iff in He. destruct He as [Hnl Hnm].
    apply Nat.eqb_eq in Hnl. apply negb_true_iff in Hnm.
    cbn [scan_cluster].
    assert (Hg : arr_get de (Z.of_nat j) s = Ok e s).
    { unfold arr_get. rewrite Nat2Z.id, Hj.
      rewrite (proj2 (Z.leb_le 0 (Z.of_nat j))) by lia. reflexivity. }
    rewrite (bind_Ok_intro _ _ _ _ _ Hg). rewrite Hnm.
    destruct (lookup_lt_is_Some_2 (name e) 0) as [n0 Hn0]; [lia |].
    destruct (lookup_lt_is_Some_2 (name e) (Z.to_nat MAX_NAME)) as [nM HnM];
      [lia |].
    assert (Hg0 : forall s, arr_get (name e) 0 s = Ok n0 s).
    { intros s0. unfold arr_get. change (0 <=? 0) with true.
      change (Z.to_nat 0) with 0%nat. cbv iota. rewrite Hn0. reflexivity. }
    assert (HgM : forall s, arr_get (name e) MAX_NAME s = Ok nM s).
    { intros s0. unfold arr_get. rewrite HnM.
      rewrite (proj2 (Z.leb_le 0 MAX_NAME)) by lia. reflexivity. }
    rewrite (bind_Ok_intro _ _ _ _ _ (Hg0 s)).
    rewrite (bind_Ok_intro _ _ _ _ _ (HgM s)).
    replace (Z.of_nat j + 1) with (Z.of_nat (S j)) by lia.
    rewrite IH; [| rewrite Hrest; cbn in Hlen; lia | rewrite Hrest; exact Hall].
    rewrite Hrest. f_equal.
    cbn [first_index]. unfold looks_free at 2. rewrite Hn0, HnM.
    unfold scan_after.
    destruct ((n0 =? 0) && (nM =? 0)) eqn:Ef.
    + destruct (sc_flag a =? 0) eqn:Efl; cbn.
      * rewrite Nat.add_0_r. reflexivity.
      * rewrite Efl. reflexivity.
    + cbn. destruct (sc_flag a =? 0) eqn:Efl; [| reflexivity].
      destruct (first_index looks_free rest); cbn; [| reflexivity].
      do 3 f_equal. lia.
Qed.

Lemma scan_after_found a p i : sc_found a = false -> sc_found (scan_after a p i) = false.
Proof.
  intros H. unfold scan_after. destruct (sc_flag a =? 0); [| exact H].
  destruct i; [reflexivity | exact H].
Qed.

Lemma scan_dir_spec nInodeDir eName pe p_idx :
  0 <= MAX_NAME -> 0 <= DPC ->
  forall k c a s des s3,
    sc_found a = false ->
    dir_clusters k c nInodeDir s = Ok des s3 ->
    no_match eName des = true ->
    scan_dir k c nInodeDir eName pe p_idx a s
    = Ok (scan_after a p_idx
            ((fun i => c * DPC + Z.of_nat i)
               <$> first_index looks_free (concat des))) s3.
Proof.
  intros HM HD. induction k as [| k IH]; intros c a s des s3 Hf Hd Hn.
  - cbn in Hd. apply ret_Ok in Hd. destruct Hd as [<- <-]. cbn.
    unfold scan_after. destruct (sc_flag a =? 0); reflexivity.
  - cbn [dir_clusters] in Hd. inv_ok Hd.
    cbn [scan_dir].
    rewrite (bind_Ok_intro _ _ _ _ _ H).
    rewrite (bind_Ok_intro _ _ _ _ _ H1).
    cbn in Hn. apply andb_true_iff in Hn. destruct Hn as [Hn1 Hn].
    apply andb_true_iff in Hn1. destruct Hn1 as [Hl Hn1].
    apply Nat.eqb_eq in Hl.
    pose proof (scan_cluster_spec eName pe p_idx c a1 HM (Z.to_nat DPC) 0%nat a
                  s1) as Hsc.
    change (drop 0 a1) with a1 in Hsc. change (Z.of_nat 0) with 0 in Hsc.
    cbn [Nat.add] in Hsc.
    rewrite (bind_Ok_intro _ _ _ _ _ (Hsc Hl Hn1)).
    rewrite scan_after_found by exact Hf.
    rewrite (IH _ _ _ _ _ (scan_after_found _ _ _ Hf) H0 Hn).
    f_equal. cbn [concat]. rewrite first_index_app.
    unfold scan_after.
    destruct (sc_flag a =? 0) eqn:Efl.
    + destruct (first_index looks_free a1) as [i |]; cbn.
      * reflexivity.
      * rewrite Efl.
        destruct (first_index looks_free (concat a2)); cbn; [| reflexivity].
        do 3 f_equal. rewrite Hl. lia.
    + rewrite Efl. reflexivity.
Qed.

(** C9, amended.  For a directory, a valid base name that is the name of
    none of its entries, and a non-null [p_idx]: [soGetDirEntryByName]
    answers [-ENOENT], stores nothing in [*p_nInodeEnt], and stores in
    [*p_idx] the index of the first entry, in ascending order, whose name
    has a NUL first byte and a NUL last byte -- the inode field of the
    entry is not examined -- or, when there is none, [cluCount * DPC]. *)
Theorem C9_index_of_first_free_looking_entry (s : FS) (nInodeDir : Z)
    (eName : list Z) (pe : option Z) (pi : Z) (inode : SOInode)
    (s1 s2 s3 : FS) (des : list (list SODirEntry)) :
  0 <= MAX_NAME -> 0 <= DPC ->
  strlen eName <> 0 -> strlen eName <= MAX_NAME -> strchr eName slash = false ->
  soReadInode nInodeDir IUIN s = Ok inode s1 ->
  Z.land (mode inode) INODE_TYPE_MASK = INODE_DIR ->
  soQCheckDirCont s1 inode = None ->
  soAccessGranted nInodeDir X s1 = Ok tt s2 ->
  dir_clusters (Z.to_nat (size inode / (DPC * SIZEOF_DIRENTRY))) 0 nInodeDir s2
    = Ok des s3 ->
  no_match eName des = true ->
  soGetDirEntryByName nInodeDir eName pe (Some pi) s
  = Ok (mkLookup (Some ENOENT) None
          (Some (match first_index looks_free (concat des) with
                 | Some i => wrap32 (Z.of_nat i)
                 | None => wrap32 (cluCount inode * DPC)
                 end))) s3.
Proof.
  intros HM HD Hl0 HlM Hsl Hrd Hdir Hchk Hacc Hcl Hno.
  pose proof (soReadInode_inv _ _ _ _ _ Hrd) as (Hn & _).
  unfold soGetDirEntryByName.
  unfold bind at 1. cbn [soLoadSuperBlock ret].
  unfold bind at 1. cbn [soGetSuperBlock].
  assert (E1 : (strlen eName =? 0) || (iTotal (sb s) <=? nInodeDir)
               || strchr eName slash = false).
  { rewrite Hn, Hsl. destruct (strlen eName =? 0) eqn:E; [lia | reflexivity]. }
  rewrite E1. cbn [fail_if].
  unfold bind at 1. cbn [ret].
  assert (E2 : (MAX_NAME <? strlen eName) = false) by lia.
  rewrite E2. cbn [fail_if].
  unfold bind at 1. cbn [ret].
  rewrite (bind_Ok_intro _ _ _ _ _ Hrd).
  rewrite Hdir, Z.eqb_refl. cbn [negb fail_if].
  unfold bind at 1. cbn [ret].
  unfold bind at 1. cbn [get].
  rewrite Hchk. cbn [check].
  unfold bind at 1. cbn [ret].
  rewrite (bind_Ok_intro _ _ _ _ _ Hacc).
  rewrite (bind_Ok_intro _ _ _ _ _
             (scan_dir_spec nInodeDir eName pe (Some pi) HM HD _ 0
                (mkScan false 0 None None) s2 des s3 eq_refl Hcl Hno)).
  unfold scan_after. cbn.
  destruct (first_index looks_free (concat des)) as [i |]; cbn.
  - reflexivity.
  - reflexivity.
Qed.

(** ** C2, C5: the free data clusters *)

(** *** Chains and arrays *)

Lemma phys_ext b b' c : dZoneStart b' = dZoneStart b -> phys b' c = phys b c.
Proof. unfold phys. intros ->. reflexivity. Qed.

Lemma phys_in_range b c :
  geometry_ok b -> in_zone b c ->
  phys b c = dZoneStart b + c * BLOCKS_PER_CLUSTER.
Proof.
  intros (HB & _ & HS & _ & HT) Hc. unfold phys, wrap32, in_zone in *.
  apply Z.mod_small. nia.
Qed.

Lemma phys_inj b c1 c2 :
  geometry_ok b -> in_zone b c1 -> in_zone b c2 ->
  phys b c1 = phys b c2 -> c1 = c2.
Proof.
  intros Hg H1 H2. rewrite !phys_in_range by assumption.
  destruct Hg as (HB & _). unfold in_zone in *. nia.
Qed.

Lemma chain_ext b b' d d' h l :
  dZoneStart b' = dZoneStart b ->
  (forall c dc, c ∈ l -> d !! phys b c = Some dc ->
                exists dc', d' !! phys b c = Some dc' /\ next dc' = next dc) ->
  chain b d h l -> chain b' d' h l.
Proof.
  intros Hb Hd Hc. induction Hc as [| c dc l Hn Hl Hc IH].
  - constructor.
  - destruct (Hd c dc) as (dc' & Hl' & Hnx); [left | exact Hl |].
    econstructor; [exact Hn | rewrite (phys_ext _ _ _ Hb); exact Hl' |].
    rewrite Hnx. apply IH. intros c0 dc0 Hin. apply Hd. right. exact Hin.
Qed.

Lemma chain_head b d h l : chain b d h l -> h = hd NULL_CLUSTER l.
Proof. intros [| c dc l' ? ? ?]; reflexivity. Qed.

Lemma chain_nil_inv b d h : chain b d h [] -> h = NULL_CLUSTER.
Proof. inversion 1. reflexivity. Qed.

Lemma chain_null_inv b d l : chain b d NULL_CLUSTER l -> l = [].
Proof. inversion 1; [reflexivity | congruence]. Qed.

Lemma tail_of_in l : l <> [] -> tail_of l ∈ l.
Proof.
  intros Hne. unfold tail_of. destruct (last l) as [x |] eqn:E.
  - apply last_Some_elem_of in E. exact E.
  - apply last_None in E. contradiction.
Qed.

Lemma tail_of_cons c c' l : tail_of (c :: c' :: l) = tail_of (c' :: l).
Proof. unfold tail_of. rewrite last_cons_cons. reflexivity. Qed.

Lemma tail_of_app l cs : cs <> [] -> tail_of (l ++ cs) = tail_of cs.
Proof.
  intros Hne. unfold tail_of. rewrite last_app.
  destruct (last cs) eqn:E; [reflexivity |].
  apply last_None in E. contradiction.
Qed.

Lemma tail_of_drop n l : (n < length l)%nat -> tail_of (drop n l) = tail_of l.
Proof.
  intros Hn. rewrite <- (take_drop n l) at 2. symmetry. apply tail_of_app.
  intros E. apply (f_equal length) in E. rewrite length_drop in E. cbn in E. lia.
Qed.

Lemma tail_of_lookup l x :
  l !! pred (length l) = Some x -> tail_of l = x.
Proof. intros H. unfold tail_of. rewrite last_lookup, H. reflexivity. Qed.

(** Linking a chain behind the last cluster of another one. *)
Lemma chain_link b d d' h l c0 cs :
  NoDup l -> l <> [] ->
  (forall c dc, c ∈ l -> c <> tail_of l ->
                d !! phys b c = Some dc ->
                exists dc', d' !! phys b c = Some dc' /\ next dc' = next dc) ->
  (exists dc', d' !! phys b (tail_of l) = Some dc' /\ next dc' = c0) ->
  chain b d' c0 cs ->
  chain b d h l -> chain b d' h (l ++ cs).
Proof.
  intros Hnd Hne Hd Hlast Hcs Hc.
  induction Hc as [| c dc l Hn Hl Hc IH]; [congruence |].
  destruct l as [| c' l'].
  - cbn in *. destruct Hlast as (dc' & Hl' & Hnx).
    econstructor; [exact Hn | exact Hl' |]. rewrite Hnx. exact Hcs.
  - apply NoDup_cons in Hnd. destruct Hnd as [Hnin Hnd].
    rewrite tail_of_cons in *.
    assert (Hin : tail_of (c' :: l') ∈ c' :: l') by (apply tail_of_in; discriminate).
    destruct (Hd c dc) as (dc' & Hl' & Hnx); [left | | exact Hl |].
    { intros ->. contradiction. }
    cbn [app]. econstructor; [exact Hn | exact Hl' |].
    rewrite Hnx. apply IH; try assumption; [discriminate |].
    intros c0' dc0 Hin0 Hne0. apply Hd; [right; exact Hin0 | exact Hne0].
Qed.

Lemma fill_nil n l : fill n [] l = l.
Proof. unfold fill. cbn. rewrite Nat.add_0_r. apply take_drop. Qed.

Lemma fill_cons n c vs l :
  (n < length l)%nat -> fill (S n) vs (<[n := c]> l) = fill n (c :: vs) l.
Proof.
  intros Hn. unfold fill.
  rewrite (take_S_r _ _ c) by (apply list_lookup_insert_eq; exact Hn).
  rewrite take_insert_ge by lia.
  rewrite drop_insert_lt by lia.
  rewrite <- app_assoc. cbn. repeat f_equal. lia.
Qed.

Lemma length_fill n vs l :
  (n + length vs <= length l)%nat -> length (fill n vs l) = length l.
Proof.
  intros H. unfold fill. rewrite !length_app, length_take, length_drop. lia.
Qed.

Lemma drop_fill n vs l :
  (n <= length l)%nat -> drop n (fill n vs l) = vs ++ drop (n + length vs) l.
Proof.
  intros H. unfold fill. rewrite drop_app_length'; [reflexivity |].
  rewrite length_take. lia.
Qed.

Lemma fill_fill n vs ws l :
  (n + length vs <= length l)%nat ->
  fill (n + length vs) ws (fill n vs l) = fill n (vs ++ ws) l.
Proof.
  intros H. unfold fill at 1.
  assert (Ht : take (n + length vs) (fill n vs l) = take n l ++ vs).
  { unfold fill. rewrite app_assoc. apply take_app_length'.
    rewrite length_app, length_take. lia. }
  assert (Hd : drop (n + length vs + length ws) (fill n vs l)
               = drop (n + length vs + length ws) l).
  { unfold fill. rewrite app_assoc, drop_app_ge;
      rewrite length_app, length_take; [| lia].
    rewrite drop_drop. f_equal. lia. }
  rewrite Ht, Hd. unfold fill. rewrite length_app, <- !app_assoc.
  rewrite Nat.add_assoc. reflexivity.
Qed.

(** *** [soDeplete] *)

Lemma wrap32_small z : 0 <= z < 4294967296 -> wrap32 z = z.
Proof. intros H. unfold wrap32. apply Z.mod_small. exact H. Qed.

Lemma range_not_null b c :
  geometry_ok b -> in_zone b c -> c <> NULL_CLUSTER.
Proof. intros (_ & _ & _ & H & _) Hc. unfold in_zone in Hc. lia. Qed.

(** One round of the loop of [soDeplete] writes one cluster. *)
Lemma deplete_body_spec i s s' :
  0 <= i < cacheIdx (dZoneInsert (sb s)) ->
  cacheIdx (dZoneInsert (sb s)) < 4294967296 ->
  deplete_body i s = Ok tt s' ->
  exists c dc dc',
    cache (dZoneInsert (sb s)) !! Z.to_nat i = Some c
    /\ dzone s !! phys (sb s) c = Some dc
    /\ s' = set_dzone (<[phys (sb s) c := dc']> (dzone s)) s
    /\ (i + 1 = cacheIdx (dZoneInsert (sb s)) -> next dc' = NULL_CLUSTER)
    /\ (i + 1 <> cacheIdx (dZoneInsert (sb s)) ->
        cache (dZoneInsert (sb s)) !! Z.to_nat (i + 1) = Some (next dc')).
Proof.
  intros Hi Hk H. unfold deplete_body in H.
  assert (Hw : wrap32 (cacheIdx (dZoneInsert (sb s)) - 1)
               = cacheIdx (dZoneInsert (sb s)) - 1)
    by (apply wrap32_small; lia).
  inv_ok H; cbn in *; rewrite ?Hw in *; clear Hw;
    repeat match goal with
           | E : (_ =? _) = true |- _ => apply Z.eqb_eq in E
           | E : (_ =? _) = false |- _ => apply Z.eqb_neq in E
           | E : negb _ = true |- _ => apply negb_true_iff in E
           | E : negb _ = false |- _ => apply negb_false_iff in E
           end;
    repeat match goal with
           | E : ?i = ?k - 1 |- _ =>
               assert (i + 1 = k) by lia; rewrite <- E in *; clear E
           end; subst;
    repeat match goal with
           | H1 : ?l !! ?n = Some ?x, H2 : ?l !! ?n = Some ?y |- _ =>
               assert (x = y) by congruence; subst y; clear H2
           end.
  all: match goal with
       | H : <[?k := ?v]> _ !! ?k = Some ?x |- _ =>
           rewrite lookup_insert_eq in H; injection H as ?; subst x
       | _ => idtac
       end.
  all: eexists _, _, _; split; [eassumption |]; split; [eassumption |];
    split; [unfold set_dzone; cbn; rewrite insert_insert_eq; reflexivity |];
    cbn; split; intros; try lia; try assumption; reflexivity.
Qed.

Lemma drop_cons_inv {A} (l : list A) n x rest :
  drop n l = x :: rest -> l !! n = Some x /\ drop (S n) l = rest.
Proof.
  intros Hd. split.
  - rewrite <- (Nat.add_0_r n), <- lookup_drop, Hd. reflexivity.
  - rewrite <- Nat.add_1_r, <- drop_drop, Hd. reflexivity.
Qed.

Lemma phys_not_in b c rest :
  geometry_ok b -> in_zone b c ->
  Forall (in_zone b) rest ->
  c ∉ rest -> phys b c ∉ (phys b <$> rest).
Proof.
  intros Hg Hc Hr Hn Hin. apply list_elem_of_fmap in Hin.
  destruct Hin as (x & Hx & Hin). apply Hn.
  rewrite Forall_forall in Hr.
  rewrite (phys_inj b c x Hg Hc (Hr x Hin) Hx). exact Hin.
Qed.

(** The loop of [soDeplete] chains the references of the insertion cache. *)
Lemma deplete_loop_spec (rest : list Z) :
  forall i s s',
    geometry_ok (sb s) ->
    0 <= i ->
    i + Z.of_nat (length rest) = cacheIdx (dZoneInsert (sb s)) ->
    cacheIdx (dZoneInsert (sb s)) < 4294967296 ->
    drop (Z.to_nat i) (inserted (sb s)) = rest ->
    NoDup rest ->
    Forall (in_zone (sb s)) rest ->
    for_range i (length rest) deplete_body s = Ok tt s' ->
    sb s' = sb s
    /\ chain (sb s) (dzone s') (hd NULL_CLUSTER rest) rest
    /\ (forall a, a ∉ (phys (sb s) <$> rest) -> dzone s' !! a = dzone s !! a).
Proof.
  induction rest as [| c rest IH]; intros i s s' Hg Hi Hlen Hk Hd Hnd Hr H.
  - cbn in H. inv_ok H. split; [reflexivity |]. split; [constructor |].
    intros; reflexivity.
  - cbn [length for_range] in H. inv_ok H. destruct a.
    cbn [length] in Hlen. rewrite Nat2Z.inj_succ in Hlen.
    apply deplete_body_spec in H0; [| lia | lia].
    destruct H0 as (c1 & dc & dc' & Hc1 & Hdc & -> & Hnx1 & Hnx2).
    apply drop_cons_inv in Hd. destruct Hd as [Hc Hd].
    unfold inserted in Hc. apply lookup_take_Some in Hc. destruct Hc as [Hc _].
    assert (c1 = c) by congruence. subst c1.
    apply NoDup_cons in Hnd. destruct Hnd as [Hnin Hnd].
    apply Forall_cons in Hr. destruct Hr as [Hrc Hr].
    apply IH in H1; cbn [sb set_dzone dzone]; try assumption; try lia.
    2:{ replace (Z.to_nat (i + 1)) with (S (Z.to_nat i)) by lia. exact Hd. }
    cbn [sb set_dzone dzone] in H1. destruct H1 as (Hsb & Hch & Hfr).
    split; [exact Hsb |]. split.
    + cbn [hd]. econstructor.
      * eapply range_not_null; eassumption.
      * rewrite Hfr by (apply phys_not_in; assumption).
        apply lookup_insert_eq.
      * destruct rest as [| c' rest'].
        -- rewrite Hnx1 by (cbn in Hlen; lia). exact Hch.
        -- assert (Hn : i + 1 <> cacheIdx (dZoneInsert (sb s)))
             by (cbn [length] in Hlen; lia).
           specialize (Hnx2 Hn).
           assert (Hc' : inserted (sb s) !! S (Z.to_nat i) = Some c').
           { rewrite <- (Nat.add_0_r (S _)), <- lookup_drop, Hd. reflexivity. }
           unfold inserted in Hc'. apply lookup_take_Some in Hc'.
           destruct Hc' as [Hc' _].
           replace (Z.to_nat (i + 1)) with (S (Z.to_nat i)) in Hnx2 by lia.
           assert (next dc' = c') by congruence.
           cbn [hd] in Hch. congruence.
    + intros a Ha. rewrite fmap_cons in Ha. apply not_elem_of_cons in Ha.
      destruct Ha as [Ha1 Ha2]. rewrite Hfr by exact Ha2.
      apply lookup_insert_ne. congruence.
Qed.

(** The last loop of [soDeplete] only rewrites the slots of the insertion
    cache. *)
Lemma clear_loop_spec (n : nat) :
  forall lo s s',
    for_range lo n
      (fun i =>
         b <- soGetSuperBlock ;;
         c' <- arr_set (cache (dZoneInsert b)) i NULL_CLUSTER ;;
         modify_sb (set_dZoneInsert (set_cache c' (dZoneInsert b)))) s
    = Ok tt s' ->
    exists cch,
      s' = set_sb (set_dZoneInsert
                     (mkCache (cacheIdx (dZoneInsert (sb s))) cch) (sb s)) s
      /\ length cch = length (cache (dZoneInsert (sb s))).
Proof.
  induction n as [| n IH]; intros lo s s' H.
  - cbn in H. inv_ok H. exists (cache (dZoneInsert (sb s'))).
    split; [| reflexivity].
    destruct s' as [b ? ? ? ? ? ? ?].
    destruct b as [? ? ? ? ? ? ? ? ? ? ? ? ? ? ? ? ? ins]. cbn.
    destruct ins. reflexivity.
  - cbn [for_range] in H. inv_ok H. destruct a.
    apply IH in H1. destruct H1 as (cch & -> & Hlen). cbn in *.
    exists cch. split; [reflexivity |].
    rewrite Hlen. apply length_insert.
Qed.

Lemma soDeplete_spec s s' l :
  geometry_ok (sb s) -> cache_ok (dZoneInsert (sb s)) ->
  chain (sb s) (dzone s) (dHead (sb s)) l ->
  dTail (sb s) = tail_of l ->
  NoDup (l ++ inserted (sb s)) ->
  Forall (in_zone (sb s)) (l ++ inserted (sb s)) ->
  soDeplete s = Ok tt s' ->
  exists cch h,
    sb s' = set_dZoneInsert (mkCache 0 cch)
              (set_dHead h
                 (set_dTail (tail_of (l ++ inserted (sb s))) (sb s)))
    /\ length cch = length (cache (dZoneInsert (sb s)))
    /\ inserted (sb s) <> []
    /\ chain (sb s) (dzone s') h (l ++ inserted (sb s)).
Proof.
  intros Hg Hins Hch Ht Hnd Hr H. unfold soDeplete in H.
  apply bind_Ok in H. destruct H as (? & ? & G1 & H). inv_ok G1.
  apply bind_Ok in H. destruct H as (? & ? & G2 & H). inv_ok G2.
  apply bind_Ok in H. destruct H as (? & ? & G3 & H). inv_ok G3.
  apply bind_Ok in H. destruct H as ([] & sA & HA & H).
  apply bind_Ok in H. destruct H as ([] & sB & HB & H).
  match goal with Hg : geometry_ok (sb ?x) |- _ => rename x into s end.
  destruct Hins as [Hk Hlen].
  assert (Hcs : length (inserted (sb s))
                = Z.to_nat (cacheIdx (dZoneInsert (sb s))))
    by (unfold inserted; rewrite length_take; lia).
  apply NoDup_app in Hnd. destruct Hnd as (Hndl & Hdisj & Hndc).
  apply Forall_app in Hr. destruct Hr as [Hrl Hrc].
  assert (HA' : sb sA = sb s
                /\ (forall a, a <> phys (sb s) (dTail (sb s)) ->
                              dzone sA !! a = dzone s !! a)
                /\ (dTail (sb s) <> NULL_CLUSTER ->
                    exists dc c0,
                      cache (dZoneInsert (sb s)) !! 0%nat = Some c0
                      /\ dzone sA !! phys (sb s) (dTail (sb s))
                         = Some (set_next c0 dc))).
  { inv_ok HA; cbn.
    - split; [reflexivity |]. split.
      + intros blk Ha. apply lookup_insert_ne. congruence.
      + intros _. eexists _, _. split; [eassumption |]. apply lookup_insert_eq.
    - apply negb_false_iff, Z.eqb_eq in E.
      split; [reflexivity |]. split; [reflexivity | congruence]. }
  destruct HA' as (HsbA & HfrA & HlinkA). clear HA.
  rewrite <- Hcs in HB.
  apply deplete_loop_spec in HB; rewrite ?HsbA; try assumption; try lia.
  2:{ destruct Hg as (_ & Hs & _). lia. }
  rewrite HsbA in HB. destruct HB as (HsbB & HchB & HfrB).
  2:{ reflexivity. }
  assert (Hk1 : 1 <= cacheIdx (dZoneInsert (sb s))).
  { apply bind_Ok in H. destruct H as (? & ? & G1 & H). inv_ok G1.
    apply bind_Ok in H. destruct H as (? & ? & G2 & _). inv_ok G2.
    rewrite HsbB in *.
    destruct (Z.eq_dec (cacheIdx (dZoneInsert (sb s))) 0) as [Ez | Ez]; [| lia].
    rewrite Ez in *.
    change (wrap32 (0 - 1)) with 4294967295 in *.
    match goal with
    | G : _ !! _ = Some _ |- _ => apply lookup_lt_Some in G; rewrite Hlen in G
    end.
    destruct Hg as (_ & Hs & _). lia. }
  assert (Hne : inserted (sb s) <> []).
  { intros E0. rewrite E0 in Hcs. cbn in Hcs. lia. }
  assert (Hhd : forall c0, cache (dZoneInsert (sb s)) !! 0%nat = Some c0 ->
                          hd NULL_CLUSTER (inserted (sb s)) = c0).
  { intros c0 Hc0. unfold inserted.
    assert (G : take (Z.to_nat (cacheIdx (dZoneInsert (sb s))))
                  (cache (dZoneInsert (sb s))) !! 0%nat = Some c0)
      by (rewrite lookup_take_lt by lia; exact Hc0).
    destruct (take _ _); [discriminate | injection G as ->; reflexivity]. }
  assert (Htl : forall c1,
             cache (dZoneInsert (sb s))
               !! Z.to_nat (wrap32 (cacheIdx (dZoneInsert (sb s)) - 1))
             = Some c1 ->
             tail_of (l ++ inserted (sb s)) = c1).
  { intros c1 Hc1. rewrite tail_of_app by exact Hne.
    apply tail_of_lookup. rewrite Hcs. unfold inserted.
    destruct Hg as (_ & Hs & _).
    rewrite wrap32_small in Hc1 by lia.
    rewrite lookup_take_lt by lia.
    replace (pred (Z.to_nat (cacheIdx (dZoneInsert (sb s)))))
      with (Z.to_nat (cacheIdx (dZoneInsert (sb s)) - 1)) by lia.
    exact Hc1. }
  inv_ok H; cbn [sb set_sb dzone] in *;
    repeat match goal with u : unit |- _ => destruct u end;
    match goal with
    | G : for_range _ _ _ _ = Ok _ _ |- _ =>
        apply clear_loop_spec in G; destruct G as (cch & -> & Hcch)
    end;
    cbn in *; rewrite ?HsbB in *.
  - apply Z.eqb_eq in E. rewrite E in Hch. apply chain_null_inv in Hch.
    subst l. eexists cch, _. split; [| split; [exact Hcch | split; [exact Hne |]]].
    + erewrite Htl by eassumption. reflexivity.
    + cbn [app].
      match goal with
      | G : cache _ !! Z.to_nat 0 = Some ?c |- _ => rewrite <- (Hhd c G)
      end.
      exact HchB.
  - apply Z.eqb_neq in E.
    assert (Hl : l <> []).
    { intros ->. apply chain_nil_inv in Hch. contradiction. }
    assert (Hin : dTail (sb s) ∈ l) by (rewrite Ht; apply tail_of_in; exact Hl).
    assert (Hzt : in_zone (sb s) (dTail (sb s))).
    { rewrite Forall_forall in Hrl. apply Hrl. exact Hin. }
    destruct HlinkA as (dc & c0 & Hc0 & HdA);
      [eapply range_not_null; eassumption |].
    exists cch, (dHead (sb s)).
    split; [| split; [exact Hcch | split; [exact Hne |]]].
    + erewrite Htl by eassumption. destruct (sb s); reflexivity.
    + eapply chain_link; [exact Hndl | exact Hl | | | | exact Hch].
      * intros c dc0 Hc Hct Hd. exists dc0. split; [| reflexivity].
        assert (Hzc : in_zone (sb s) c)
          by (rewrite Forall_forall in Hrl; apply Hrl; exact Hc).
        rewrite HfrB by (apply phys_not_in; auto).
        rewrite HfrA; [exact Hd |].
        intros Hp. apply phys_inj in Hp; try assumption. congruence.
      * rewrite <- Ht. eexists. split; [| reflexivity].
        rewrite HfrB by (apply phys_not_in; auto).
        rewrite HdA. cbn. reflexivity.
      * rewrite <- (Hhd c0 Hc0). exact HchB.
Qed.

(** One round of the loops of [soReplenish]. *)
Lemma replenish_take_spec n c s nx s' :
  replenish_take n c s = Ok nx s' ->
  exists dc,
    dzone s !! phys (sb s) c = Some dc
    /\ nx = next dc
    /\ 0 <= n < Z.of_nat (length (cache (dZoneRetriev (sb s))))
    /\ s' = set_dzone
              (<[phys (sb s) c :=
                   set_next NULL_CLUSTER (set_prev NULL_CLUSTER dc)]> (dzone s))
              (set_sb (set_dZoneRetriev
                         (mkCache (cacheIdx (dZoneRetriev (sb s)))
                            (<[Z.to_nat n := c]> (cache (dZoneRetriev (sb s)))))
                         (sb s)) s).
Proof.
  intros H. unfold replenish_take in H. inv_ok H. cbn in *.
  eexists. split; [eassumption |]. split; [reflexivity |].
  split; [assumption | reflexivity].
Qed.

Lemma set_dZoneRetriev_id b :
  set_dZoneRetriev
    (mkCache (cacheIdx (dZoneRetriev b)) (cache (dZoneRetriev b))) b = b.
Proof.
  destruct b as [? ? ? ? ? ? ? ? ? ? ? ? ? ? ? ? rt ?]. cbn.
  destruct rt. reflexivity.
Qed.

(** [k] rounds of taking clusters from the head of the chain. *)
Lemma replenish_loop2_spec (k : nat) :
  forall n c s r s' l,
    geometry_ok (sb s) ->
    chain (sb s) (dzone s) c l ->
    NoDup l -> Forall (in_zone (sb s)) l ->
    0 <= n -> (k <= length l)%nat ->
    (Z.to_nat n <= length (cache (dZoneRetriev (sb s))))%nat ->
    replenish_loop2 k n c s = Ok r s' ->
    r = hd NULL_CLUSTER (drop k l)
    /\ chain (sb s) (dzone s') r (drop k l)
    /\ sb s' = set_dZoneRetriev
                 (mkCache (cacheIdx (dZoneRetriev (sb s)))
                    (fill (Z.to_nat n) (take k l)
                       (cache (dZoneRetriev (sb s))))) (sb s)
    /\ (Z.to_nat n + k <= length (cache (dZoneRetriev (sb s))))%nat.
Proof.
  induction k as [| k IH]; intros n c s r s' l Hg Hch Hnd Hr Hn Hk Hnl H.
  - cbn in H. inv_ok H. rewrite drop_0, take_0, fill_nil.
    rewrite set_dZoneRetriev_id.
    split; [eapply chain_head; eassumption |]. split; [exact Hch |].
    split; [reflexivity | lia].
  - cbn [replenish_loop2] in H. inv_ok H.
    destruct Hch as [| c dc l Hcn Hdc Hch]; [cbn in Hk; lia |].
    apply replenish_take_spec in H0.
    destruct H0 as (dc0 & Hdc0 & -> & Hnr & ->).
    assert (dc0 = dc) by congruence. subst dc0.
    apply NoDup_cons in Hnd. destruct Hnd as [Hnin Hnd].
    apply Forall_cons in Hr. destruct Hr as [Hrc Hr].
    cbn [length] in Hk.
    apply (IH _ _ _ _ _ l) in H1; cbn [sb dzone set_sb set_dzone];
      try assumption; try lia.
    + cbn [sb dzone set_sb set_dzone cacheIdx cache dZoneRetriev
             set_dZoneRetriev] in H1.
      destruct H1 as (-> & Hch' & Hsb & Hlen).
      rewrite length_insert in Hlen.
      split; [reflexivity |]. split.
      * cbn [drop]. eapply chain_ext; [| | exact Hch']; [reflexivity |].
        intros; eauto.
      * split; [| lia]. rewrite Hsb. cbn [drop take].
        replace (Z.to_nat (n + 1)) with (S (Z.to_nat n)) by lia.
        rewrite fill_cons by lia. destruct (sb s); reflexivity.
    + eapply chain_ext; [| | exact Hch]; [reflexivity |].
      intros x dx Hx Hdx. exists dx. split; [| reflexivity].
      rewrite lookup_insert_ne; [exact Hdx |].
      intros Hp. apply phys_inj in Hp; try assumption.
      * subst x. contradiction.
      * rewrite Forall_forall in Hr. apply Hr. exact Hx.
    + cbn. rewrite length_insert. lia.
Qed.

(** The first loop stops when the chain is exhausted. *)
Lemma replenish_loop1_spec (k : nat) :
  forall n c s r s' l,
    geometry_ok (sb s) ->
    chain (sb s) (dzone s) c l ->
    NoDup l -> Forall (in_zone (sb s)) l ->
    0 <= n ->
    (Z.to_nat n <= length (cache (dZoneRetriev (sb s))))%nat ->
    replenish_loop1 k n c s = Ok r s' ->
    r = (n + Z.of_nat (Nat.min k (length l)),
         hd NULL_CLUSTER (drop (Nat.min k (length l)) l))
    /\ chain (sb s) (dzone s') (snd r) (drop (Nat.min k (length l)) l)
    /\ sb s' = set_dZoneRetriev
                 (mkCache (cacheIdx (dZoneRetriev (sb s)))
                    (fill (Z.to_nat n) (take (Nat.min k (length l)) l)
                       (cache (dZoneRetriev (sb s))))) (sb s)
    /\ (Z.to_nat n + Nat.min k (length l)
        <= length (cache (dZoneRetriev (sb s))))%nat.
Proof.
  induction k as [| k IH]; intros n c s r s' l Hg Hch Hnd Hr Hn Hnl H.
  - cbn in H. inv_ok H. cbn [Nat.min]. rewrite drop_0, take_0, fill_nil.
    rewrite set_dZoneRetriev_id, Z.add_0_r. cbn [snd].
    rewrite <- (chain_head _ _ _ _ Hch).
    split; [reflexivity |]. split; [exact Hch |]. split; [reflexivity | lia].
  - cbn [replenish_loop1] in H.
    destruct (c =? NULL_CLUSTER) eqn:E.
    + apply Z.eqb_eq in E. subst c. inv_ok H.
      apply chain_null_inv in Hch. subst l. cbn [length].
      rewrite Nat.min_0_r, drop_0, take_0, fill_nil.
      rewrite set_dZoneRetriev_id, Z.add_0_r. cbn [snd hd].
      split; [reflexivity |]. split; [constructor |].
      split; [reflexivity | lia].
    + inv_ok H.
      destruct Hch as [| c dc l Hcn Hdc Hch]; [discriminate |].
      apply replenish_take_spec in H0.
      destruct H0 as (dc0 & Hdc0 & -> & Hnr & ->).
      assert (dc0 = dc) by congruence. subst dc0.
      apply NoDup_cons in Hnd. destruct Hnd as [Hnin Hnd].
      apply Forall_cons in Hr. destruct Hr as [Hrc Hr].
      cbn [length]. rewrite <- Nat.succ_min_distr.
      apply (IH _ _ _ _ _ l) in H1; cbn [sb dzone set_sb set_dzone];
        try assumption; try lia.
      * cbn [sb dzone set_sb set_dzone cacheIdx cache dZoneRetriev
               set_dZoneRetriev] in H1.
        destruct H1 as (-> & Hch' & Hsb & Hlen).
        rewrite length_insert in Hlen. cbn [snd] in *.
        split; [f_equal; lia |]. split.
        -- cbn [drop]. eapply chain_ext; [| | exact Hch']; [reflexivity |].
           intros; eauto.
        -- split; [| lia]. rewrite Hsb. cbn [drop take].
           replace (Z.to_nat (n + 1)) with (S (Z.to_nat n)) by lia.
           rewrite fill_cons by lia. destruct (sb s); reflexivity.
      * eapply chain_ext; [| | exact Hch]; [reflexivity |].
        intros x dx Hx Hdx. exists dx. split; [| reflexivity].
        rewrite lookup_insert_ne; [exact Hdx |].
        intros Hp. apply phys_inj in Hp; try assumption.
        -- subst x. contradiction.
        -- rewrite Forall_forall in Hr. apply Hr. exact Hx.
      * cbn. rewrite length_insert. lia.
Qed.

(** *** The invariant *)

Lemma refs_length b (xs : list Z) :
  NoDup xs -> Forall (in_zone b) xs -> Z.of_nat (length xs) <= Z.max 0 (dZoneTotal b).
Proof.
  intros Hnd Hr.
  assert (H : xs ⊆+ seqZ 0 (dZoneTotal b)).
  { apply NoDup_submseteq; [exact Hnd |]. intros x Hx.
    rewrite Forall_forall in Hr. apply Hr in Hx. unfold in_zone in Hx.
    apply elem_of_seqZ. lia. }
  apply submseteq_length in H. rewrite length_seqZ in H. lia.
Qed.

(** [soDeplete] appends the insertion cache to the chain. *)
Lemma soDeplete_inv s s' l :
  FreeInv s l -> soDeplete s = Ok tt s' ->
  FreeInv s' (l ++ inserted (sb s))
  /\ cacheIdx (dZoneInsert (sb s')) = 0
  /\ dZoneTotal (sb s') = dZoneTotal (sb s)
  /\ dZoneFree (sb s') = dZoneFree (sb s)
  /\ free_refs (sb s') (l ++ inserted (sb s)) ≡ₚ free_refs (sb s) l.
Proof.
  intros [Hg Hins Hret Hch Ht Hr Hnd Hcnt] H.
  unfold free_refs in Hr, Hnd.
  assert (Hp : inserted (sb s) ++ l ++ retrievable (sb s)
               ≡ₚ (l ++ inserted (sb s)) ++ retrievable (sb s)).
  { rewrite app_assoc. f_equiv. apply Permutation_app_comm. }
  rewrite Hp in Hr, Hnd.
  pose proof Hnd as Hnd'. pose proof Hr as Hr'.
  apply NoDup_app in Hnd'. destruct Hnd' as (Hnd1 & _ & _).
  apply Forall_app in Hr'. destruct Hr' as (Hr1 & _).
  destruct (soDeplete_spec s s' l Hg Hins Hch Ht Hnd1 Hr1 H)
    as (cch & h & Hsb & Hcch & Hne & Hch').
  pose proof (chain_head _ _ _ _ Hch') as Hh.
  split; [| rewrite Hsb; repeat split; symmetry; exact Hp].
  assert (Hlen : length (inserted (sb s))
                 = Z.to_nat (cacheIdx (dZoneInsert (sb s)))).
  { destruct Hins as [Hk Hlen]. unfold inserted. rewrite length_take. lia. }
  constructor; unfold free_refs, inserted, retrievable in *; rewrite Hsb; cbn.
  - exact Hg.
  - destruct Hins as [Hk Hlen']. destruct Hg as (_ & Hs & _).
    split; cbn; [lia | congruence].
  - exact Hret.
  - eapply chain_ext; [| | exact Hch']; [reflexivity |].
    intros; eauto.
  - reflexivity.
  - exact Hr.
  - exact Hnd.
  - rewrite Hcnt, length_app. unfold inserted in Hlen. rewrite Hlen.
    destruct Hins as [Hk _]. lia.
Qed.

Lemma lookup_insert_next (d : gmap Z SODataClust) k v a dc :
  d !! a = Some dc ->
  (forall dk, d !! k = Some dk -> next v = next dk) ->
  exists dc', <[k := v]> d !! a = Some dc' /\ next dc' = next dc.
Proof.
  intros Ha Hk. destruct (decide (k = a)) as [-> | Hne].
  - exists v. split; [apply lookup_insert_eq | apply Hk; exact Ha].
  - exists dc. split; [rewrite lookup_insert_ne by exact Hne; exact Ha |].
    reflexivity.
Qed.

(** The end of [soReplenish], once [nctt] references were taken and
    [nLCluster] heads what is left of the chain. *)
Lemma replenish_finish_inv sC s' nl lC nctt :
  geometry_ok (sb sC) ->
  cache_ok (dZoneInsert (sb sC)) ->
  length (cache (dZoneRetriev (sb sC))) = Z.to_nat DZONE_CACHE_SIZE ->
  0 <= nctt <= DZONE_CACHE_SIZE ->
  chain (sb sC) (dzone sC) nl lC ->
  (lC <> [] -> dTail (sb sC) = tail_of lC) ->
  NoDup (inserted (sb sC) ++ lC
         ++ drop (Z.to_nat (DZONE_CACHE_SIZE - nctt))
              (cache (dZoneRetriev (sb sC)))) ->
  Forall (in_zone (sb sC))
    (inserted (sb sC) ++ lC
     ++ drop (Z.to_nat (DZONE_CACHE_SIZE - nctt))
          (cache (dZoneRetriev (sb sC)))) ->
  dZoneFree (sb sC)
  = cacheIdx (dZoneInsert (sb sC)) + Z.of_nat (length lC) + nctt ->
  ((if negb (nl =? NULL_CLUSTER) then
      b <- soGetSuperBlock ;;
      dc <- soReadCacheCluster (phys b nl) ;;
      soWriteCacheCluster (phys b nl) (set_prev NULL_CLUSTER dc)
    else ret tt) ;;;
   b <- soGetSuperBlock ;;
   modify_sb (set_dZoneRetriev
                (set_cacheIdx (DZONE_CACHE_SIZE - nctt) (dZoneRetriev b))) ;;;
   modify_sb (set_dHead nl) ;;;
   (if nl =? NULL_CLUSTER then modify_sb (set_dTail NULL_CLUSTER)
    else ret tt) ;;;
   soStoreSuperBlock) sC = Ok tt s' ->
  FreeInv s' lC
  /\ dZoneFree (sb s') = dZoneFree (sb sC)
  /\ cacheIdx (dZoneRetriev (sb s')) = DZONE_CACHE_SIZE - nctt.
Proof.
  intros Hg Hins Hlen Hn Hch Ht Hnd Hr Hcnt H.
  inv_ok H; cbn [sb dzone set_sb set_dzone] in *;
    try discriminate;
    (split; [| split; reflexivity]).
  - apply Z.eqb_neq in E0.
    assert (Hl : lC <> []).
    { intros ->. apply chain_nil_inv in Hch. contradiction. }
    constructor; unfold free_refs, inserted, retrievable in *; cbn.
    + exact Hg.
    + exact Hins.
    + split; cbn; [lia | exact Hlen].
    + eapply chain_ext; [| | exact Hch]; [reflexivity |].
      intros c dc Hc Hdc. apply lookup_insert_next; [exact Hdc |].
      intros dk Hdk. cbn. congruence.
    + apply Ht. exact Hl.
    + exact Hr.
    + exact Hnd.
    + lia.
  - apply Z.eqb_eq in E0. subst nl. apply chain_null_inv in Hch. subst lC.
    constructor; unfold free_refs, inserted, retrievable in *; cbn.
    + exact Hg.
    + exact Hins.
    + split; cbn; [lia | exact Hlen].
    + constructor.
    + reflexivity.
    + exact Hr.
    + exact Hnd.
    + cbn in Hcnt. lia.
Qed.

Lemma chain_sb b b' d h l :
  dZoneStart b' = dZoneStart b -> chain b d h l -> chain b' d h l.
Proof. intros Hb. apply chain_ext; [exact Hb |]. intros; eauto. Qed.

Lemma perm_drop_take (k : nat) (cs l : list Z) :
  drop k cs ++ l ++ take k cs ≡ₚ cs ++ l.
Proof.
  rewrite (Permutation_app_comm (drop k cs)), <- app_assoc, take_drop.
  apply Permutation_app_comm.
Qed.

Lemma soReplenish_inv s s' l :
  FreeInv s l ->
  cacheIdx (dZoneRetriev (sb s)) = DZONE_CACHE_SIZE ->
  soReplenish s = Ok tt s' ->
  exists l',
    FreeInv s' l'
    /\ dZoneFree (sb s') = dZoneFree (sb s)
    /\ cacheIdx (dZoneRetriev (sb s'))
       = DZONE_CACHE_SIZE - Z.min (dZoneFree (sb s)) DZONE_CACHE_SIZE.
Proof.
  intros [Hg Hins Hret Hch Ht Hr Hnd Hcnt] Hidx H.
  unfold soReplenish in H.
  apply bind_Ok in H. destruct H as (? & ? & G1 & H). inv_ok G1.
  apply bind_Ok in H. destruct H as (? & ? & G2 & H). inv_ok G2.
  apply bind_Ok in H. destruct H as (? & ? & G3 & H). inv_ok G3.
  match goal with Hg : geometry_ok (sb ?x) |- _ => rename x into s end.
  set (nctt := if dZoneFree (sb s) <? DZONE_CACHE_SIZE then dZoneFree (sb s)
               else DZONE_CACHE_SIZE) in *.
  apply bind_Ok in H. destruct H as (r & s1 & H1 & H).
  destruct Hins as [Hki Hli]. destruct Hret as [Hkr Hlr].
  pose proof Hg as (_ & Hsz & _).
  assert (Hret0 : retrievable (sb s) = []).
  { unfold retrievable. apply drop_ge. rewrite Hidx, Hlr. lia. }
  unfold free_refs in Hr, Hnd. rewrite Hret0, app_nil_r in Hr, Hnd.
  assert (Hci : length (inserted (sb s))
                = Z.to_nat (cacheIdx (dZoneInsert (sb s))))
    by (unfold inserted; rewrite length_take; lia).
  assert (Hnctt : nctt = Z.min (dZoneFree (sb s)) DZONE_CACHE_SIZE).
  { unfold nctt. destruct (dZoneFree (sb s) <? DZONE_CACHE_SIZE) eqn:E;
      [apply Z.ltb_lt in E | apply Z.ltb_ge in E]; lia. }
  clearbody nctt.
  pose proof Hnd as Hnd0. pose proof Hr as Hr0.
  apply NoDup_app in Hnd0. destruct Hnd0 as (Hndi & _ & Hndl).
  apply Forall_app in Hr0. destruct Hr0 as [Hri Hrl].
  apply (replenish_loop1_spec _ _ _ _ _ _ l) in H1;
    try assumption; try lia.
  set (m := Nat.min (Z.to_nat nctt) (length l)) in *.
  destruct H1 as (-> & Hch1 & Hsb1 & Hb1).
  cbn [snd] in Hch1. cbn beta iota in H.
  apply bind_Ok in H. destruct H as (nl & sC & HC & H).
  rewrite Hidx in Hsb1.
  destruct (negb (DZONE_CACHE_SIZE - nctt + Z.of_nat m =? DZONE_CACHE_SIZE))
    eqn:E.
  - (* the chain was exhausted: the insertion cache is depleted *)
    apply negb_true_iff, Z.eqb_neq in E.
    assert (Hm : m = length l) by lia.
    rewrite Hm in *. rewrite drop_all in Hch1. rewrite take_ge in Hsb1 by lia.
    apply bind_Ok in HC. destruct HC as ([] & s2 & G & HC).
    apply modify_sb_Ok in G. subst s2.
    apply bind_Ok in HC. destruct HC as ([] & sD & HD & HC).
    apply bind_Ok in HC. destruct HC as (bD & sD' & G & HC).
    injection G as G1 G2. subst bD sD'.
    apply (soDeplete_spec _ _ []) in HD; cbn [sb set_sb dzone set_dzone];
      rewrite ?Hsb1;
      [| exact Hg | split; assumption | constructor | reflexivity
       | exact Hndi | exact Hri ].
    cbn [app sb set_sb dzone set_dzone] in HD. rewrite Hsb1 in HD.
    destruct HD as (cch & h & HsbD & Hcch & Hne & HchD).
    change (inserted _) with (inserted (sb s)) in HsbD, Hne, HchD.
    cbn [cache dZoneInsert set_dTail set_dHead set_dZoneRetriev] in Hcch.
    apply (chain_sb _ (sb sD)) in HchD; [| rewrite HsbD; reflexivity].
    apply (replenish_loop2_spec _ _ _ _ _ _ (inserted (sb s))) in HC;
      rewrite ?HsbD;
      [| exact Hg | rewrite HsbD in HchD; exact HchD | exact Hndi | exact Hri
       | lia | lia | cbn; rewrite length_fill; lia ].
    destruct HC as (Hnl & HchC & HsbC & HbC).
    rewrite HsbD in HsbC, HbC, HchC.
    cbn [cacheIdx cache dZoneRetriev set_dZoneInsert set_dTail set_dHead
           set_dZoneRetriev] in HsbC, HbC.
    set (k2 := Z.to_nat (DZONE_CACHE_SIZE
                         - (DZONE_CACHE_SIZE - nctt + Z.of_nat (length l))))
      in *.
    set (n0 := Z.to_nat (DZONE_CACHE_SIZE - nctt)) in *.
    replace (Z.to_nat (DZONE_CACHE_SIZE - nctt + Z.of_nat (length l)))
      with (n0 + length l)%nat in HsbC by lia.
    rewrite fill_fill in HsbC by lia.
    assert (Hk2 : (k2 <= length (inserted (sb s)))%nat) by lia.
    assert (Hdr : drop n0 (fill n0 (l ++ take k2 (inserted (sb s)))
                             (cache (dZoneRetriev (sb s))))
                  = l ++ take k2 (inserted (sb s))).
    { rewrite drop_fill by lia. rewrite drop_ge; [apply app_nil_r |].
      rewrite length_app, length_take. lia. }
    exists (drop k2 (inserted (sb s))).
    apply (replenish_finish_inv _ _ _ (drop k2 (inserted (sb s)))) in H;
      rewrite ?HsbC;
      cbn [cacheIdx cache dZoneRetriev dZoneInsert dZoneFree dTail
             set_dZoneInsert set_dTail set_dHead set_dZoneRetriev];
      fold n0; rewrite ?Hdr.
    + destruct H as (Hinv & Hfree & Hidx').
      split; [exact Hinv |]. rewrite Hfree, Hidx', HsbC, Hnctt.
      split; reflexivity.
    + exact Hg.
    + split; cbn; [lia | congruence].
    + rewrite length_fill; [exact Hlr |].
      rewrite length_app, length_take. lia.
    + lia.
    + eapply chain_sb; [| exact HchC].
      cbn [dZoneStart set_dZoneRetriev set_dZoneInsert set_dHead set_dTail].
      reflexivity.
    + intros Hne'. symmetry. apply tail_of_drop.
      destruct (decide (k2 < length (inserted (sb s)))%nat) as [| Hge];
        [assumption |].
      rewrite drop_ge in Hne' by lia. contradiction.
    + match goal with
      | |- context [inserted (set_dZoneRetriev ?c ?b)] =>
          change (inserted (set_dZoneRetriev c b)) with (@nil Z)
      end.
      cbn [app]. rewrite perm_drop_take. exact Hnd.
    + match goal with
      | |- context [inserted (set_dZoneRetriev ?c ?b)] =>
          change (inserted (set_dZoneRetriev c b)) with (@nil Z)
      end.
      cbn [app]. rewrite perm_drop_take. exact Hr.
    + rewrite length_drop. lia.
  - (* the chain held enough clusters *)
    apply negb_false_iff, Z.eqb_eq in E.
    apply ret_Ok in HC. destruct HC as [<- <-].
    set (n0 := Z.to_nat (DZONE_CACHE_SIZE - nctt)) in *.
    assert (Hdr : drop n0 (fill n0 (take m l) (cache (dZoneRetriev (sb s))))
                  = take m l).
    { rewrite drop_fill by lia. rewrite drop_ge; [apply app_nil_r |].
      rewrite length_take. lia. }
    exists (drop m l).
    apply (replenish_finish_inv _ _ _ (drop m l)) in H;
      rewrite ?Hsb1;
      cbn [cacheIdx cache dZoneRetriev dZoneInsert dZoneFree dTail
             set_dZoneInsert set_dTail set_dHead set_dZoneRetriev];
      fold n0; rewrite ?Hdr.
    + destruct H as (Hinv & Hfree & Hidx').
      split; [exact Hinv |]. rewrite Hfree, Hidx', Hsb1, Hnctt.
      split; reflexivity.
    + exact Hg.
    + split; assumption.
    + rewrite length_fill; [exact Hlr | rewrite length_take; lia].
    + lia.
    + eapply chain_sb; [| exact Hch1]. reflexivity.
    + intros Hne'. rewrite Ht. symmetry. apply tail_of_drop.
      destruct (decide (m < length l)%nat) as [| Hge]; [assumption |].
      rewrite drop_ge in Hne' by lia. contradiction.
    + change (inserted (set_dZoneRetriev _ _)) with (inserted (sb s)).
      rewrite (Permutation_app_comm (drop m l)), take_drop. exact Hnd.
    + change (inserted (set_dZoneRetriev _ _)) with (inserted (sb s)).
      rewrite (Permutation_app_comm (drop m l)), take_drop. exact Hr.
    + rewrite length_drop. lia.
Qed.

Lemma free_refs_length s l :
  FreeInv s l -> Z.of_nat (length (free_refs (sb s) l)) = dZoneFree (sb s).
Proof.
  intros [Hg [Hki Hli] [Hkr Hlr] _ _ _ _ Hcnt].
  unfold free_refs, inserted, retrievable.
  rewrite !length_app, length_take, length_drop. lia.
Qed.

Lemma dZoneFree_range s l :
  FreeInv s l -> 0 <= dZoneFree (sb s) <= Z.max 0 (dZoneTotal (sb s)).
Proof.
  intros Hinv. rewrite <- (free_refs_length s l Hinv).
  pose proof (refs_length (sb s) _ (fi_nodup s l Hinv) (fi_range s l Hinv)).
  lia.
Qed.

(** Writing a cluster that is not in the chain. *)
Lemma FreeInv_write s s' l c v :
  FreeInv s l -> in_zone (sb s) c -> c ∉ l ->
  sb s' = sb s -> dzone s' = <[phys (sb s) c := v]> (dzone s) ->
  FreeInv s' l.
Proof.
  intros [Hg Hins Hret Hch Ht Hr Hnd Hcnt] Hc Hnin Hsb Hdz.
  constructor; rewrite ?Hsb, ?Hdz; try assumption.
  eapply chain_ext; [| | exact Hch]; [reflexivity |].
  intros x dx Hx Hdx. exists dx. split; [| reflexivity].
  rewrite lookup_insert_ne; [exact Hdx |].
  intros Hp. apply phys_inj in Hp; try assumption.
  - subst x. contradiction.
  - rewrite Forall_forall in Hr. apply Hr. unfold free_refs.
    rewrite !elem_of_app. auto.
Qed.

(** Pushing a reference on the insertion cache. *)
Lemma FreeInv_push s s' l c :
  FreeInv s l ->
  cacheIdx (dZoneInsert (sb s)) <> DZONE_CACHE_SIZE ->
  in_zone (sb s) c -> c ∉ free_refs (sb s) l ->
  sb s' = set_dZoneFree (wrap32 (dZoneFree (sb s) + 1))
            (set_dZoneInsert
               (mkCache (wrap32 (cacheIdx (dZoneInsert (sb s)) + 1))
                  (<[Z.to_nat (cacheIdx (dZoneInsert (sb s))) := c]>
                     (cache (dZoneInsert (sb s)))))
               (sb s)) ->
  dzone s' = dzone s ->
  FreeInv s' l /\ dZoneFree (sb s') = dZoneFree (sb s) + 1.
Proof.
  intros Hinv Hidx Hc Hnin Hsb Hdz.
  pose proof (free_refs_length s l Hinv) as Hlen.
  destruct Hinv as [Hg Hins Hret Hch Ht Hr Hnd Hcnt].
  pose proof Hg as (_ & Hsz & _ & Htot & _).
  destruct Hins as [Hki Hli].
  assert (Hp : free_refs (sb s') l ≡ₚ c :: free_refs (sb s) l).
  { unfold free_refs, inserted, retrievable. rewrite Hsb. cbn.
    rewrite wrap32_small by lia.
    replace (Z.to_nat (cacheIdx (dZoneInsert (sb s)) + 1))
      with (S (Z.to_nat (cacheIdx (dZoneInsert (sb s))))) by lia.
    rewrite (take_S_r _ _ c) by (apply list_lookup_insert_eq; lia).
    rewrite take_insert_ge by lia.
    rewrite <- app_assoc. cbn [app]. symmetry. apply Permutation_middle. }
  assert (Hnd' : NoDup (c :: free_refs (sb s) l))
    by (apply NoDup_cons; split; assumption).
  assert (Hr' : Forall (in_zone (sb s)) (c :: free_refs (sb s) l))
    by (apply Forall_cons; split; assumption).
  pose proof (refs_length (sb s) _ Hnd' Hr') as Hbound.
  cbn [length] in Hbound. rewrite Nat2Z.inj_succ, Hlen in Hbound.
  assert (Hw : wrap32 (dZoneFree (sb s) + 1) = dZoneFree (sb s) + 1)
    by (apply wrap32_small; unfold NULL_CLUSTER in Htot; lia).
  split; [| rewrite Hsb; cbn; exact Hw].
  constructor; rewrite ?Hp; try assumption.
  - rewrite Hsb. exact Hg.
  - rewrite Hsb. split; cbn; [rewrite wrap32_small; lia |].
    rewrite length_insert. exact Hli.
  - rewrite Hsb. exact Hret.
  - rewrite Hdz, Hsb. eapply chain_sb; [| exact Hch]. reflexivity.
  - rewrite Hsb. exact Ht.
  - rewrite Hsb. exact Hr'.
  - rewrite Hsb. cbn. rewrite Hw, wrap32_small by lia. lia.
Qed.

(** Popping a reference from the retrieval cache. *)
Lemma FreeInv_pop s s' l c v :
  FreeInv s l ->
  cacheIdx (dZoneRetriev (sb s)) <> DZONE_CACHE_SIZE ->
  cache (dZoneRetriev (sb s)) !! Z.to_nat (cacheIdx (dZoneRetriev (sb s)))
  = Some c ->
  sb s' = set_dZoneFree (wrap32 (dZoneFree (sb s) - 1))
            (set_dZoneRetriev
               (mkCache (wrap32 (cacheIdx (dZoneRetriev (sb s)) + 1))
                  (<[Z.to_nat (cacheIdx (dZoneRetriev (sb s))) := NULL_CLUSTER]>
                     (cache (dZoneRetriev (sb s)))))
               (sb s)) ->
  dzone s' = <[phys (sb s) c := v]> (dzone s) ->
  FreeInv s' l
  /\ dZoneFree (sb s') = dZoneFree (sb s) - 1
  /\ retrievable (sb s) = c :: retrievable (sb s').
Proof.
  intros Hinv Hidx Hc Hsb Hdz.
  pose proof (dZoneFree_range s l Hinv) as Hfr.
  destruct Hinv as [Hg Hins Hret Hch Ht Hr Hnd Hcnt].
  pose proof Hg as (_ & Hsz & _ & Htot & _).
  destruct Hret as [Hkr Hlr]. pose proof Hins as [Hki _].
  assert (HR : retrievable (sb s) = c :: retrievable (sb s')).
  { unfold retrievable. rewrite Hsb. cbn.
    rewrite wrap32_small by lia.
    replace (Z.to_nat (cacheIdx (dZoneRetriev (sb s)) + 1))
      with (S (Z.to_nat (cacheIdx (dZoneRetriev (sb s))))) by lia.
    rewrite drop_insert_lt by lia. apply drop_S. exact Hc. }
  assert (Hp : free_refs (sb s) l ≡ₚ c :: free_refs (sb s') l).
  { unfold free_refs. rewrite HR.
    assert (Hi : inserted (sb s') = inserted (sb s))
      by (unfold inserted; rewrite Hsb; reflexivity).
    rewrite Hi, !app_assoc. symmetry. apply Permutation_middle. }
  rewrite Hp in Hnd, Hr.
  apply NoDup_cons in Hnd. destruct Hnd as [Hnin Hnd].
  apply Forall_cons in Hr. destruct Hr as [Hzc Hr].
  assert (Hw : wrap32 (dZoneFree (sb s) - 1) = dZoneFree (sb s) - 1)
    by (apply wrap32_small; unfold NULL_CLUSTER in Htot; lia).
  split; [| split; [rewrite Hsb; exact Hw | exact HR]].
  rewrite Hsb in Hr, Hnd, Hnin.
  constructor.
  - rewrite Hsb. exact Hg.
  - rewrite Hsb. exact Hins.
  - rewrite Hsb. split; cbn; [rewrite wrap32_small; lia |].
    rewrite length_insert. exact Hlr.
  - rewrite Hdz, Hsb. eapply chain_ext; [| | exact Hch]; [reflexivity |].
    intros x dx Hx Hdx. exists dx. split; [| reflexivity].
    rewrite lookup_insert_ne; [exact Hdx |].
    intros Hq. apply phys_inj in Hq; try assumption.
    + subst x. apply Hnin. unfold free_refs. rewrite !elem_of_app. auto.
    + rewrite Forall_forall in Hr. apply Hr. unfold free_refs.
      rewrite !elem_of_app. auto.
  - rewrite Hsb. exact Ht.
  - rewrite Hsb. exact Hr.
  - rewrite Hsb. exact Hnd.
  - rewrite Hsb. cbn. rewrite Hw, wrap32_small by lia. lia.
Qed.

Lemma soFreeDataCluster_inv s s' l c :
  FreeInv s l -> 0 <= c -> c ∉ free_refs (sb s) l ->
  soFreeDataCluster c s = Ok tt s' ->
  FreeInv s' (chain_after_free (sb s) l)
  /\ dZoneFree (sb s') = dZoneFree (sb s) + 1.
Proof.
  intros Hinv Hc0 Hnin H. unfold soFreeDataCluster in H.
  inv_ok H; cbn [sb dzone set_sb set_dzone] in *;
    match goal with
    | G : (_ || _) = false |- _ =>
        apply orb_false_iff in G; destruct G as [Hc1 Hc2];
        apply Z.eqb_neq in Hc1; apply Z.leb_gt in Hc2
    end;
    match goal with
    | G : dzone ?s0 !! phys (sb ?s0) c = Some ?dc |- _ =>
        assert (Hw : FreeInv
                       (set_dzone
                          (<[phys (sb s0) c :=
                               set_next NULL_CLUSTER (set_prev NULL_CLUSTER dc)]>
                             (dzone s0)) s0) l)
          by (eapply (FreeInv_write s0 _ l c); try eassumption;
              [ split; lia
              | intros Hin; apply Hnin; unfold free_refs;
                rewrite !elem_of_app; auto
              | reflexivity | reflexivity ])
    end;
    unfold chain_after_free; rewrite E.
  - apply Z.eqb_eq in E.
    match goal with
    | G : soDeplete _ = Ok ?u _ |- _ =>
        destruct u; apply (soDeplete_inv _ _ l Hw) in G;
        cbn [sb set_dzone] in G;
        destruct G as (HinvD & Hidx0 & Htot & Hfree & Hp)
    end.
    pose proof (fi_geom _ _ HinvD) as (_ & Hsz & _).
    match goal with
    | |- FreeInv ?s2 _ /\ _ =>
        destruct (FreeInv_push _ s2 _ c HinvD) as [Hi Hf];
        [ lia | split; lia | rewrite Hp; exact Hnin | reflexivity
        | reflexivity |]
    end.
    split; [exact Hi |]. cbn [sb set_sb] in Hf. rewrite Hf. cbn in *. lia.
  - apply Z.eqb_neq in E.
    match goal with
    | |- FreeInv ?s2 _ /\ _ =>
        apply (FreeInv_push _ s2 _ c Hw);
        [ exact E | split; cbn; lia | exact Hnin | reflexivity | reflexivity ]
    end.
Qed.

Lemma soAllocDataCluster_inv s s' l n p c :
  clean_preserves -> FreeInv s l ->
  soAllocDataCluster n p s = Ok c s' ->
  exists l', FreeInv s' l'.
Proof.
  intros Hclean Hinv H. unfold soAllocDataCluster in H.
  pose proof (dZoneFree_range _ _ Hinv) as Hfr.
  pose proof (fi_geom _ _ Hinv) as (_ & Hsz & _).
  inv_ok H; cbn [sb dzone set_sb set_dzone] in *;
    match goal with
    | G : (dZoneFree _ =? 0) = false |- _ => apply Z.eqb_neq in G
    end;
    (* the state the reference is popped from *)
    match goal with
    | G : cache (dZoneRetriev (sb ?sR)) !! _ = Some c |- _ =>
        assert (HR : exists l1,
                   FreeInv sR l1
                   /\ cacheIdx (dZoneRetriev (sb sR)) <> DZONE_CACHE_SIZE)
    end;
    try (first
           [ match goal with
             | G : soReplenish _ = Ok ?u _ |- exists _, _ =>
                 destruct u; apply Z.eqb_eq in E;
                 apply (soReplenish_inv _ _ l Hinv E) in G;
                 destruct G as (l1 & Hi & _ & Hx);
                 exists l1; split; [exact Hi | rewrite Hx; lia]
             end
           | match goal with
             | |- exists _, FreeInv _ _ /\ _ <> _ =>
                 exists l; split; [exact Hinv | apply Z.eqb_neq; exact E]
             end ]);
    destruct HR as (l1 & HinvR & HidxR);
    (* the state the cluster is written in *)
    match goal with
    | |- exists _, FreeInv (set_dzone (<[phys (sb ?sT) c := ?v]> _) _) _ =>
        assert (HT : exists l2,
                   FreeInv sT l2
                   /\ cacheIdx (dZoneRetriev (sb sT)) <> DZONE_CACHE_SIZE
                   /\ cache (dZoneRetriev (sb sT))
                        !! Z.to_nat (cacheIdx (dZoneRetriev (sb sT)))
                      = Some c);
        [ first
            [ match goal with
              | G : soCleanDataCluster _ c _ = Ok ?u sT |- _ =>
                  destruct u;
                  destruct (Hclean _ _ _ _ _ HinvR G) as [Hret (l2 & Hi2)];
                  exists l2; rewrite Hret; auto
              end
            | exists l1; auto ]
        | destruct HT as (l2 & Hi2 & Hidx2 & Hc2); exists l2;
          apply (FreeInv_pop sT _ l2 c v Hi2 Hidx2 Hc2); reflexivity ]
    end.
Qed.

(** [soDeplete] has no guard of its own: on an empty insertion cache it
    reads [cache[cacheIdx - 1]], which is outside the array. *)
Lemma soDeplete_empty s u s' :
  cacheIdx (dZoneInsert (sb s)) = 0 ->
  Z.of_nat (length (cache (dZoneInsert (sb s)))) < 4294967296 ->
  soDeplete s <> Ok u s'.
Proof.
  intros Hk Hlen H. unfold soDeplete in H.
  apply bind_Ok in H. destruct H as (? & ? & G1 & H). inv_ok G1.
  apply bind_Ok in H. destruct H as (? & ? & G2 & H). inv_ok G2.
  apply bind_Ok in H. destruct H as (? & ? & G3 & H). inv_ok G3.
  apply bind_Ok in H. destruct H as ([] & sA & HA & H).
  apply bind_Ok in H. destruct H as ([] & sB & HB & H).
  match goal with G : cacheIdx (dZoneInsert (sb ?x)) = 0 |- _ =>
    rename x into s end.
  assert (HsA : sb sA = sb s) by (inv_ok HA; reflexivity).
  rewrite Hk in HB. change (Z.to_nat 0) with 0%nat in HB.
  cbn [for_range] in HB. apply ret_Ok in HB. destruct HB as [_ <-].
  apply bind_Ok in H. destruct H as (? & ? & G1 & H). inv_ok G1.
  apply bind_Ok in H. destruct H as (? & ? & G2 & _). inv_ok G2.
  rewrite HsA, Hk in *. change (wrap32 (0 - 1)) with 4294967295 in *.
  match goal with
  | G : _ !! _ = Some _ |- _ => apply lookup_lt_Some in G
  end.
  lia.
Qed.

Lemma soFreeDataCluster_frame s s' c :
  cacheIdx (dZoneInsert (sb s)) <> DZONE_CACHE_SIZE ->
  soFreeDataCluster c s = Ok tt s' ->
  dHead (sb s') = dHead (sb s) /\ dTail (sb s') = dTail (sb s)
  /\ dZoneRetriev (sb s') = dZoneRetriev (sb s)
  /\ dZoneInsert (sb s')
     = mkCache (wrap32 (cacheIdx (dZoneInsert (sb s)) + 1))
         (<[Z.to_nat (cacheIdx (dZoneInsert (sb s))) := c]>
            (cache (dZoneInsert (sb s))))
  /\ dZoneFree (sb s') = wrap32 (dZoneFree (sb s) + 1)
  /\ (forall a, a <> phys (sb s) c -> dzone s' !! a = dzone s !! a).
Proof.
  intros Hidx H. unfold soFreeDataCluster in H.
  inv_ok H; cbn [sb dzone set_sb set_dzone] in *.
  - apply Z.eqb_eq in E. contradiction.
  - cbn. repeat split. intros blk Hb. apply lookup_insert_ne. congruence.
Qed.

Lemma soAllocDataCluster_frame s s' n p c :
  cacheIdx (dZoneRetriev (sb s)) <> DZONE_CACHE_SIZE ->
  (forall dc, dzone s !! phys (sb s) c = Some dc -> stat dc = NULL_INODE) ->
  soAllocDataCluster n p s = Ok c s' ->
  dHead (sb s') = dHead (sb s) /\ dTail (sb s') = dTail (sb s)
  /\ dZoneInsert (sb s') = dZoneInsert (sb s)
  /\ cache (dZoneRetriev (sb s)) !! Z.to_nat (cacheIdx (dZoneRetriev (sb s)))
     = Some c
  /\ dZoneRetriev (sb s')
     = mkCache (wrap32 (cacheIdx (dZoneRetriev (sb s)) + 1))
         (<[Z.to_nat (cacheIdx (dZoneRetriev (sb s))) := NULL_CLUSTER]>
            (cache (dZoneRetriev (sb s))))
  /\ dZoneFree (sb s') = wrap32 (dZoneFree (sb s) - 1)
  /\ (forall a, a <> phys (sb s) c -> dzone s' !! a = dzone s !! a).
Proof.
  intros Hidx Hclean H. unfold soAllocDataCluster in H.
  inv_ok H; cbn [sb dzone set_sb set_dzone] in *;
    try (apply Z.eqb_eq in E; contradiction).
  - apply negb_true_iff, Z.eqb_neq in E0.
    match goal with
    | G : dzone _ !! _ = Some _ |- _ => apply Hclean in G
    end.
    contradiction.
  - cbn. repeat split; try assumption.
    intros blk Hb. apply lookup_insert_ne. congruence.
Qed.

Lemma soAllocDataCluster_keeps_chain s s' l n p c :
  FreeInv s l ->
  cacheIdx (dZoneRetriev (sb s)) <> DZONE_CACHE_SIZE ->
  (forall dc, dzone s !! phys (sb s) c = Some dc -> stat dc = NULL_INODE) ->
  soAllocDataCluster n p s = Ok c s' ->
  FreeInv s' l
  /\ dZoneFree (sb s') = dZoneFree (sb s) - 1
  /\ retrievable (sb s) = c :: retrievable (sb s').
Proof.
  intros Hinv Hidx Hclean H. unfold soAllocDataCluster in H.
  inv_ok H; cbn [sb dzone set_sb set_dzone] in *;
    try (apply Z.eqb_eq in E; contradiction).
  - apply negb_true_iff, Z.eqb_neq in E0.
    match goal with
    | G : dzone _ !! _ = Some _ |- _ => apply Hclean in G
    end.
    contradiction.
  - match goal with
    | |- FreeInv (set_dzone (<[_ := ?v]> _) ?s1) _ /\ _ =>
        apply (FreeInv_pop _ (set_dzone (<[phys (sb s) c := v]> (dzone s)) s1)
                 l c v Hinv Hidx); [assumption | |];
        reflexivity
    end.
Qed.

(** C2, amended.  Let the free clusters be accounted for in [s], the chain on disk
    from [dHead] to [dTail] being [l]: [dZoneFree] is the number of
    references in the insertion cache, plus the length of [l], plus
    [DZONE_CACHE_SIZE] minus the index of the retrieval cache, and no
    cluster is referenced twice.  Then they are accounted for after a
    successful [soDeplete], which appends the insertion cache to the chain;
    after a successful [soReplenish] called, as by its caller, on an empty
    retrieval cache, which keeps [dZoneFree]; after a successful
    [soFreeDataCluster] of a cluster that was not free, which adds one to
    [dZoneFree] and keeps the chain unless the insertion cache was full and
    [soDeplete] ran; and after a successful [soAllocDataCluster], which
    keeps the chain, pops the reference from the retrieval cache and takes
    one from [dZoneFree] when the retrieval cache was not empty and the
    cluster was clean, that is when neither [soReplenish] nor
    [soCleanDataCluster] ran. *)
Theorem C2_free_clusters_accounted (s s' : FS) (l : list Z) :
  FreeInv s l ->
  clean_preserves ->
  (soDeplete s = Ok tt s' -> FreeInv s' (l ++ inserted (sb s)))
  /\ (cacheIdx (dZoneRetriev (sb s)) = DZONE_CACHE_SIZE ->
      soReplenish s = Ok tt s' ->
      exists l', FreeInv s' l' /\ dZoneFree (sb s') = dZoneFree (sb s))
  /\ (forall c, 0 <= c -> c ∉ free_refs (sb s) l ->
      soFreeDataCluster c s = Ok tt s' ->
      FreeInv s' (chain_after_free (sb s) l)
      /\ dZoneFree (sb s') = dZoneFree (sb s) + 1)
  /\ (forall n p c, soAllocDataCluster n p s = Ok c s' ->
      (exists l', FreeInv s' l')
      /\ (cacheIdx (dZoneRetriev (sb s)) <> DZONE_CACHE_SIZE ->
          (forall dc, dzone s !! phys (sb s) c = Some dc ->
                      stat dc = NULL_INODE) ->
          FreeInv s' l
          /\ dZoneFree (sb s') = dZoneFree (sb s) - 1
          /\ retrievable (sb s) = c :: retrievable (sb s'))).
Proof.
  intros Hinv Hclean. repeat apply conj.
  - intros H. apply (soDeplete_inv s s' l Hinv H).
  - intros Hidx H.
    destruct (soReplenish_inv s s' l Hinv Hidx H) as (l' & Hi & Hf & _).
    exists l'. split; assumption.
  - intros c Hc Hnin H. apply (soFreeDataCluster_inv s s' l c Hinv Hc Hnin H).
  - intros n p c H. split.
    + apply (soAllocDataCluster_inv s s' l n p c Hclean Hinv H).
    + intros Hidx Hcl.
      apply (soAllocDataCluster_keeps_chain s s' l n p c Hinv Hidx Hcl H).
Qed.

(** [soReplenish] on a full retrieval cache, the chain holding at least as
    many clusters as the cache. *)
Lemma soReplenish_full s s' l :
  FreeInv s l ->
  cacheIdx (dZoneRetriev (sb s)) = 0 ->
  (Z.to_nat DZONE_CACHE_SIZE <= length l)%nat ->
  soReplenish s = Ok tt s' ->
  cache (dZoneRetriev (sb s')) = take (Z.to_nat DZONE_CACHE_SIZE) l
  /\ cacheIdx (dZoneRetriev (sb s')) = 0
  /\ dHead (sb s') = hd NULL_CLUSTER (drop (Z.to_nat DZONE_CACHE_SIZE) l)
  /\ dZoneFree (sb s') = dZoneFree (sb s)
  /\ s' <> s.
Proof.
  intros [Hg Hins Hret Hch Ht Hr Hnd Hcnt] Hidx Hlen H.
  unfold soReplenish in H.
  apply bind_Ok in H. destruct H as (? & ? & G1 & H). inv_ok G1.
  apply bind_Ok in H. destruct H as (? & ? & G2 & H). inv_ok G2.
  apply bind_Ok in H. destruct H as (? & ? & G3 & H). inv_ok G3.
  match goal with Hg : geometry_ok (sb ?x) |- _ => rename x into s end.
  destruct Hins as [Hki Hli]. destruct Hret as [Hkr Hlr].
  pose proof Hg as (_ & Hsz & _).
  replace (dZoneFree (sb s) <? DZONE_CACHE_SIZE) with false in H by lia.
  replace (DZONE_CACHE_SIZE - DZONE_CACHE_SIZE) with 0 in H by lia.
  apply bind_Ok in H. destruct H as (r & s1 & H1 & H).
  pose proof Hnd as Hnd0. pose proof Hr as Hr0.
  unfold free_refs in Hnd0, Hr0.
  apply NoDup_app in Hnd0. destruct Hnd0 as (_ & _ & Hnd0).
  apply NoDup_app in Hnd0. destruct Hnd0 as (Hndl & Hdisj & _).
  apply Forall_app in Hr0. destruct Hr0 as [_ Hr0].
  apply Forall_app in Hr0. destruct Hr0 as [Hrl _].
  apply (replenish_loop1_spec _ _ _ _ _ _ l) in H1;
    try assumption; try lia.
  rewrite Nat.min_l in H1 by exact Hlen.
  destruct H1 as (-> & Hch1 & Hsb1 & _).
  rewrite Hidx in Hsb1. change (Z.to_nat 0) with 0%nat in Hsb1.
  assert (Hfill : fill 0 (take (Z.to_nat DZONE_CACHE_SIZE) l)
                    (cache (dZoneRetriev (sb s)))
                  = take (Z.to_nat DZONE_CACHE_SIZE) l).
  { unfold fill. cbn [take app]. rewrite drop_ge; [apply app_nil_r |].
    rewrite length_take. lia. }
  rewrite Hfill in Hsb1.
  cbn beta iota in H.
  rewrite Z2Nat.id in H by lia.
  replace (0 + DZONE_CACHE_SIZE =? DZONE_CACHE_SIZE) with true in H by lia.
  cbn [negb] in H.
  assert (Hres : cache (dZoneRetriev (sb s'))
                 = take (Z.to_nat DZONE_CACHE_SIZE) l
                 /\ cacheIdx (dZoneRetriev (sb s')) = 0
                 /\ dHead (sb s')
                    = hd NULL_CLUSTER (drop (Z.to_nat DZONE_CACHE_SIZE) l)
                 /\ dZoneFree (sb s') = dZoneFree (sb s)).
  { inv_ok H; cbn [sb dzone set_sb set_dzone] in *; try discriminate;
      rewrite Hsb1; cbn; repeat split; try reflexivity; lia. }
  destruct Hres as (Hc & Hi & Hh & Hf).
  repeat (split; [assumption |]).
  intros ->. destruct l as [| c l]; [cbn in Hlen; lia |].
  apply (Hdisj c); [left |].
  unfold retrievable. rewrite Hidx. cbn [Z.to_nat drop]. rewrite Hc.
  destruct (Z.to_nat DZONE_CACHE_SIZE) as [| k] eqn:E; [lia |].
  cbn [take]. left.
Qed.

(** C5, amended.  [soDeplete] and [soReplenish] have no guard of their own.
    On an empty insertion cache [soDeplete] never returns with success: it
    reads the slot [cacheIdx - 1] of the cache.  On a full retrieval cache
    ([cacheIdx = 0]), when the free clusters are accounted for, the chain
    being [l], and [l] holds at least [DZONE_CACHE_SIZE] clusters,
    [soReplenish] overwrites the whole cache with the first
    [DZONE_CACHE_SIZE] clusters of [l], moves [dHead] past them and leaves
    [dZoneFree] as it was: the state it returns is not the state it was
    called on.  It is their callers that leave them out:
    [soFreeDataCluster] on an insertion cache that is not full, and
    [soAllocDataCluster] on a retrieval cache that is not empty and a clean
    cluster, keep [dHead], [dTail], the other cache and every data cluster
    but the one released or allocated. *)
Theorem C5_helpers_rely_on_their_callers (s s' : FS) :
  (cacheIdx (dZoneInsert (sb s)) = 0 ->
   Z.of_nat (length (cache (dZoneInsert (sb s)))) < 4294967296 ->
   forall u, soDeplete s <> Ok u s')
  /\ (forall c,
        cacheIdx (dZoneInsert (sb s)) <> DZONE_CACHE_SIZE ->
        soFreeDataCluster c s = Ok tt s' ->
        dHead (sb s') = dHead (sb s) /\ dTail (sb s') = dTail (sb s)
        /\ dZoneRetriev (sb s') = dZoneRetriev (sb s)
        /\ (forall a, a <> phys (sb s) c -> dzone s' !! a = dzone s !! a))
  /\ (forall n p c,
        cacheIdx (dZoneRetriev (sb s)) <> DZONE_CACHE_SIZE ->
        (forall dc, dzone s !! phys (sb s) c = Some dc ->
                    stat dc = NULL_INODE) ->
        soAllocDataCluster n p s = Ok c s' ->
        dHead (sb s') = dHead (sb s) /\ dTail (sb s') = dTail (sb s)
        /\ dZoneInsert (sb s') = dZoneInsert (sb s)
        /\ (forall a, a <> phys (sb s) c -> dzone s' !! a = dzone s !! a))
  /\ (forall l,
        FreeInv s l ->
        cacheIdx (dZoneRetriev (sb s)) = 0 ->
        (Z.to_nat DZONE_CACHE_SIZE <= length l)%nat ->
        soReplenish s = Ok tt s' ->
        cache (dZoneRetriev (sb s')) = take (Z.to_nat DZONE_CACHE_SIZE) l
        /\ cacheIdx (dZoneRetriev (sb s')) = 0
        /\ dHead (sb s')
           = hd NULL_CLUSTER (drop (Z.to_nat DZONE_CACHE_SIZE) l)
        /\ dZoneFree (sb s') = dZoneFree (sb s)
        /\ s' <> s).
Proof.
  split; [| split; [| split]].
  4: { intros l Hinv Hidx Hlen H. exact (soReplenish_full s s' l Hinv Hidx Hlen H). }
  - intros Hk Hlen u. apply soDeplete_empty; assumption.
  - intros c Hidx H.
    destruct (soFreeDataCluster_frame s s' c Hidx H)
      as (H1 & H2 & H3 & _ & _ & H6).
    repeat split; assumption.
  - intros n p c Hidx Hcl H.
    destruct (soAllocDataCluster_frame s s' n p c Hidx Hcl H)
      as (H1 & H2 & H3 & _ & _ & _ & H7).
    repeat split; assumption.
Qed.

End Props.

(** ** Outcomes of a call *)

Lemma post_bind {A B} (m : M A) (k : A -> M B) s Qok Qerr Qu :
  post m s (fun a s1 => post (k a) s1 Qok Qerr Qu) Qerr Qu ->
  post (bind m k) s Qok Qerr Qu.
Proof. unfold post, bind. destruct (m s); auto. Qed.

Lemma post_weaken {A} (m : M A) s (Q1 Q2 : A -> FS -> Prop)
    (E1 E2 : errno -> FS -> Prop) (U1 U2 : Prop) :
  post m s Q1 E1 U1 ->
  (forall a s', Q1 a s' -> Q2 a s') ->
  (forall e s', E1 e s' -> E2 e s') ->
  (U1 -> U2) ->
  post m s Q2 E2 U2.
Proof. unfold post. destruct (m s); auto. Qed.

Lemma post_ret {A} (a : A) s (Qok : A -> FS -> Prop) Qerr Qu :
  Qok a s -> post (ret a) s Qok Qerr Qu.
Proof. auto. Qed.

Lemma post_fail {A} e s (Qok : A -> FS -> Prop) (Qerr : errno -> FS -> Prop) Qu :
  Qerr e s -> post (fail e) s Qok Qerr Qu.
Proof. auto. Qed.

Lemma post_undef {A} s (Qok : A -> FS -> Prop) (Qerr : errno -> FS -> Prop)
    (Qu : Prop) :
  Qu -> post (@undef A) s Qok Qerr Qu.
Proof. auto. Qed.

Lemma post_fail_if c e s (Qok : unit -> FS -> Prop) Qerr Qu :
  (c = true -> Qerr e s) -> (c = false -> Qok tt s) ->
  post (fail_if c e) s Qok Qerr Qu.
Proof.
  unfold post, fail_if. destruct c; cbn; intros H1 H2;
    [apply H1 | apply H2]; reflexivity.
Qed.

Lemma post_check r s (Qok : unit -> FS -> Prop) Qerr Qu :
  (forall e, r = Some e -> Qerr e s) -> (r = None -> Qok tt s) ->
  post (check r) s Qok Qerr Qu.
Proof.
  unfold post, check. destruct r; cbn; intros H1 H2;
    [apply H1 | apply H2]; reflexivity.
Qed.

Lemma post_get s (Qok : FS -> FS -> Prop) Qerr Qu :
  Qok s s -> post get s Qok Qerr Qu.
Proof. auto. Qed.

Lemma post_soGetSuperBlock s (Qok : SOSuperBlock -> FS -> Prop) Qerr Qu :
  Qok (sb s) s -> post soGetSuperBlock s Qok Qerr Qu.
Proof. auto. Qed.

Lemma post_modify_sb f s (Qok : unit -> FS -> Prop) Qerr Qu :
  Qok tt (set_sb (f (sb s)) s) -> post (modify_sb f) s Qok Qerr Qu.
Proof. auto. Qed.

Lemma post_store p v s (Qok : Z -> FS -> Prop) Qerr (Qu : Prop) :
  (p = None -> Qu) -> (p <> None -> Qok v s) ->
  post (store p v) s Qok Qerr Qu.
Proof.
  unfold post, store. destruct p; cbn; intros H1 H2; [apply H2 | apply H1];
    congruence.
Qed.

Lemma post_rd_var v s (Qok : Z -> FS -> Prop) Qerr (Qu : Prop) :
  (v = None -> Qu) -> (forall x, v = Some x -> Qok x s) ->
  post (rd_var v) s Qok Qerr Qu.
Proof. unfold post, rd_var. destruct v; cbn; auto. Qed.

Lemma post_arr_get {A} (l : list A) i s (Qok : A -> FS -> Prop) Qerr
    (Qu : Prop) :
  (forall v, 0 <= i -> l !! Z.to_nat i = Some v -> Qok v s) ->
  ((i < 0 \/ Z.of_nat (length l) <= i) -> Qu) ->
  post (arr_get l i) s Qok Qerr Qu.
Proof.
  unfold post, arr_get. intros H1 H2.
  destruct (0 <=? i) eqn:E; [apply Z.leb_le in E | apply Z.leb_gt in E].
  - destruct (l !! Z.to_nat i) eqn:El; cbn; [apply H1; auto |].
    apply H2. apply lookup_ge_None in El. lia.
  - apply H2. lia.
Qed.

Lemma post_arr_set {A} (l : list A) i v s (Qok : list A -> FS -> Prop) Qerr
    (Qu : Prop) :
  (0 <= i < Z.of_nat (length l) -> Qok (<[Z.to_nat i := v]> l) s) ->
  ((i < 0 \/ Z.of_nat (length l) <= i) -> Qu) ->
  post (arr_set l i v) s Qok Qerr Qu.
Proof.
  unfold post, arr_set. intros H1 H2.
  destruct ((0 <=? i) && (i <? Z.of_nat (length l))) eqn:E; cbn.
  - apply andb_true_iff in E. apply H1. lia.
  - apply andb_false_iff in E. apply H2. lia.
Qed.

Lemma post_soReadCacheCluster nBlk s (Qok : SODataClust -> FS -> Prop)
    (Qerr : errno -> FS -> Prop) Qu :
  (forall dc, dzone s !! nBlk = Some dc -> Qok dc s) ->
  (dzone s !! nBlk = None -> Qerr EINVAL s) ->
  post (soReadCacheCluster nBlk) s Qok Qerr Qu.
Proof.
  unfold post, soReadCacheCluster. destruct (dzone s !! nBlk); auto.
Qed.

Lemma post_soWriteCacheCluster nBlk dc s (Qok : unit -> FS -> Prop)
    (Qerr : errno -> FS -> Prop) Qu :
  (is_Some (dzone s !! nBlk) ->
   Qok tt (set_dzone (<[nBlk := dc]> (dzone s)) s)) ->
  (dzone s !! nBlk = None -> Qerr EINVAL s) ->
  post (soWriteCacheCluster nBlk dc) s Qok Qerr Qu.
Proof.
  unfold post, soWriteCacheCluster. destruct (dzone s !! nBlk) eqn:E; eauto.
Qed.

Section Prims.
Context {P : Params} {L : Lower}.

Lemma post_soConvertRefInT n s (Qok : Z * Z -> FS -> Prop)
    (Qerr : errno -> FS -> Prop) Qu :
  (0 <= n < iTotal (sb s) -> Qok (n / IPB, n mod IPB) s) ->
  (~ 0 <= n < iTotal (sb s) -> Qerr EINVAL s) ->
  post (soConvertRefInT n) s Qok Qerr Qu.
Proof.
  unfold post, soConvertRefInT, bind, soGetSuperBlock. intros H1 H2.
  destruct ((0 <=? n) && (n <? iTotal (sb s))) eqn:E; cbn.
  - apply andb_true_iff in E. apply H1. lia.
  - apply andb_false_iff in E. apply H2. lia.
Qed.

Lemma post_soLoadBlockInT nBlk s (Qok : unit -> FS -> Prop)
    (Qerr : errno -> FS -> Prop) Qu :
  (0 <= nBlk < iTableSize (sb s) -> Qok tt s) ->
  (~ 0 <= nBlk < iTableSize (sb s) -> Qerr EINVAL s) ->
  post (soLoadBlockInT nBlk) s Qok Qerr Qu.
Proof.
  unfold post, soLoadBlockInT, bind, soGetSuperBlock. intros H1 H2.
  destruct ((0 <=? nBlk) && (nBlk <? iTableSize (sb s))) eqn:E; cbn.
  - apply andb_true_iff in E. apply H1. lia.
  - apply andb_false_iff in E. apply H2. lia.
Qed.

Lemma post_inode_rd nBlk offset s (Qok : SOInode -> FS -> Prop) Qerr
    (Qu : Prop) :
  (forall i, itable s !! (nBlk * IPB + offset) = Some i -> Qok i s) ->
  (itable s !! (nBlk * IPB + offset) = None -> Qu) ->
  post (inode_rd nBlk offset) s Qok Qerr Qu.
Proof.
  unfold post, inode_rd. destruct (itable s !! (nBlk * IPB + offset)); auto.
Qed.

Lemma post_inode_wr nBlk offset f s (Qok : unit -> FS -> Prop) Qerr
    (Qu : Prop) :
  (forall i, itable s !! (nBlk * IPB + offset) = Some i ->
             Qok tt (set_itable (<[nBlk * IPB + offset := f i]> (itable s)) s)) ->
  (itable s !! (nBlk * IPB + offset) = None -> Qu) ->
  post (inode_wr nBlk offset f) s Qok Qerr Qu.
Proof.
  unfold post, inode_wr. destruct (itable s !! (nBlk * IPB + offset)); auto.
Qed.

Lemma post_time_now s (Qok : Z -> FS -> Prop) Qerr Qu :
  Qok (clock s) s -> post time_now s Qok Qerr Qu.
Proof. auto. Qed.

Lemma post_checkStatDC c s (Qok : clt_stat -> FS -> Prop)
    (Qerr : errno -> FS -> Prop) Qu :
  (forall st, soQCheckStatDC s c = inr st -> Qok st s) ->
  (forall e, soQCheckStatDC s c = inl e -> Qerr e s) ->
  post (checkStatDC c) s Qok Qerr Qu.
Proof. unfold post, checkStatDC. destruct (soQCheckStatDC s c); auto. Qed.

End Prims.

Lemma post_try_status {A} (m : M A) s (Qok : errno + A -> FS -> Prop) Qerr Qundef :
  post m s (fun a s' => Qok (inr a) s') (fun e s' => Qok (inl e) s') Qundef ->
  post (try_status m) s Qok Qerr Qundef.
Proof. unfold post, try_status. destruct (m s); auto. Qed.

Lemma post_remap {A} e (m : M A) s Qok (Qerr : errno -> FS -> Prop) Qundef :
  post m s Qok (fun _ s' => Qerr e s') Qundef ->
  post (remap e m) s Qok Qerr Qundef.
Proof. unfold post, remap. destruct (m s); auto. Qed.

(** One step of a computation of [post]. *)
Ltac wp_step :=
  lazymatch goal with
  | |- post (bind _ _) _ _ _ _ => apply post_bind
  | |- post (ret _) _ _ _ _ => apply post_ret
  | |- post (try_status _) _ _ _ _ => apply post_try_status
  | |- post (remap _ _) _ _ _ _ => apply post_remap
  | |- post (fail _) _ _ _ _ => apply post_fail
  | |- post undef _ _ _ _ => apply post_undef
  | |- post (fail_if _ _) _ _ _ _ =>
      apply post_fail_if; intros ?
  | |- post (check _) _ _ _ _ =>
      apply post_check; [intros ? ? | intros ?]
  | |- post get _ _ _ _ => apply post_get
  | |- post soGetSuperBlock _ _ _ _ => apply post_soGetSuperBlock
  | |- post soLoadSuperBlock _ _ _ _ => apply post_ret
  | |- post soStoreSuperBlock _ _ _ _ => apply post_ret
  | |- post soStoreBlockInT _ _ _ _ => apply post_ret
  | |- post (modify_sb _) _ _ _ _ => apply post_modify_sb
  | |- post (store _ _) _ _ _ _ => apply post_store; intros ?
  | |- post (rd_var _) _ _ _ _ =>
      apply post_rd_var; [intros ? | intros ? ?]
  | |- post (arr_get _ _) _ _ _ _ =>
      apply post_arr_get; [intros ? ? ? | intros ?]
  | |- post (arr_set _ _ _) _ _ _ _ =>
      apply post_arr_set; intros ?
  | |- post (soReadCacheCluster _) _ _ _ _ =>
      apply post_soReadCacheCluster; [intros ? ? | intros ?]
  | |- post (soWriteCacheCluster _ _) _ _ _ _ =>
      apply post_soWriteCacheCluster; intros ?
  | |- post (soConvertRefInT _) _ _ _ _ =>
      apply post_soConvertRefInT; intros ?
  | |- post (soLoadBlockInT _) _ _ _ _ =>
      apply post_soLoadBlockInT; intros ?
  | |- post (inode_rd _ _) _ _ _ _ =>
      apply post_inode_rd; [intros ? ? | intros ?]
  | |- post (inode_wr _ _ _) _ _ _ _ =>
      apply post_inode_wr; [intros ? ? | intros ?]
  | |- post time_now _ _ _ _ => apply post_time_now
  | |- post (checkStatDC _) _ _ _ _ =>
      apply post_checkStatDC; intros ? ?
  | |- post (if ?c then _ else _) _ _ _ _ =>
      let E := fresh "E" in destruct c eqn:E
  | |- post (let '(_, _) := ?r in _) _ _ _ _ => destruct r
  | |- post (match ?r with inl _ => _ | inr _ => _ end) _ _ _ _ => destruct r
  end.

Ltac wp := repeat (wp_step; cbv beta).

Ltac wp_more :=
  lazymatch goal with
  | |- post (match ?r with Some _ => _ | None => _ end) _ _ _ _ =>
      let E := fresh "E" in destruct r eqn:E
  | |- post (fun _ => Ok _ _) _ _ _ _ => unfold post at 1; cbv beta iota
  end.

Ltac wpx := repeat ((wp_step || wp_more); cbv beta).

(** The tests of the code, as propositions. *)
Ltac tests :=
  repeat match goal with
         | H : (_ =? _) = true |- _ => apply Z.eqb_eq in H
         | H : (_ =? _) = false |- _ => apply Z.eqb_neq in H
         | H : (_ <=? _) = true |- _ => apply Z.leb_le in H
         | H : (_ <=? _) = false |- _ => apply Z.leb_gt in H
         | H : (_ <? _) = true |- _ => apply Z.ltb_lt in H
         | H : (_ <? _) = false |- _ => apply Z.ltb_ge in H
         | H : negb _ = true |- _ => apply negb_true_iff in H
         | H : negb _ = false |- _ => apply negb_false_iff in H
         | H : (_ || _) = false |- _ =>
             apply orb_false_iff in H; destruct H as [? ?]
         | H : (_ && _) = true |- _ =>
             apply andb_true_iff in H; destruct H as [? ?]
         end.

(** Two lookups of one key give one value. *)
Ltac unify_lookups :=
  repeat match goal with
         | G1 : ?m !! ?k = Some ?x, G2 : ?m !! ?k = Some ?y |- _ =>
             assert_fails (constr_eq x y); is_var y;
             assert (y = x) by congruence; subst y
         end.

Lemma post_Ok {A} (m : M A) s Qok Qerr Qu a s' :
  post m s Qok Qerr Qu -> m s = Ok a s' -> Qok a s'.
Proof. unfold post. intros H E. rewrite E in H. exact H. Qed.

Lemma post_Err {A} (m : M A) s (Qok : A -> FS -> Prop) Qerr Qu e s' :
  post m s Qok Qerr Qu -> m s = Err e s' -> Qerr e s'.
Proof. unfold post. intros H E. rewrite E in H. exact H. Qed.

Lemma post_any {A} (m : M A) s (Qok : A -> FS -> Prop) :
  (forall a s', Qok a s') -> post m s Qok (fun _ _ => True) True.
Proof. intros H. unfold post. destruct (m s); auto. Qed.

(** ** The table of inodes *)

Section Inodes.
Context {P : Params} {L : Lower}.

Lemma inode_key n : 0 < IPB -> n / IPB * IPB + n mod IPB = n.
Proof. intros H. pose proof (Z.div_mod n IPB). lia. Qed.

Lemma overwrite_inode (p po : SOInode) :
  set_i2 (i2 p) (set_i1 (i1 p) (set_d (d p)
    (set_vD2 (vD2 p) (set_vD1 (vD1 p)
    (set_cluCount (cluCount p) (set_size (size p)
    (set_group (group p) (set_owner (owner p)
    (set_refCount (refCount p)
    (set_mode (mode p) po)))))))))) = p.
Proof. destruct p. reflexivity. Qed.

(** What [soReadInode] does, for every outcome. *)
Lemma soReadInode_post (nInode status : Z) (s : FS) :
  0 < IPB ->
  post (soReadInode nInode status) s
    (fun i s' =>
       exists i0,
         itable s !! nInode = Some i0
         /\ ((status = IUIN /\ i = set_vD1 (clock s) i0
              /\ s' = set_itable (<[nInode := i]> (itable s)) s)
             \/ (status = FDIN /\ i = i0 /\ s' = s)))
    (fun _ s' => s' = s)
    (itable s !! nInode = None).
Proof.
  intros HIPB. unfold soReadInode. wp; cbn in *;
    rewrite ?(inode_key nInode HIPB) in *; try reflexivity; try assumption.
  - rewrite lookup_insert_eq in H6. injection H6 as <-.
    exists i0. split; [assumption |]. left.
    apply Z.eqb_eq in E. repeat split. exact E.
  - rewrite lookup_insert_eq in H6. discriminate H6.
  - exists i0. split; [assumption |]. right.
    apply negb_false_iff, Z.eqb_eq in H0. repeat split. exact H0.
Qed.

(** X1.  [soReadInode] answers the inode the table of inodes holds.  For an
    inode in use it first sets the time of the last access of the inode
    to the current time, in the table and in the answer, and changes
    nothing else; for a free inode in the dirty state it changes nothing.
    When it fails the state is as before the call, and its behaviour is
    undefined only when the table has no inode of that number. *)
Theorem X1_soReadInode_touches_access_time (nInode status : Z) (s : FS) :
  0 < IPB ->
  (forall i s', soReadInode nInode status s = Ok i s' ->
     exists i0,
       itable s !! nInode = Some i0
       /\ ((status = IUIN /\ i = set_vD1 (clock s) i0
            /\ s' = set_itable (<[nInode := i]> (itable s)) s)
           \/ (status = FDIN /\ i = i0 /\ s' = s)))
  /\ (forall e s', soReadInode nInode status s = Err e s' -> s' = s)
  /\ (soReadInode nInode status s = Undef -> itable s !! nInode = None).
Proof.
  intros HIPB. pose proof (soReadInode_post nInode status s HIPB) as Hp.
  unfold post in Hp.
  destruct (soReadInode nInode status s) as [i1 s1 | e1 s1 |].
  - split; [| split]; [| discriminate | discriminate].
    intros i s' [= <- <-]. exact Hp.
  - split; [| split]; [discriminate | | discriminate].
    intros e s' [= _ <-]. exact Hp.
  - split; [| split]; [discriminate | discriminate |].
    intros _. exact Hp.
Qed.

(** X2.  After [soWriteInode] succeeds the table holds the inode written
    under that number (for an inode in use, with both times set to the
    time of the write), every other inode, the superblock and the data
    zone are as before.  A [soReadInode] of the same number and status
    that follows is never undefined; when it succeeds it answers the inode
    written, with the time of the last access set to the time of the read
    for an inode in use, and when it fails it leaves the state as it is. *)
Theorem X2_inode_write_read_round_trip (p : SOInode) (nInode status : Z)
    (s s1 : FS) :
  0 < IPB ->
  soWriteInode p nInode status s = Ok tt s1 ->
  let stored := if status =? IUIN
                then set_vD2 (clock s) (set_vD1 (clock s) p) else p in
  itable s1 !! nInode = Some stored
  /\ (forall a, a <> nInode -> itable s1 !! a = itable s !! a)
  /\ sb s1 = sb s /\ dzone s1 = dzone s
  /\ post (soReadInode nInode status) s1
       (fun r _ => r = if status =? IUIN then set_vD1 (clock s1) stored
                       else stored)
       (fun _ s2 => s2 = s1) False.
Proof.
  intros HIPB H stored.
  assert (Hst : itable s1 !! nInode = Some stored
                /\ (forall a, a <> nInode -> itable s1 !! a = itable s !! a)
                /\ sb s1 = sb s /\ dzone s1 = dzone s
                /\ clock s1 = clock s).
  { unfold soWriteInode in H.
    inv_ok H; cbn [sb itable dzone clock set_itable] in *;
      rewrite ?(inode_key nInode HIPB) in *; subst stored; cbv iota.
    - match goal with
      | G : <[_ := _]> _ !! _ = Some _ |- _ =>
          rewrite lookup_insert_eq, overwrite_inode in G; injection G as <-
      end.
      rewrite insert_insert_eq, lookup_insert_eq.
      repeat split. intros k Hk. apply lookup_insert_ne. congruence.
    - rewrite lookup_insert_eq, overwrite_inode.
      repeat split. intros k Hk. apply lookup_insert_ne. congruence. }
  destruct Hst as (Hs1 & Hfr & Hsb & Hdz & Hck).
  repeat (split; [assumption |]).
  eapply post_weaken; [apply (soReadInode_post _ _ _ HIPB) | | |].
  - cbn. intros r s2 (i0 & Hi0 & [(Hiu & -> & _) | (Hfd & -> & _)]).
    + rewrite Hs1 in Hi0. injection Hi0 as <-.
      apply Z.eqb_eq in Hiu. rewrite Hiu. reflexivity.
    + rewrite Hs1 in Hi0. injection Hi0 as <-.
      subst status. reflexivity.
  - auto.
  - cbn. congruence.
Qed.

Lemma nodup_range_length (n : Z) (xs : list Z) :
  NoDup xs -> Forall (fun x => 0 <= x < n) xs ->
  Z.of_nat (length xs) <= Z.max 0 n.
Proof.
  intros Hnd Hr.
  assert (H : xs ⊆+ seqZ 0 n).
  { apply NoDup_submseteq; [exact Hnd |]. intros x Hx.
    rewrite Forall_forall in Hr. apply Hr in Hx.
    apply elem_of_seqZ. lia. }
  apply submseteq_length in H. rewrite length_seqZ in H. lia.
Qed.

Lemma ichain_ext it it' h l :
  (forall n i, n ∈ l -> it !! n = Some i ->
               exists i', it' !! n = Some i' /\ vD1 i' = vD1 i) ->
  ichain it h l -> ichain it' h l.
Proof.
  intros Hd Hc. induction Hc as [| n i l Hn Hl Hc IH].
  - constructor.
  - destruct (Hd n i) as (i' & Hl' & Hnx); [left | exact Hl |].
    econstructor; [exact Hn | exact Hl' |].
    rewrite Hnx. apply IH. intros n0 i0 Hin. apply Hd. right. exact Hin.
Qed.

Lemma ichain_snoc it it' h l n :
  NoDup l -> l <> [] ->
  (forall x i, x ∈ l -> x <> default NULL_INODE (last l) ->
               it !! x = Some i ->
               exists i', it' !! x = Some i' /\ vD1 i' = vD1 i) ->
  (exists i', it' !! default NULL_INODE (last l) = Some i' /\ vD1 i' = n) ->
  ichain it' n [n] ->
  ichain it h l -> ichain it' h (l ++ [n]).
Proof.
  intros Hnd Hne Hd Hlast Hcs Hc.
  induction Hc as [| c dc l Hn Hl Hc IH]; [congruence |].
  destruct l as [| c' l'].
  - cbn in *. destruct Hlast as (dc' & Hl' & Hnx).
    econstructor; [exact Hn | exact Hl' |]. rewrite Hnx. exact Hcs.
  - apply NoDup_cons in Hnd. destruct Hnd as [Hnin Hnd].
    rewrite last_cons_cons in *.
    assert (Hin : default NULL_INODE (last (c' :: l')) ∈ c' :: l').
    { destruct (last (c' :: l')) as [x |] eqn:E.
      - apply last_Some_elem_of in E. exact E.
      - apply last_None in E. discriminate. }
    destruct (Hd c dc) as (dc' & Hl' & Hnx); [left | | exact Hl |].
    { intros ->. contradiction. }
    cbn [app]. econstructor; [exact Hn | exact Hl' |].
    rewrite Hnx. apply IH; try assumption; [discriminate |].
    intros c0' dc0 Hin0 Hne0. apply Hd; [right; exact Hin0 | exact Hne0].
Qed.


Lemma ichain_lookup it h l x :
  ichain it h l -> x ∈ l -> exists i, it !! x = Some i.
Proof.
  induction 1 as [| n i l Hn Hl Hc IH]; intros Hx.
  - apply elem_of_nil in Hx. contradiction.
  - apply elem_of_cons in Hx. destruct Hx as [-> | Hx]; eauto.
Qed.

Lemma ichain_cons_inv it h n l :
  ichain it h (n :: l) ->
  h = n /\ n <> NULL_INODE
  /\ exists i, it !! n = Some i /\ ichain it (vD1 i) l.
Proof. inversion 1; subst. eauto. Qed.

Lemma ichain_nil_inv it h : ichain it h [] -> h = NULL_INODE.
Proof. inversion 1. reflexivity. Qed.

Lemma blk_in_table n total tsize :
  0 < IPB -> 0 <= n < total -> total <= tsize * IPB ->
  0 <= n / IPB < tsize.
Proof.
  intros Hipb Hn Ht. split.
  - apply Z.div_pos; lia.
  - apply Z.div_lt_upper_bound; lia.
Qed.

Lemma fresh_overwrite type u g t i :
  set_d (replicate (Z.to_nat N_DIRECT) NULL_CLUSTER)
    (set_i2 NULL_CLUSTER (set_i1 NULL_CLUSTER (set_cluCount 0 (set_size 0
    (set_refCount 0 (set_vD2 t (set_vD1 t (set_group g
    (set_owner u (set_mode type i))))))))))
  = fresh_inode type u g t.
Proof. destruct i. reflexivity. Qed.

(** X3.  When the free inodes form the list [l] and the inode at its head
    is in the clean state, [soAllocInode] cannot fail but for want of a
    free inode: on an empty list it answers [-ENOSPC] and leaves the state
    as it is; otherwise it answers the head of the list, leaves the rest
    of the list as the list of the free inodes, and leaves in the table
    an inode of the type asked for, owned by the caller, with no
    references and no clusters, and with both times set to the current
    time.  Apart from that inode and the new head of the list no inode
    changes, and the data zone is as before. *)
Theorem X3_soAllocInode_takes_the_head (type : Z) (p : option Z) (s : FS)
    (l : list Z) :
  InodeInv s l ->
  p <> None ->
  type = INODE_DIR \/ type = INODE_FILE \/ type = INODE_SYMLINK ->
  soQCheckSuperBlock s = None -> soQCheckInT s = None ->
  (forall i, itable s !! iHead (sb s) = Some i -> soQCheckFCInode i = None) ->
  post (soAllocInode type p) s
    (fun r s' =>
       exists l', l = r :: l'
         /\ InodeInv s' l'
         /\ itable s' !! r = Some (fresh_inode type (uid s) (gid s) (clock s))
         /\ (forall a, a <> r -> a <> hd NULL_INODE l' ->
                       itable s' !! a = itable s !! a)
         /\ dzone s' = dzone s)
    (fun e s' => l = [] /\ e = ENOSPC /\ s' = s)
    False.
Proof.
  intros [Hipb Htab Htot Hch Htl Hr Hnd Hcnt] Hp Hty Hsb Hint Hfc.
  assert (Hty' : negb (type =? INODE_DIR) && negb (type =? INODE_FILE)
                 && negb (type =? INODE_SYMLINK) = false).
  { destruct Hty as [-> | [-> | ->]]; rewrite Z.eqb_refl; cbn;
      rewrite ?andb_false_r; reflexivity. }
  assert (Hp' : is_null p = false) by (destruct p; [reflexivity | congruence]).
  unfold soAllocInode. rewrite Hp', Hty'. cbn [orb].
  destruct l as [| n l'].
  { cbn in Hcnt. wpx; tests; try congruence; try lia. repeat split. }
  apply ichain_cons_inv in Hch. destruct Hch as (E1 & Hn & i & Hi & Hch').
  apply NoDup_cons in Hnd. destruct Hnd as [Hnin Hnd].
  apply Forall_cons in Hr. destruct Hr as [Hrn Hr].
  specialize (Hfc i). rewrite E1 in Hfc. specialize (Hfc Hi).
  cbn [length] in Hcnt. rewrite Nat2Z.inj_succ in Hcnt.
  pose proof (blk_in_table n _ _ Hipb Hrn Htab) as Hblk.
  pose proof (nodup_range_length _ _ Hnd Hr) as Hlen.
  unfold NULL_INODE in Htot.
  wpx; cbn [sb itable dzone uid gid clock set_sb set_itable fst snd] in *;
    rewrite ?E1 in *;
    rewrite ?(inode_key n Hipb) in *; tests; try congruence; try lia;
    repeat match goal with
           | G : itable s !! n = Some ?x |- _ =>
               assert_fails (constr_eq x i);
               assert (x = i) by congruence; subst x
           end;
    rewrite ?fresh_overwrite in *;
    cbn [iFree iHead iTail iTotal iTableSize set_iHead set_iTail set_iFree]
      in *.
  3-5: rewrite ?(inode_key (vD1 i) Hipb) in *;
      destruct l' as [| n2 l'']; [cbn in Hcnt; lia |];
      apply ichain_cons_inv in Hch'; destruct Hch' as (Hv & Hn2 & i2 & Hi2 & _);
      rewrite Hv in *;
      assert (n2 <> n) by (intros ->; apply Hnin; left);
      apply Forall_cons in Hr; destruct Hr as (Hrn2 & _);
      pose proof (blk_in_table n2 _ _ Hipb Hrn2 Htab);
      rewrite ?lookup_insert_ne in * by congruence;
      try congruence; try lia.
  - (* the last free inode *)
    assert (l' = []) by (destruct l'; [reflexivity | cbn in Hcnt; lia]).
    subst l'. exists []. split; [reflexivity |]. split.
    + constructor; cbn; try assumption.
      * constructor.
      * reflexivity.
      * rewrite E0. reflexivity.
    + split; [apply lookup_insert_eq |]. split; [| reflexivity].
      intros a Ha _. apply lookup_insert_ne. congruence.
  - (* the next one becomes the head *)
    rewrite (inode_key (vD1 i) Hipb) in *.
    destruct l' as [| n2 l'']; [cbn in Hcnt; lia |].
    apply ichain_cons_inv in Hch'.
    destruct Hch' as (Hv & Hn2 & in2 & Hi2 & Hch'').
    rewrite Hv in *.
    assert (n2 <> n) as Hne by (intros ->; apply Hnin; left).
    rewrite ?lookup_insert_ne in * by congruence.
    unify_lookups.
    exists (n2 :: l''). split; [reflexivity |]. split.
    + constructor; cbn [sb itable iTotal iTableSize iHead iTail iFree
        set_sb set_itable set_iFree set_iHead]; try assumption.
      * apply ichain_step with (i := set_vD2 NULL_INODE in2);
          [assumption | apply lookup_insert_eq |].
        replace (vD1 (set_vD2 NULL_INODE in2)) with (vD1 in2)
          by (destruct in2; reflexivity).
        apply NoDup_cons in Hnd. destruct Hnd as (Hn2in & _).
        eapply ichain_ext; [| exact Hch''].
        intros x ix Hx Hix. exists ix. split; [| reflexivity].
        rewrite !lookup_insert_ne; [exact Hix | |].
        -- intros ->. apply Hnin. right. exact Hx.
        -- intros ->. apply Hn2in. exact Hx.
      * rewrite Hcnt. cbn [length] in *. rewrite wrap32_small; lia.
    + split; [rewrite ?lookup_insert_ne by congruence; apply lookup_insert_eq |].
      split; [| reflexivity].
      intros a Ha Ha2. cbn [hd] in Ha2.
      rewrite ?lookup_insert_ne by congruence. reflexivity.
Qed.

(** X4.  When the free inodes form the list [l], [soFreeInode] of an inode
    in use that is not the root, has a legal type and no references left
    cannot fail: it puts the inode at the end of the list, so that [l]
    followed by the inode is the list of the free inodes.  The inode is
    left in the dirty state: its mode gains the flag [INODE_FREE], its
    links are those of the last element of the list, and its other fields,
    among them the references to its data clusters, stay.  Apart from it
    and the former tail of the list no inode changes, and the data zone is
    as before. *)
Theorem X4_soFreeInode_appends_to_the_tail (n : Z) (s : FS) (l : list Z)
    (i : SOInode) :
  InodeInv s l -> 0 < n < iTotal (sb s) -> n ∉ l ->
  itable s !! n = Some i ->
  soQCheckInT s = None -> soQCheckInodeIU s i = None ->
  legal_type (mode i) = true -> refCount i = 0 ->
  post (soFreeInode n) s
    (fun _ s' => InodeInv s' (l ++ [n])
       /\ itable s' !! n
          = Some (set_vD1 NULL_INODE (set_vD2 (iTail (sb s))
                    (set_mode (Z.lor (mode i) INODE_FREE) i)))
       /\ (forall a, a <> n -> a <> iTail (sb s) ->
             itable s' !! a = itable s !! a)
       /\ dzone s' = dzone s)
    (fun _ _ => False)
    False.
Proof.
  intros [Hipb Htab Htot Hch Htl Hr Hnd Hcnt] Hn Hnin Hi Hint Hiu Hlt Hrc.
  pose proof (blk_in_table n _ _ Hipb (conj (Z.lt_le_incl _ _ (proj1 Hn)) (proj2 Hn)) Htab) as Hblk.
  assert (NoDup (l ++ [n])) as Hnd'.
  { apply NoDup_app. split; [exact Hnd |]. split; [| apply NoDup_singleton].
    intros x Hx Hx'. apply list_elem_of_singleton in Hx'. subst x. auto. }
  assert (Forall (fun n => 0 <= n < iTotal (sb s)) (l ++ [n])) as Hr'.
  { apply Forall_app. split; [exact Hr |]. constructor; [lia | constructor]. }
  pose proof (nodup_range_length _ _ Hnd' Hr') as Hlen.
  rewrite length_app in Hlen. cbn [length] in Hlen.
  unfold NULL_INODE in Htot.
  assert (l = [] /\ iTail (sb s) = NULL_INODE
          \/ exists t it_, last l = Some t /\ iTail (sb s) = t /\ t ∈ l
               /\ t <> n /\ 0 <= t < iTotal (sb s)
               /\ 0 <= t / IPB < iTableSize (sb s)
               /\ itable s !! t = Some it_ /\ l <> []) as Hcase.
  { destruct (last l) as [t |] eqn:Hlast.
    - right. cbn in Htl.
      assert (t ∈ l) as Ht.
      { apply last_Some in Hlast. destruct Hlast as (l0 & ->).
        apply elem_of_app. right. left. }
      assert (0 <= t < iTotal (sb s)) as Hrt
        by (rewrite Forall_forall in Hr; apply Hr; exact Ht).
      destruct (ichain_lookup _ _ _ _ Hch Ht) as (it_ & Hit).
      exists t, it_. repeat split; try assumption; try lia.
      + intros ->. auto.
      + apply (blk_in_table t _ _ Hipb Hrt Htab).
      + apply (blk_in_table t _ _ Hipb Hrt Htab).
      + intros ->. discriminate.
    - left. apply last_None in Hlast. subst l. split; [reflexivity | exact Htl]. }
  unfold soFreeInode.
  wpx; cbn [sb itable dzone uid gid clock set_sb set_itable fst snd] in *;
    rewrite ?(inode_key n Hipb) in *; tests; try congruence; try lia;
    repeat match goal with
           | G : itable s !! n = Some ?x |- _ =>
               assert_fails (constr_eq x i);
               assert (x = i) by congruence; subst x
           end;
    cbn [iFree iHead iTail iTotal iTableSize set_iHead set_iTail set_iFree]
      in *;
    rewrite ?lookup_insert_eq in *;
    repeat match goal with
           | G : Some _ = Some ?x |- _ =>
               is_var x; injection G as <-
           end;
    try discriminate;
    rewrite ?insert_insert_eq in *.
  3-5: destruct Hcase as [(-> & _) | (t & it_ & _ & Ht & _ & Htn & Hrt & Hbt & Hit & _)];
    [cbn in Hcnt; lia |];
    rewrite Ht in *; rewrite ?(inode_key t Hipb) in *;
    rewrite ?lookup_insert_ne in * by congruence; try congruence; try lia.
  - (* the list was empty *)
    destruct Hcase as [(-> & Ht) | (t & it_ & _ & _ & _ & _ & _ & _ & _ & Hne)];
      [| destruct l; [congruence | cbn in Hcnt; lia]].
    rewrite Ht. split; [| split; [reflexivity | split; [| reflexivity]]].
    + constructor; cbn [sb itable iTotal iTableSize iHead iTail iFree
        set_sb set_itable set_iFree set_iHead set_iTail app]; try assumption.
      * eapply ichain_step; [unfold NULL_INODE; lia | apply lookup_insert_eq |].
        replace (vD1 _) with NULL_INODE by (destruct i; reflexivity).
        constructor.
      * reflexivity.
      * rewrite E. reflexivity.
    + intros a Ha _. apply lookup_insert_ne. congruence.
  - (* the inode goes after the last one *)
    destruct Hcase as [(-> & _) | (t & it_ & Hlast & Ht & Htl' & Htn & Hrt & Hbt & Hit & Hne)];
      [cbn in Hcnt; lia |].
    rewrite Ht in *. rewrite (inode_key t Hipb) in *.
    rewrite ?lookup_insert_ne in * by congruence.
    unify_lookups.
    split; [| split; [| split; [| reflexivity]]].
    + constructor; cbn [sb itable iTotal iTableSize iHead iTail iFree
        set_sb set_itable set_iFree set_iHead set_iTail]; try assumption.
      * eapply ichain_snoc; [exact Hnd | exact Hne | | | | exact Hch].
        -- intros x ix Hx Hxt Hix. rewrite Hlast in Hxt. cbn in Hxt.
           exists ix. split; [| reflexivity].
           rewrite !lookup_insert_ne; [exact Hix | | congruence].
           intros ->. auto.
        -- rewrite Hlast. cbn. eexists. split; [apply lookup_insert_eq |].
           destruct it_; reflexivity.
        -- eapply ichain_step; [unfold NULL_INODE; lia | |].
           ++ rewrite lookup_insert_ne by congruence. apply lookup_insert_eq.
           ++ replace (vD1 _) with NULL_INODE by (destruct i; reflexivity).
              constructor.
      * rewrite last_snoc. reflexivity.
      * rewrite Hcnt, length_app. cbn [length]. rewrite wrap32_small; lia.
    + rewrite ?lookup_insert_ne by congruence. apply lookup_insert_eq.
    + intros a Ha Hat. rewrite ?lookup_insert_ne by congruence. reflexivity.
Qed.

End Inodes.

(** ** Data clusters, one at a time *)

Section DataClusters.
Context {P : Params} {L : Lower}.

(** X5.  [soFreeInode] succeeds only on an inode that may be freed: its
    number is neither 0, the root directory, nor beyond the table; the
    inode is in use, of a legal type, and no directory entry refers to
    it ([refCount] is 0). *)
Theorem X5_soFreeInode_guards (n : Z) (s s' : FS) :
  0 < IPB -> 0 <= n ->
  soFreeInode n s = Ok tt s' ->
  n <> 0 /\ n < iTotal (sb s)
  /\ exists i, itable s !! n = Some i
       /\ refCount i = 0 /\ legal_type (mode i) = true
       /\ soQCheckInodeIU s i = None.
Proof.
  intros Hipb Hn H.
  revert H.
  apply (post_Ok (soFreeInode n) s
           (fun _ _ => n <> 0 /\ n < iTotal (sb s)
              /\ exists i, itable s !! n = Some i
                   /\ refCount i = 0 /\ legal_type (mode i) = true
                   /\ soQCheckInodeIU s i = None)
           (fun _ _ => True) True).
  unfold soFreeInode.
  wpx; cbn [sb itable dzone set_sb set_itable] in *;
    try exact I; rewrite ?(inode_key n Hipb) in *; tests; try lia;
    (split; [assumption |]); (split; [assumption |]);
    match goal with
    | G : itable s !! n = Some ?x, G1 : refCount ?x = 0 |- _ =>
        exists x; repeat split; assumption
    end.
Qed.

(** X6.  When the retrieval cache is not empty, the cluster answered by
    [soAllocDataCluster] is the reference at [cacheIdx] of that cache.
    The call leaves the cluster with both links [NULL_CLUSTER] and with the
    inode number in [stat], and with the body it had before the call,
    also when the cluster was dirty and [soCleanDataCluster] ran in
    between: the copy read before the cleaning is the one written back.
    For a cluster that was clean no inode and no other cluster changes.
    The call succeeds only if some cluster is free and the inode number
    is in range. *)
Theorem X6_soAllocDataCluster_stamps_the_cluster (n : Z) (p : option Z)
    (c : Z) (s s' : FS) :
  cacheIdx (dZoneRetriev (sb s)) <> DZONE_CACHE_SIZE ->
  soAllocDataCluster n p s = Ok c s' ->
  dZoneFree (sb s) <> 0 /\ n < iTotal (sb s)
  /\ cache (dZoneRetriev (sb s)) !! Z.to_nat (cacheIdx (dZoneRetriev (sb s)))
     = Some c
  /\ exists dc,
       dzone s !! phys (sb s) c = Some dc
       /\ dzone s' !! phys (sb s') c
          = Some (mkDC NULL_CLUSTER NULL_CLUSTER n (info dc))
       /\ (stat dc = NULL_INODE ->
           itable s' = itable s
           /\ forall a, a <> phys (sb s) c -> dzone s' !! a = dzone s !! a).
Proof.
  intros Hidx. 
  apply (post_Ok (soAllocDataCluster n p) s
           (fun c s' => dZoneFree (sb s) <> 0 /\ n < iTotal (sb s)
  /\ cache (dZoneRetriev (sb s)) !! Z.to_nat (cacheIdx (dZoneRetriev (sb s)))
     = Some c
  /\ exists dc,
       dzone s !! phys (sb s) c = Some dc
       /\ dzone s' !! phys (sb s') c
          = Some (mkDC NULL_CLUSTER NULL_CLUSTER n (info dc))
       /\ (stat dc = NULL_INODE ->
           itable s' = itable s
           /\ forall a, a <> phys (sb s) c -> dzone s' !! a = dzone s !! a))
           (fun _ _ => True) True).
  unfold soAllocDataCluster.
  wpx; cbn [sb itable dzone set_sb set_itable set_dzone] in *;
    try exact I; tests; try lia; try congruence.
  - (* the cluster is dirty: [soCleanDataCluster] runs first *)
    unfold post at 1.
    destruct (soCleanDataCluster _ _ s) as [[] s1 | |]; [| exact I | exact I].
    wpx; cbn [sb itable dzone set_sb set_itable set_dzone] in *;
      try exact I; tests.
    repeat (split; [assumption |]).
    match goal with
    | G : dzone s !! phys (sb s) ?v = Some ?d |- _ => exists d
    end.
    split; [assumption |]. split; [| congruence].
    unfold phys. cbn [dZoneStart set_dZoneFree set_dZoneRetriev].
    rewrite lookup_insert_eq.
    match goal with |- Some (_ (_ (_ ?d))) = _ => destruct d end.
    reflexivity.
  - repeat (split; [assumption |]).
    match goal with
    | G : dzone s !! phys (sb s) ?v = Some ?d |- _ => exists d
    end.
    split; [assumption |]. split.
    + unfold phys. cbn [dZoneStart set_dZoneFree set_dZoneRetriev].
      rewrite lookup_insert_eq.
      match goal with |- Some (_ (_ (_ ?d))) = _ => destruct d end.
      reflexivity.
    + intros _. split; [reflexivity |].
      intros a Ha. apply lookup_insert_ne. congruence.
Qed.

Lemma soFreeDataCluster_guards (c : Z) (s : FS) :
  post (soFreeDataCluster c) s
    (fun _ _ => c <> 0 /\ c < dZoneTotal (sb s)
                /\ soQCheckStatDC s c = inr ALLOC_CLT)
    (fun _ _ => True) True.
Proof.
  unfold soFreeDataCluster.
  wpx; cbn [sb itable dzone set_sb set_itable set_dzone] in *;
    try exact I; tests;
    assert (Hg : c <> 0 /\ c < dZoneTotal (sb s)
                 /\ soQCheckStatDC s c = inr ALLOC_CLT)
    by (repeat (split; [assumption |]);
        match goal with
        | G : soQCheckStatDC s c = inr ?st, G1 : bool_decide _ = false |- _ =>
            rewrite G; destruct st;
            [reflexivity | rewrite bool_decide_eq_false in G1; congruence]
        end).
  - apply post_any. intros [] s1. apply post_any. intros [] s2. exact Hg.
  - exact Hg.
Qed.

Lemma soFreeDataCluster_dirty (c : Z) (s s' : FS) :
  cacheIdx (dZoneInsert (sb s)) <> DZONE_CACHE_SIZE ->
  soFreeDataCluster c s = Ok tt s' ->
  itable s' = itable s
  /\ exists dc,
       dzone s !! phys (sb s) c = Some dc
       /\ dzone s' !! phys (sb s) c
          = Some (mkDC NULL_CLUSTER NULL_CLUSTER (stat dc) (info dc)).
Proof.
  intros Hidx.
  apply (post_Ok (soFreeDataCluster c) s
           (fun _ s' => itable s' = itable s
  /\ exists dc,
       dzone s !! phys (sb s) c = Some dc
       /\ dzone s' !! phys (sb s) c
          = Some (mkDC NULL_CLUSTER NULL_CLUSTER (stat dc) (info dc)))
           (fun _ _ => True) True).
  unfold soFreeDataCluster.
  wpx; cbn [sb itable dzone set_sb set_itable set_dzone] in *;
    try exact I; tests; try lia; try congruence.
  split; [reflexivity |].
  match goal with
  | G : dzone s !! phys (sb s) c = Some ?d |- _ => exists d
  end.
  split; [assumption |].
  rewrite lookup_insert_eq.
  match goal with |- Some (_ (_ ?d)) = _ => destruct d end.
  reflexivity.
Qed.

(** X7.  [soFreeDataCluster] succeeds only on a cluster that is not
    cluster 0, lies in the data zone and is allocated according to the
    check of its status, whatever the state of the insertion cache.  When
    the insertion cache is not full it leaves the cluster in the dirty
    state: both links are [NULL_CLUSTER], [stat] and the body are those of
    before; no inode changes. *)
Theorem X7_soFreeDataCluster_leaves_the_cluster_dirty (c : Z) (s s' : FS) :
  soFreeDataCluster c s = Ok tt s' ->
  c <> 0 /\ c < dZoneTotal (sb s)
  /\ soQCheckStatDC s c = inr ALLOC_CLT
  /\ (cacheIdx (dZoneInsert (sb s)) <> DZONE_CACHE_SIZE ->
      itable s' = itable s
      /\ exists dc,
           dzone s !! phys (sb s) c = Some dc
           /\ dzone s' !! phys (sb s) c
              = Some (mkDC NULL_CLUSTER NULL_CLUSTER (stat dc) (info dc))).
Proof.
  intros H.
  destruct (post_Ok _ _ _ _ _ _ _ (soFreeDataCluster_guards c s) H)
    as (H0 & Hz & Hst).
  repeat (split; [assumption |]).
  intros Hidx. exact (soFreeDataCluster_dirty c s s' Hidx H).
Qed.

(** X8.  A cluster allocated and freed at once.  When the free clusters
    are accounted for, the retrieval cache is not empty, the insertion
    cache is not full and the cluster at hand is clean,
    [soAllocDataCluster] followed by [soFreeDataCluster] of the cluster it
    answered leaves the free clusters accounted for with the same chain
    and the same count: the reference has gone from the retrieval cache to
    the end of the insertion cache. *)
Theorem X8_alloc_then_free (n : Z) (p : option Z) (c : Z) (s s1 s2 : FS)
    (l : list Z) :
  FreeInv s l ->
  cacheIdx (dZoneRetriev (sb s)) <> DZONE_CACHE_SIZE ->
  cacheIdx (dZoneInsert (sb s)) <> DZONE_CACHE_SIZE ->
  (forall dc, dzone s !! phys (sb s) c = Some dc -> stat dc = NULL_INODE) ->
  soAllocDataCluster n p s = Ok c s1 ->
  soFreeDataCluster c s1 = Ok tt s2 ->
  FreeInv s2 l
  /\ dZoneFree (sb s2) = dZoneFree (sb s)
  /\ retrievable (sb s) = c :: retrievable (sb s2)
  /\ inserted (sb s2) = inserted (sb s) ++ [c].
Proof.
  intros Hinv Hret Hins Hclean Ha Hf.
  destruct (soAllocDataCluster_keeps_chain _ _ _ _ _ _ Hinv Hret Hclean Ha)
    as (Hinv1 & Hcnt1 & Hr1).
  destruct (soAllocDataCluster_frame _ _ _ _ _ Hret Hclean Ha)
    as (_ & _ & Hins1 & _).
  assert (Hins1' : cacheIdx (dZoneInsert (sb s1)) <> DZONE_CACHE_SIZE)
    by (rewrite Hins1; exact Hins).
  assert (Hi1 : inserted (sb s1) = inserted (sb s))
    by (unfold inserted; rewrite Hins1; reflexivity).
  pose proof (fi_nodup _ _ Hinv) as Hnd.
  pose proof (fi_range _ _ Hinv) as Hrg.
  unfold free_refs in Hnd, Hrg. rewrite Hr1 in Hnd, Hrg.
  assert (Hc0 : in_zone (sb s) c).
  { rewrite Forall_forall in Hrg. apply Hrg.
    rewrite !elem_of_app. right. right. left. }
  assert (Hnin : c ∉ free_refs (sb s1) l).
  { unfold free_refs. rewrite Hi1.
    rewrite !NoDup_app in Hnd. destruct Hnd as (_ & Hd1 & _ & Hd2 & Hd3).
    apply NoDup_cons in Hd3. destruct Hd3 as (Hd3 & _).
    rewrite !elem_of_app. intros [Hx | [Hx | Hx]].
    - apply (Hd1 c Hx). rewrite elem_of_app. right. left.
    - apply (Hd2 c Hx). left.
    - exact (Hd3 Hx). }
  destruct (soFreeDataCluster_inv _ _ _ _ Hinv1 (proj1 Hc0) Hnin Hf)
    as (Hinv2 & Hcnt2).
  destruct (soFreeDataCluster_frame _ _ _ Hins1' Hf)
    as (_ & _ & Hret2 & Hins2 & _).
  unfold chain_after_free in Hinv2.
  destruct (Z.eqb_spec (cacheIdx (dZoneInsert (sb s1))) DZONE_CACHE_SIZE)
    as [Heq | _]; [contradiction |].
  split; [exact Hinv2 |]. split; [lia |]. split.
  - unfold retrievable in *. rewrite Hret2. exact Hr1.
  - unfold inserted. rewrite Hins2, Hins1. cbn [cacheIdx cache].
    destruct (fi_ins _ _ Hinv) as (Hidx & Hlen).
    destruct (fi_geom _ _ Hinv) as (_ & Hsz & _).
    rewrite wrap32_small by lia.
    replace (Z.to_nat (cacheIdx (dZoneInsert (sb s)) + 1))
      with (S (Z.to_nat (cacheIdx (dZoneInsert (sb s))))) by lia.
    erewrite take_S_r by (apply list_lookup_insert_eq; lia).
    f_equal. first [apply take_insert_ge | apply take_insert]; lia.
Qed.

End DataClusters.

(** ** The clusters of a file *)

Section InodeRules.
Context {P : Params} {L : Lower}.

Lemma post_soReadInode n st s (Qok : SOInode -> FS -> Prop)
    (Qerr : errno -> FS -> Prop) (Qu : Prop) :
  0 < IPB ->
  (forall ino, itable s !! n = Some ino ->
     (st = IUIN ->
      Qok (set_vD1 (clock s) ino)
          (set_itable (<[n := set_vD1 (clock s) ino]> (itable s)) s))
     /\ (st = FDIN -> Qok ino s)) ->
  (forall e, Qerr e s) ->
  (itable s !! n = None -> Qu) ->
  post (soReadInode n st) s Qok Qerr Qu.
Proof.
  intros Hipb Hok Herr Hu.
  eapply post_weaken; [apply (soReadInode_post n st s Hipb) | | |].
  - cbn beta. intros i s' (i0 & Hi0 & [(Hst & -> & ->) | (Hst & -> & ->)]).
    + apply (proj1 (Hok i0 Hi0) Hst).
    + apply (proj2 (Hok i0 Hi0) Hst).
  - cbn beta. intros e s' ->. apply Herr.
  - exact Hu.
Qed.

Lemma ref_get_post dc k s (Qok : Z -> FS -> Prop) (Qerr : errno -> FS -> Prop) :
  (forall r v, info dc = IRef r -> 0 <= k -> r !! Z.to_nat k = Some v ->
     Qok v s) ->
  post (ref_get dc k) s Qok Qerr True.
Proof.
  intros H. unfold ref_get, ref_of.
  destruct (info dc) as [l | r | e] eqn:E; wpx; try exact I.
  eapply H; eauto.
Qed.

Lemma soWriteInode_post (p : SOInode) (n st : Z) (s : FS) :
  0 < IPB ->
  post (soWriteInode p n st) s
    (fun _ s' =>
       is_Some (itable s !! n)
       /\ s' = set_itable
                (<[n := if st =? IUIN
                        then set_vD2 (clock s) (set_vD1 (clock s) p)
                        else p]> (itable s)) s)
    (fun _ s' => s' = s)
    (itable s !! n = None).
Proof.
  intros Hipb. unfold soWriteInode.
  wpx; cbn [sb itable dzone clock set_itable] in *;
    rewrite ?(inode_key n Hipb) in *; try reflexivity; try assumption;
    rewrite ?lookup_insert_eq in *; try discriminate;
    rewrite ?overwrite_inode in *;
    (split; [eauto |]).
  - match goal with G : Some _ = Some _ |- _ => injection G as <- end.
    rewrite insert_insert_eq. destruct s; reflexivity.
  - reflexivity.
Qed.

Lemma post_soWriteInode (p : SOInode) (n st : Z) (s : FS)
    (Qok : unit -> FS -> Prop) (Qerr : errno -> FS -> Prop) (Qu : Prop) :
  0 < IPB ->
  (is_Some (itable s !! n) ->
   Qok tt (set_itable
             (<[n := if st =? IUIN
                     then set_vD2 (clock s) (set_vD1 (clock s) p)
                     else p]> (itable s)) s)) ->
  (forall e, Qerr e s) ->
  (itable s !! n = None -> Qu) ->
  post (soWriteInode p n st) s Qok Qerr Qu.
Proof.
  intros Hipb Hok Herr Hu.
  eapply post_weaken; [apply (soWriteInode_post p n st s Hipb) | | |].
  - cbv beta. intros [] s' (Hs & ->). apply Hok, Hs.
  - cbv beta. intros e s' ->. apply Herr.
  - exact Hu.
Qed.

End InodeRules.

Ltac wp_ref :=
  lazymatch goal with
  | |- post (ref_get _ _) _ _ _ _ => apply ref_get_post; intros ? ? ? ? ?
  end.
Ltac wpy := repeat ((wp_step || wp_more || wp_ref); cbv beta).

Ltac by_tables Hfin :=
  apply Hfin;
  repeat match goal with
         | G : ?x = NULL_CLUSTER |- context [?x =? NULL_CLUSTER] =>
             rewrite (proj2 (Z.eqb_eq _ _) G)
         | G : ?x <> NULL_CLUSTER |- context [?x =? NULL_CLUSTER] =>
             rewrite (proj2 (Z.eqb_neq _ _) G)
         | G : ?m !! ?k = Some _ |- context [?m !! ?k] => rewrite G
         | G : info ?c = IRef _ |- context [info ?c] => rewrite G
         | G : 0 <= ?k |- context [0 <=? ?k] =>
             rewrite (proj2 (Z.leb_le 0 k) G)
         end;
  try reflexivity; try assumption.

Ltac wp_inode Hipb :=
  lazymatch goal with
  | |- post (soReadInode _ _) _ _ _ _ =>
      apply post_soReadInode;
      [exact Hipb | intros ? ?; split; intros ? | intros ? | intros ?]
  | |- post (soWriteInode _ _ _) _ _ _ _ =>
      apply post_soWriteInode; [exact Hipb | intros ? | intros ? | intros ?]
  end.
Ltac wpz Hipb := repeat ((wp_step || wp_more || wp_ref || wp_inode Hipb); cbv beta).

Section FileClusters.
Context {P : Params} {L : Lower}.



Lemma soHandleFileCluster_GET_post attach (n p : Z) (s : FS) :
  sizes_ok -> 0 <= p ->
  post (soHandleFileCluster_body attach n p GET local) s
    (fun o s' =>
       exists i c,
         itable s !! n = Some i
         /\ s' = set_itable (<[n := set_vD1 (clock s) i]> (itable s)) s
         /\ o = Some c
         /\ cluster_at s i p = Some c
         /\ p < MAX_FILE_CLUSTERS /\ n < iTotal (sb s))
    (fun _ s' => only_atime n s s')
    True.
Proof.
  intros (Hipb & Hnd & Hrpc & Hmax) Hp.
  unfold soHandleFileCluster_body.
  change (GET =? GET) with true. change (GET =? ALLOC) with false.
  change (GET =? FREE) with false. change (GET =? FREE_CLEAN) with false.
  change (GET =? CLEAN) with false. cbn [orb andb negb is_null local].
  wpx.
  1-4: left; reflexivity.
  tests.
  apply post_soReadInode; [exact Hipb | | intros; left; reflexivity | auto].
  intros i0 Hi0. split; [intros _ | discriminate].
  match goal with |- post _ ?st ?Q _ _ => set (s1 := st); set (Qf := Q) end.
  assert (Hsb : sb s1 = sb s) by reflexivity.
  assert (Hdz : dzone s1 = dzone s) by reflexivity.
  assert (Hat : only_atime n s s1) by (right; exists i0; split; [assumption | reflexivity]).
  set (a := set_vD1 (clock s) i0) in *.
  assert (Hfin : forall c, cluster_at s1 a p = Some c -> Qf (Some c) s1).
  { intros c Hc. exists i0, c. repeat split; assumption. }
  clearbody Qf a s1. clear Hsb Hdz.
  unfold cluster_at in Hfin. unfold ref_at in Hfin.
  destruct (Z.ltb_spec p N_DIRECT) as [Hlt | Hge].
  - replace (N_DIRECT <=? p) with false by lia.
    replace (N_DIRECT + RPC <=? p) with false by lia.
    cbn [andb]. unfold soHandleDirect. change (GET =? GET) with true.
    cbv iota. wpy; try exact I.
    apply Hfin. destruct (Z.leb_spec 0 p); [| lia]. assumption.
  - replace (N_DIRECT <=? p) with true by lia. cbn [andb].
    destruct (Z.ltb_spec p (N_DIRECT + RPC)) as [Hlt2 | Hge2].
    + replace (N_DIRECT + RPC <=? p) with false by lia.
      unfold soHandleSIndirect, soLoadDirRefClust.
      change (GET =? GET) with true. cbv iota.
      wpy; try exact I; cbn [fst snd] in *; tests; try assumption;
        by_tables Hfin.
    + replace (N_DIRECT + RPC <=? p) with true by lia.
      assert (Hw : wrap32 (p - N_DIRECT - RPC) = p - N_DIRECT - RPC).
      { apply wrap32_small. unfold MAX_FILE_CLUSTERS in *. nia. }
      unfold soHandleDIndirect, soLoadDirRefClust, soLoadSngIndRefClust.
      change (GET =? GET) with true. cbv iota zeta. rewrite Hw.
      wpy; try exact I; cbn [fst snd] in *; tests; try assumption;
        by_tables Hfin.
Qed.



Lemma soReadFileCluster_post (n p : Z) (s : FS) :
  sizes_ok -> 0 <= p ->
  post (soReadFileCluster n p) s
    (fun r s' =>
       exists i c,
         itable s !! n = Some i
         /\ s' = set_itable (<[n := set_vD1 (clock s) i]> (itable s)) s
         /\ cluster_at s i p = Some c
         /\ (if c =? NULL_CLUSTER then r = zero_cluster
             else dzone s !! phys (sb s) c = Some r))
    (fun _ s' => only_atime n s s')
    True.
Proof.
  intros Hsz Hp. unfold soReadFileCluster, soHandleFileCluster.
  wpx; try (left; reflexivity).
  eapply post_weaken;
    [apply (soHandleFileCluster_GET_post _ n p s Hsz Hp) | | auto | auto].
  cbv beta. intros o s1 (i & c & Hi & Hs1 & -> & Hc & _).
  assert (Hat : only_atime n s s1)
    by (right; exists i; split; assumption).
  assert (Hsb : sb s1 = sb s) by (rewrite Hs1; reflexivity).
  assert (Hdz : dzone s1 = dzone s) by (rewrite Hs1; reflexivity).
  match goal with |- post _ _ ?Q _ _ => set (Qf := Q) end.
  assert (Hfin : forall r, (if c =? NULL_CLUSTER then r = zero_cluster
                            else dzone s1 !! phys (sb s) c = Some r) ->
                           Qf r s1).
  { intros r Hr. exists i, c. rewrite Hdz in Hr. repeat split; assumption. }
  clearbody Qf. clear Hs1 Hdz.
  wpx; try exact I; try assumption;
    match goal with G : Some c = Some ?x |- _ => injection G as <- end;
    tests; apply Hfin.
  - rewrite (proj2 (Z.eqb_neq _ _)) by assumption. assumption.
  - rewrite (proj2 (Z.eqb_eq _ _)) by assumption. reflexivity.
Qed.

Lemma soWriteFileCluster_over_post (n p : Z) (buff : SODataClust) (s : FS)
    (i : SOInode) (c : Z) :
  sizes_ok -> 0 <= p ->
  itable s !! n = Some i -> cluster_at s i p = Some c -> c <> NULL_CLUSTER ->
  post (soWriteFileCluster n p buff) s
    (fun _ s' =>
       exists dc i',
         dzone s !! phys (sb s) c = Some dc
         /\ dzone s' = <[phys (sb s) c := set_info (info buff) dc]> (dzone s)
         /\ sb s' = sb s
         /\ itable s' !! n = Some i'
         /\ d i' = d i /\ i1 i' = i1 i /\ i2 i' = i2 i)
    (fun _ _ => True) True.
Proof.
  intros Hsz Hp Hi Hc Hnn. pose proof Hsz as (Hipb & _).
  unfold soWriteFileCluster, soHandleFileCluster.
  wpx; try exact I.
  eapply post_weaken;
    [apply (soHandleFileCluster_GET_post _ n p s Hsz Hp) | | auto | auto].
  cbv beta. intros o s1 (i_ & c_ & Hi_ & Hs1 & -> & Hc_ & _).
  assert (i_ = i) by congruence. subst i_.
  assert (c_ = c) by congruence. subst c_.
  wpz Hipb; try exact I;
    match goal with G : Some c = Some ?x |- _ => injection G as <- end;
    tests; try congruence; try discriminate.
  subst s1. cbn [sb itable dzone clock set_itable set_dzone] in *.
  rewrite ?lookup_insert_eq in *.
  repeat match goal with G : Some _ = Some ?x |- _ => is_var x; injection G as <- end.
  eexists. eexists. split; [eassumption |].
  split; [reflexivity |]. split; [reflexivity |].
  split; [reflexivity |].
  destruct i; repeat split.
Qed.


(** X9.  [soHandleFileCluster] with the operation [GET] is a lookup in the
    tables of references.  When it succeeds it answers [cluster_at], the
    reference found for the position through [d], [i1] or [i2] of the
    inode, and the only change of the state is the time of the last access
    of the inode; when it fails, the state is as before up to that time. *)
Theorem X9_GET_is_a_lookup (n p : Z) (s : FS) :
  sizes_ok -> 0 <= p ->
  (forall o s', soHandleFileCluster n p GET local s = Ok o s' ->
     exists i c,
       itable s !! n = Some i
       /\ s' = set_itable (<[n := set_vD1 (clock s) i]> (itable s)) s
       /\ o = Some c /\ cluster_at s i p = Some c)
  /\ (forall e s', soHandleFileCluster n p GET local s = Err e s' ->
        only_atime n s s').
Proof.
  intros Hsz Hp.
  pose proof (soHandleFileCluster_GET_post soAttachLogicalCluster n p s Hsz Hp)
    as Hpost.
  split.
  - intros o s' Hrun. apply (post_Ok _ _ _ _ _ _ _ Hpost) in Hrun.
    destruct Hrun as (i & c & Hi & Hs & Ho & Hc & _). eauto 8.
  - intros e s' Hrun. apply (post_Err _ _ _ _ _ _ _ Hpost Hrun).
Qed.

(** X10.  [soReadFileCluster] answers the cluster the tables of references
    name for the position, as the data zone holds it, and a cluster of
    zeros when the position holds [NULL_CLUSTER].  Whatever its outcome
    it leaves the state as it is up to the time of the last access of the
    inode. *)
Theorem X10_soReadFileCluster_reads_the_tables (n p : Z) (s : FS) :
  sizes_ok -> 0 <= p ->
  (forall r s', soReadFileCluster n p s = Ok r s' ->
     exists i c,
       itable s !! n = Some i
       /\ s' = set_itable (<[n := set_vD1 (clock s) i]> (itable s)) s
       /\ cluster_at s i p = Some c
       /\ (c = NULL_CLUSTER -> r = zero_cluster)
       /\ (c <> NULL_CLUSTER -> dzone s !! phys (sb s) c = Some r))
  /\ (forall e s', soReadFileCluster n p s = Err e s' -> only_atime n s s').
Proof.
  intros Hsz Hp.
  pose proof (soReadFileCluster_post n p s Hsz Hp) as Hpost.
  split.
  - intros r s' Hrun. apply (post_Ok _ _ _ _ _ _ _ Hpost) in Hrun.
    destruct Hrun as (i & c & Hi & Hs & Hc & Hr).
    exists i, c. repeat (split; [assumption |]).
    destruct (Z.eqb_spec c NULL_CLUSTER); split; intros; congruence.
  - intros e s' Hrun. apply (post_Err _ _ _ _ _ _ _ Hpost Hrun).
Qed.

(** X11.  Writing over a direct position that holds a cluster.  After
    [soWriteFileCluster] succeeds the data zone differs from the one before
    in that cluster only, which has the body of the buffer and the header
    it had; the superblock is unchanged; and every [soReadFileCluster] of
    the position that succeeds afterwards answers that cluster. *)
Theorem X11_overwrite_then_read (n p : Z) (buff : SODataClust) (s s1 : FS)
    (i : SOInode) (c : Z) :
  sizes_ok -> 0 <= p < N_DIRECT ->
  itable s !! n = Some i -> d i !! Z.to_nat p = Some c -> c <> NULL_CLUSTER ->
  soWriteFileCluster n p buff s = Ok tt s1 ->
  exists dc,
    dzone s !! phys (sb s) c = Some dc
    /\ dzone s1 = <[phys (sb s) c := set_info (info buff) dc]> (dzone s)
    /\ sb s1 = sb s
    /\ forall r s2, soReadFileCluster n p s1 = Ok r s2 ->
         r = set_info (info buff) dc.
Proof.
  intros Hsz Hp Hi Hd Hnn Hw.
  assert (Hc : cluster_at s i p = Some c).
  { unfold cluster_at. replace (p <? N_DIRECT) with true by lia.
    replace (0 <=? p) with true by lia. exact Hd. }
  apply (post_Ok _ _ _ _ _ _ _
           (soWriteFileCluster_over_post n p buff s i c Hsz (proj1 Hp) Hi Hc Hnn))
    in Hw.
  destruct Hw as (dc & i' & Hdc & Hdz & Hsb & Hi' & Hd' & _).
  exists dc. repeat (split; [assumption |]).
  intros r s2 Hr.
  apply (post_Ok _ _ _ _ _ _ _ (soReadFileCluster_post n p s1 Hsz (proj1 Hp)))
    in Hr.
  destruct Hr as (i2' & c2 & Hi2 & _ & Hc2 & Hr).
  assert (i2' = i') by congruence. subst i2'.
  unfold cluster_at in Hc2. replace (p <? N_DIRECT) with true in Hc2 by lia.
  replace (0 <=? p) with true in Hc2 by lia.
  rewrite Hd', Hd in Hc2. injection Hc2 as <-.
  rewrite (proj2 (Z.eqb_neq _ _) Hnn) in Hr.
  rewrite Hsb, Hdz, lookup_insert_eq in Hr. congruence.
Qed.

Lemma soHandleFileCluster_ALLOC_direct_post (n p : Z) (s : FS) :
  sizes_ok -> 0 <= p < N_DIRECT ->
  post (soHandleFileCluster n p ALLOC local) s
    (fun o s' =>
       exists c i',
         o = Some c /\ itable s' !! n = Some i'
         /\ d i' !! Z.to_nat p = Some c)
    (fun _ _ => True) True.
Proof.
  intros (Hipb & Hnd & Hrpc & Hmax) Hp.
  unfold soHandleFileCluster, soHandleFileCluster_body.
  change (ALLOC =? GET) with false. change (ALLOC =? ALLOC) with true.
  change (ALLOC =? FREE) with false. change (ALLOC =? FREE_CLEAN) with false.
  change (ALLOC =? CLEAN) with false. cbn [orb andb negb is_null local].
  replace (p <? N_DIRECT) with true by lia.
  replace (N_DIRECT <=? p) with false by lia.
  replace (N_DIRECT + RPC <=? p) with false by lia.
  cbn [andb]. unfold soHandleDirect.
  change (ALLOC =? GET) with false. change (ALLOC =? ALLOC) with true.
  cbv iota.
  wpz Hipb; try exact I; try discriminate.
  apply post_any. intros c s2. wp_step. apply post_any. intros [] s3.
  wpz Hipb; try exact I.
  cbn [fst snd]. cbn [sb itable dzone clock set_itable set_dzone].
  exists c. eexists. split; [reflexivity |]. split; [apply lookup_insert_eq |].
  change (IUIN =? IUIN) with true. cbv iota.
  match goal with
  | G : 0 <= p < Z.of_nat (length ?l) |- _ =>
      transitivity (<[Z.to_nat p := c]> l !! Z.to_nat p);
      [| apply list_lookup_insert_eq; lia]
  end.
  reflexivity.
Qed.

Lemma soWriteFileCluster_hole_post (n p : Z) (buff : SODataClust) (s : FS)
    (i : SOInode) :
  sizes_ok -> 0 <= p < N_DIRECT ->
  itable s !! n = Some i -> d i !! Z.to_nat p = Some NULL_CLUSTER ->
  post (soWriteFileCluster n p buff) s
    (fun _ s' =>
       exists c i' dc,
         itable s' !! n = Some i'
         /\ d i' !! Z.to_nat p = Some c
         /\ dzone s' !! phys (sb s) c = Some (set_info (info buff) dc))
    (fun _ _ => True) True.
Proof.
  intros Hsz Hp Hi Hd. pose proof Hsz as (Hipb & _).
  assert (Hc : cluster_at s i p = Some NULL_CLUSTER).
  { unfold cluster_at. replace (p <? N_DIRECT) with true by lia.
    replace (0 <=? p) with true by lia. exact Hd. }
  unfold soWriteFileCluster.
  wpx; try exact I.
  eapply post_weaken;
    [apply (soHandleFileCluster_GET_post soAttachLogicalCluster n p s Hsz
              (proj1 Hp)) | | auto | auto].
  cbv beta. intros o s1 (i_ & c_ & Hi_ & Hs1 & -> & Hc_ & _).
  assert (i_ = i) by congruence. subst i_.
  assert (c_ = NULL_CLUSTER) by congruence. subst c_.
  wpx; try exact I;
    match goal with G : Some _ = Some ?x |- _ => injection G as <- end;
    tests; try congruence.
  eapply post_weaken;
    [apply (soHandleFileCluster_ALLOC_direct_post n p s1 Hsz Hp) | | auto | auto].
  cbv beta. intros o s2 (c & i2' & -> & Hi2 & Hd2).
  wpz Hipb; try exact I; try discriminate.
  cbn [sb itable dzone clock set_itable set_dzone default from_option] in *.
  unfold id in *.
  rewrite ?lookup_insert_eq in *.
  unify_lookups.
  repeat match goal with G : Some _ = Some ?x |- _ => is_var x; injection G as <- end.
  exists c. eexists. eexists.
  split; [reflexivity |].
  split; [| apply lookup_insert_eq].
  change (IUIN =? IUIN) with true. cbv iota.
  rewrite <- Hd2. destruct i2'; reflexivity.
Qed.

(** X12.  Writing to a direct position that holds no cluster.  After
    [soWriteFileCluster] succeeds the position refers to a cluster [c]
    whose body is the body of the buffer.  When [c] is not [NULL_CLUSTER]
    and the data zone starts where it did, every [soReadFileCluster] of the
    position that succeeds afterwards answers that cluster. *)
Theorem X12_write_to_a_hole_then_read (n p : Z) (buff : SODataClust)
    (s s1 : FS) (i : SOInode) :
  sizes_ok -> 0 <= p < N_DIRECT ->
  itable s !! n = Some i -> d i !! Z.to_nat p = Some NULL_CLUSTER ->
  soWriteFileCluster n p buff s = Ok tt s1 ->
  exists c i1 dc,
    itable s1 !! n = Some i1
    /\ d i1 !! Z.to_nat p = Some c
    /\ dzone s1 !! phys (sb s) c = Some (set_info (info buff) dc)
    /\ (c <> NULL_CLUSTER -> dZoneStart (sb s1) = dZoneStart (sb s) ->
        forall r s2, soReadFileCluster n p s1 = Ok r s2 ->
                     r = set_info (info buff) dc).
Proof.
  intros Hsz Hp Hi Hd Hw.
  apply (post_Ok _ _ _ _ _ _ _
           (soWriteFileCluster_hole_post n p buff s i Hsz Hp Hi Hd)) in Hw.
  destruct Hw as (c & i' & dc & Hi' & Hd' & Hdz).
  exists c, i', dc. repeat (split; [assumption |]).
  intros Hnn Hst r s2 Hr.
  apply (post_Ok _ _ _ _ _ _ _ (soReadFileCluster_post n p s1 Hsz (proj1 Hp)))
    in Hr.
  destruct Hr as (i2' & c2 & Hi2 & _ & Hc2 & Hr).
  assert (i2' = i') by congruence. subst i2'.
  unfold cluster_at in Hc2. replace (p <? N_DIRECT) with true in Hc2 by lia.
  replace (0 <=? p) with true in Hc2 by lia.
  rewrite Hd' in Hc2. injection Hc2 as <-.
  rewrite (proj2 (Z.eqb_neq _ _) Hnn) in Hr.
  unfold phys in Hr, Hdz. rewrite Hst in Hr. congruence.
Qed.

End FileClusters.

(** ** Calls that only read *)

Section ReadsOnly.
Context {P : Params} {L : Lower}.

Lemma only_atime_refl n s : only_atime n s s.
Proof. left. reflexivity. Qed.

Lemma only_atime_trans n s s1 s2 :
  only_atime n s s1 -> only_atime n s1 s2 -> only_atime n s s2.
Proof.
  intros [-> | (i & Hi & ->)] H2; [exact H2 |].
  destruct H2 as [-> | (i1 & Hi1 & ->)]; [right; eauto |].
  right. exists i. split; [exact Hi |].
  cbn [itable clock set_itable] in *.
  rewrite lookup_insert_eq in Hi1. injection Hi1 as <-.
  rewrite insert_insert_eq. destruct s, i; reflexivity.
Qed.

Lemma reads_only_bind {A B} n (m : M A) (k : A -> M B) :
  reads_only n m -> (forall a, reads_only n (k a)) -> reads_only n (bind m k).
Proof.
  intros Hm Hk s. specialize (Hm s). unfold post, bind in *.
  destruct (m s) as [a s1 | e s1 |]; [| exact Hm | exact I].
  specialize (Hk a s1). unfold post in Hk.
  destruct (k a s1) as [b s2 | e s2 |]; [| | exact I];
    eapply only_atime_trans; eassumption.
Qed.

Lemma reads_only_ret {A} n (a : A) : reads_only n (ret a).
Proof. intros s. apply only_atime_refl. Qed.

Lemma reads_only_fail {A} n e : reads_only n (fail e : M A).
Proof. intros s. apply only_atime_refl. Qed.

Lemma reads_only_fail_if n c e : reads_only n (fail_if c e).
Proof. intros s. destruct c; apply only_atime_refl. Qed.

Lemma reads_only_check n o : reads_only n (check o).
Proof. intros s. destruct o; apply only_atime_refl. Qed.

Lemma reads_only_arr_get {A} n (l : list A) k : reads_only n (arr_get l k).
Proof.
  intros s. unfold arr_get. destruct (0 <=? k); [| exact I].
  destruct (l !! Z.to_nat k); [apply only_atime_refl | exact I].
Qed.

Lemma reads_only_soReadInode n : 0 < IPB -> reads_only n (soReadInode n IUIN).
Proof.
  intros Hipb s. apply post_soReadInode; [exact Hipb | | | auto].
  - intros i Hi. split; [| discriminate]. intros _. right. eauto.
  - intros e. apply only_atime_refl.
Qed.

Lemma reads_only_soReadFileCluster n p :
  sizes_ok -> 0 <= p -> reads_only n (soReadFileCluster n p).
Proof.
  intros Hsz Hp s.
  eapply post_weaken; [apply (soReadFileCluster_post n p s Hsz Hp) | | | auto].
  - cbv beta. intros r s' (i & c & Hi & -> & _). right. eauto.
  - auto.
Qed.

Lemma reads_only_need n a b c d_ : reads_only n (need a b c d_).
Proof.
  unfold need. destruct (negb _);
    [apply reads_only_fail_if | apply reads_only_ret].
Qed.

Lemma reads_only_get n : reads_only n get.
Proof. intros s. apply only_atime_refl. Qed.

Lemma reads_only_soGetSuperBlock n : reads_only n soGetSuperBlock.
Proof. intros s. apply only_atime_refl. Qed.

End ReadsOnly.

Ltac ro :=
  repeat first
    [ apply reads_only_soReadInode; assumption
    | apply reads_only_soReadFileCluster; [assumption | lia]
    | apply reads_only_get
    | apply reads_only_soGetSuperBlock
    | apply reads_only_need
    | apply reads_only_arr_get
    | apply reads_only_check
    | apply reads_only_fail_if
    | apply reads_only_fail
    | apply reads_only_ret
    | match goal with
      | |- reads_only _ (if ?c then _ else _) => destruct c
      | |- reads_only _ (let '(_, _) := ?r in _) => destruct r
      end
    | apply reads_only_bind; [| intros ?] ].

Section Lookup.
Context {P : Params} {L : Lower}.

Lemma reads_only_soAccessGranted n op :
  0 < IPB -> reads_only n (soAccessGranted n op).
Proof.
  intros Hipb. unfold soAccessGranted, soLoadSuperBlock, soStoreBlockInT.
  ro.
Qed.

Lemma reads_only_de_of n dc : reads_only n (de_of dc).
Proof.
  unfold de_of. destruct (info dc) as [l | r | e].
  - destruct (all_zero l); [apply reads_only_ret | intros s; exact I].
  - intros s; exact I.
  - apply reads_only_ret.
Qed.

Lemma reads_only_scan_cluster n k i c de nm p1 p2 a :
  reads_only n (scan_cluster k i c de nm p1 p2 a).
Proof.
  revert i a. induction k as [| k IH]; intros i a; cbn [scan_cluster].
  - apply reads_only_ret.
  - ro. apply IH.
Qed.

Lemma reads_only_scan_dir n k c nm p1 p2 a :
  sizes_ok -> 0 <= c -> reads_only n (scan_dir k c n nm p1 p2 a).
Proof.
  intros Hsz. revert c a. induction k as [| k IH]; intros c a Hc;
    cbn [scan_dir].
  - apply reads_only_ret.
  - apply reads_only_bind; [ro | intros dc].
    apply reads_only_bind; [apply reads_only_de_of | intros de].
    apply reads_only_bind; [apply reads_only_scan_cluster | intros a'].
    destruct (sc_found a'); [apply reads_only_ret | apply IH; lia].
Qed.

Lemma reads_only_soGetDirEntryByName n nm p1 p2 :
  sizes_ok -> reads_only n (soGetDirEntryByName n nm p1 p2).
Proof.
  intros Hsz. pose proof Hsz as (Hipb & _).
  unfold soGetDirEntryByName, soLoadSuperBlock.
  apply reads_only_bind; [ro | intros _].
  apply reads_only_bind; [ro | intros b].
  apply reads_only_bind; [ro | intros _].
  apply reads_only_bind; [ro | intros _].
  apply reads_only_bind; [ro | intros i].
  apply reads_only_bind; [ro | intros _].
  apply reads_only_bind; [ro | intros s0].
  apply reads_only_bind; [ro | intros _].
  apply reads_only_bind; [apply reads_only_soAccessGranted; exact Hipb | intros _].
  apply reads_only_bind; [apply reads_only_scan_dir; [exact Hsz | lia] | intros a].
  ro.
Qed.

(** X13.  Whatever its outcome, [soGetDirEntryByName] leaves the superblock,
    the data zone and every inode as they are, but for the time of the last
    access of the directory. *)
Theorem X13_lookup_reads_only (n : Z) (eName : list Z) (p1 p2 : option Z)
    (s : FS) :
  sizes_ok ->
  (forall r s', soGetDirEntryByName n eName p1 p2 s = Ok r s' ->
                only_atime n s s')
  /\ (forall e s', soGetDirEntryByName n eName p1 p2 s = Err e s' ->
                   only_atime n s s').
Proof.
  intros Hsz.
  pose proof (reads_only_soGetDirEntryByName n eName p1 p2 Hsz s) as Hp.
  split.
  - intros r s' Hrun. apply (post_Ok _ _ _ _ _ _ _ Hp Hrun).
  - intros e s' Hrun. apply (post_Err _ _ _ _ _ _ _ Hp Hrun).
Qed.

End Lookup.

(** ** Links *)

Section Links.
Context {P : Params} {L : Lower}.

Lemma only_atime_other n a s s' :
  only_atime n s s' -> a <> n -> itable s' !! a = itable s !! a.
Proof.
  intros [-> | (i & _ & ->)] Ha; [reflexivity |].
  cbn [itable set_itable]. apply lookup_insert_ne. congruence.
Qed.

(** A step over a call that only reads. *)
Lemma post_reads_only {A} n (m : M A) s (Qok : A -> FS -> Prop)
    (Qerr : errno -> FS -> Prop) :
  reads_only n m ->
  (forall a s', only_atime n s s' -> Qok a s') ->
  (forall e s', only_atime n s s' -> Qerr e s') ->
  post m s Qok Qerr True.
Proof.
  intros Hm Hok Herr. eapply post_weaken; [apply Hm | | | auto]; cbv beta; auto.
Qed.

Lemma post_de_of dc s (Qok : list SODirEntry -> FS -> Prop)
    (Qerr : errno -> FS -> Prop) :
  (forall de, Qok de s) -> post (de_of dc) s Qok Qerr True.
Proof.
  intros H. unfold de_of. destruct (info dc) as [l | r | e].
  - destruct (all_zero l); [apply H | exact I].
  - exact I.
  - apply H.
Qed.

(** X14.  After [soAddAttDirEntry] succeeds for an entry that is not a
    directory, with either operation, the inode of the entry has one
    reference more; its type, owner, size and references to clusters are
    those of before. *)
Theorem X14_add_counts_the_link (junk : SODataClust) (dir ent op : Z)
    (eName : list Z) (s s' : FS) (ie : SOInode) :
  sizes_ok -> dir <> ent ->
  itable s !! ent = Some ie ->
  Z.land (mode ie) INODE_TYPE_MASK <> INODE_DIR ->
  soAddAttDirEntry junk dir eName ent op s = Ok tt s' ->
  exists ie',
    itable s' !! ent = Some ie'
    /\ refCount ie' = wrap16 (refCount ie + 1)
    /\ same_file ie ie'.
Proof.
  intros Hsz Hne Hie Hty.
  pose proof Hsz as (Hipb & _).
  apply (post_Ok (soAddAttDirEntry junk dir eName ent op) s
           (fun _ s' => exists ie',
              itable s' !! ent = Some ie'
              /\ refCount ie' = wrap16 (refCount ie + 1)
              /\ same_file ie ie')
           (fun _ _ => True) True).
  unfold soAddAttDirEntry.
  wpz Hipb; try exact I; try discriminate.
  match goal with
  | |- post _ ?st _ _ _ =>
      assert (Hat : only_atime dir s st) by (right; eauto);
      generalize dependent st; intros s1 Hat
  end.
  apply (post_reads_only dir);
    [apply reads_only_soAccessGranted; exact Hipb | | auto].
  intros [] s2 Hat2.
  pose proof (only_atime_trans _ _ _ _ Hat Hat2) as Hat'. clear Hat Hat2 s1.
  wp_step.
  apply (post_reads_only dir);
    [apply reads_only_soAccessGranted; exact Hipb | | auto].
  intros [] s3 Hat3.
  pose proof (only_atime_trans _ _ _ _ Hat' Hat3) as Hat. clear Hat' Hat3 s2.
  wp_step. wp_step.
  apply (post_reads_only dir);
    [apply reads_only_soGetDirEntryByName; exact Hsz | | ].
  all: intros r s4 Hat4;
    pose proof (only_atime_trans _ _ _ _ Hat Hat4) as Hat'; clear Hat Hat4 s3.
  all: assert (Hent : itable s4 !! ent = Some ie)
         by (rewrite (only_atime_other _ _ _ _ Hat') by congruence; exact Hie).
  all: wpz Hipb; try exact I; try discriminate;
    tests; unify_lookups; cbn [mode set_vD1] in *; try congruence.
  all: apply post_any; intros dc s5; wp_step; apply post_de_of; intros de.
  all: wpz Hipb; try exact I; try discriminate.
  all: apply post_any; intros [] s6.
  all: wpz Hipb; try exact I; try discriminate.
  all: cbn [itable set_itable]; rewrite lookup_insert_eq.
  all: eexists; split; [reflexivity |].
  all: change (IUIN =? IUIN) with true; cbv iota.
  all: destruct ie; cbn; repeat split; reflexivity.
Qed.

End Links.

(** ** The formatter *)

Section Geometry.
Context {P : Params} {L : Lower}.

(** X15.  The layout computed by the formatter.  For a device of [ntotal]
    blocks with room for the table of inodes asked for, the superblock,
    the table of inodes and the data zone fill the device exactly; the
    number of inodes is a multiple of [IPB] and at least the number asked
    for ([ntotal / 8] when none is given); and the table takes less than
    one cluster more than the blocks that number needs. *)
Theorem X15_mkfs_geometry (ntotal itotal : Z) :
  0 < IPB -> 0 < BLOCKS_PER_CLUSTER ->
  0 <= itotal -> 0 <= ntotal -> ntotal * IPB < 4294967296 ->
  let want := if itotal =? 0 then Z.shiftr ntotal 3 else itotal in
  (want + IPB - 1) / IPB + 1 <= ntotal ->
  want <= fst (geometry ntotal itotal)
  /\ fst (geometry ntotal itotal) mod IPB = 0
  /\ 0 <= snd (geometry ntotal itotal)
  /\ 1 + fst (geometry ntotal itotal) / IPB
     + snd (geometry ntotal itotal) * BLOCKS_PER_CLUSTER = ntotal
  /\ fst (geometry ntotal itotal) / IPB
     < (want + IPB - 1) / IPB + BLOCKS_PER_CLUSTER.
Proof.
  intros Hipb Hbpc Hit Hnt Hsz want Hroom.
  unfold geometry. fold want. cbn [fst snd].
  assert (Hipb0 : IPB <> 0) by lia.
  assert (Hbpc0 : BLOCKS_PER_CLUSTER <> 0) by lia.
  assert (Hw0 : 0 <= want).
  { subst want. destruct (itotal =? 0).
    - apply Z.shiftr_nonneg. exact Hnt.
    - exact Hit. }
  clearbody want.
  set (blk := if want mod IPB =? 0 then want / IPB else want / IPB + 1).
  assert (Hblk : blk = (want + IPB - 1) / IPB).
  { subst blk. pose proof (Z.div_mod want IPB Hipb0) as Hdm.
    pose proof (Z.mod_pos_bound want IPB Hipb) as Hmb.
    destruct (Z.eqb_spec (want mod IPB) 0) as [E | E].
    - apply Z.div_unique with (r := IPB - 1); lia.
    - apply Z.div_unique with (r := want mod IPB - 1); lia. }
  assert (Hwb : want <= blk * IPB).
  { rewrite Hblk. pose proof (Z.div_mod (want + IPB - 1) IPB Hipb0).
    pose proof (Z.mod_pos_bound (want + IPB - 1) IPB Hipb). nia. }
  assert (Hb0 : 0 <= blk) by (rewrite Hblk; apply Z.div_pos; lia).
  rewrite <- Hblk in Hroom. clearbody blk.
  assert (Hnt' : ntotal < 4294967296) by nia.
  rewrite (wrap32_small (ntotal - 1 - blk)) by lia.
  set (nc := (ntotal - 1 - blk) / BLOCKS_PER_CLUSTER).
  pose proof (Z.div_mod (ntotal - 1 - blk) BLOCKS_PER_CLUSTER Hbpc0) as Hdm.
  pose proof (Z.mod_pos_bound (ntotal - 1 - blk) BLOCKS_PER_CLUSTER Hbpc) as Hmb.
  fold nc in Hdm.
  assert (Hnc : 0 <= nc) by (apply Z.div_pos; lia).
  clearbody nc.
  rewrite (wrap32_small (ntotal - 1 - nc * BLOCKS_PER_CLUSTER)) by nia.
  rewrite wrap32_small by nia.
  rewrite Z.mod_mul by lia. rewrite Z.div_mul by lia.
  repeat split; try lia; try nia.
Qed.

End Geometry.

(** ** Renaming *)

Lemma post_run {A} (m : M A) s (Qok : A -> FS -> Prop)
    (Qerr : errno -> FS -> Prop) (Qu : Prop) :
  (forall a s', m s = Ok a s' -> Qok a s') ->
  (forall e s', m s = Err e s' -> Qerr e s') ->
  (m s = Undef -> Qu) ->
  post m s Qok Qerr Qu.
Proof. unfold post. destruct (m s); auto. Qed.

Section Rename.
Context {P : Params} {L : Lower}.

Lemma only_atime_dzone n s s' : only_atime n s s' -> dzone s' = dzone s.
Proof. intros [-> | (i & _ & ->)]; reflexivity. Qed.

Lemma de_of_length s dc de s' :
  0 <= DPC ->
  (forall e, info dc = IDe e -> length e = Z.to_nat DPC) ->
  de_of dc s = Ok de s' -> length de = Z.to_nat DPC.
Proof.
  intros Hdpc Hwf. unfold de_of.
  destruct (info dc) as [l | r | e] eqn:E.
  - destruct (all_zero l); [| discriminate].
    intros [= <- _]. apply length_replicate.
  - discriminate.
  - intros [= <- _]. apply Hwf. reflexivity.
Qed.

(** X16.  [soRenameDirEntry] succeeds only on an entry of the first cluster
    of a directory.  The entry is addressed in the cluster read by its
    index in the directory, not by its index in the cluster: when every
    cluster of entries holds [DPC] entries, the index that the lookup of
    the old name answered is below [DPC] whenever the call succeeds. *)
Theorem X16_rename_reaches_the_first_cluster_only (dir : Z)
    (oldName newName : list Z) (s s' : FS) :
  sizes_ok -> 0 < DPC -> entries_sized s ->
  soRenameDirEntry dir oldName newName s = Ok tt s' ->
  exists s1 s2 ent idx,
    only_atime dir s s1
    /\ soGetDirEntryByName dir oldName None local s1
       = Ok (mkLookup None ent (Some idx)) s2
    /\ 0 <= idx < DPC.
Proof.
  intros Hsz Hdpc Hwf. pose proof Hsz as (Hipb & _).
  apply (post_Ok (soRenameDirEntry dir oldName newName) s
           (fun _ _ => exists s1 s2 ent idx,
              only_atime dir s s1
              /\ soGetDirEntryByName dir oldName None local s1
                 = Ok (mkLookup None ent (Some idx)) s2
              /\ 0 <= idx < DPC)
           (fun _ _ => True) True).
  unfold soRenameDirEntry.
  wpz Hipb; try exact I; try discriminate.
  match goal with
  | |- post _ ?st _ _ _ =>
      assert (Hat : only_atime dir s st) by (right; eauto);
      generalize dependent st; intros s1 Hat
  end.
  apply (post_reads_only dir);
    [apply reads_only_soAccessGranted; exact Hipb | | auto].
  intros [] s2 Hat2.
  pose proof (only_atime_trans _ _ _ _ Hat Hat2) as Hat'. clear Hat Hat2 s1.
  wpz Hipb.
  apply (post_reads_only dir);
    [apply reads_only_soAccessGranted; exact Hipb | | auto].
  intros [] s3 Hat3.
  pose proof (only_atime_trans _ _ _ _ Hat' Hat3) as Hat. clear Hat' Hat3 s2.
  wpz Hipb; try exact I.
  apply post_run; [| auto | auto]. intros l s4 Hrun.
  pose proof (post_Ok _ _ _ _ _ _ _
                (reads_only_soGetDirEntryByName dir oldName None local Hsz s3)
                Hrun) as Hat4. cbv beta in Hat4.
  destruct l as [st ent oidx]. cbn [l_stat l_idx].
  wp_step. wp_step; [exact I |].
  match goal with G : st = None |- _ => subst st end.
  wp_step. wp_step.
  apply (post_reads_only dir);
    [apply reads_only_soGetDirEntryByName; exact Hsz | | ].
  all: intros r s5 Hat5;
    pose proof (only_atime_trans _ _ _ _ Hat (only_atime_trans _ _ _ _ Hat4 Hat5))
      as Hat6.
  all: wp_step; wp_step; try exact I.
  all: wp_step; wp_step; [exact I |].
  all: match goal with
       | G : ?o = Some ?x |- _ => is_var o; is_var x; subst o; rename x into idx
       end.
  all: wp_step.
  all: destruct (Z.le_gt_cases 0 idx) as [Hidx | Hidx];
    [| apply post_any; intros dc s6; wpz Hipb; try exact I;
       apply post_de_of; intros de; wpz Hipb; try exact I; lia].
  all: assert (Hp : 0 <= idx / DPC) by (apply Z.div_pos; lia).
  all: eapply post_weaken;
    [apply (soReadFileCluster_post dir (idx / DPC) s5 Hsz Hp) | | auto | auto].
  all: cbv beta; intros dc s6 (i_ & c & _ & _ & _ & Hdc).
  all: wp_step; apply post_run; [| auto | auto]; intros de s7 Hde.
  all: assert (Hlen : length de = Z.to_nat DPC)
    by (eapply de_of_length; [lia | | exact Hde];
        destruct (c =? NULL_CLUSTER);
        [subst dc; discriminate |];
        intros e He; eapply Hwf; [| exact He];
        rewrite <- (only_atime_dzone _ _ _ Hat6); exact Hdc).
  all: wpz Hipb; try exact I.
  all: apply post_any; intros [] s8.
  all: exists s3, s4, ent, idx; split; [exact Hat |]; split; [exact Hrun |]; lia.
Qed.

End Rename.

(** ** The state the formatter leaves *)

Lemma for_range_post (I : Z -> FS -> Prop) lo n body s :
  I lo s ->
  (forall i s, lo <= i < lo + Z.of_nat n -> I i s ->
     post (body i) s (fun _ s' => I (i + 1) s') (fun _ _ => True) True) ->
  post (for_range lo n body) s (fun _ s' => I (lo + Z.of_nat n) s')
       (fun _ _ => True) True.
Proof.
  revert lo s. induction n as [| n IH]; intros lo s H0 Hb; cbn [for_range].
  - apply post_ret. replace (lo + Z.of_nat 0) with lo by lia. exact H0.
  - apply post_bind. eapply post_weaken; [apply (Hb lo s); [lia | exact H0] | | auto | auto].
    cbv beta. intros [] s1 H1.
    replace (lo + Z.of_nat (S n)) with (lo + 1 + Z.of_nat n) by lia.
    apply IH; [exact H1 |]. intros i s2 Hi. apply Hb. lia.
Qed.

Section Format.
Context {P : Params} {L : Lower}.

Lemma fill_inode_next b u g t k soin s :
  1 <= k -> k + 1 < 4294967296 -> iTotal b - 1 < 4294967296 -> 1 <= iTotal b ->
  post (fill_inode b u g t k soin) s
    (fun r s' => s' = s /\ filled_inode b k r)
    (fun _ _ => True) True.
Proof.
  intros Hk Hk2 Hit Hit1. unfold fill_inode.
  replace (k =? 0) with false by lia.
  wpx. split; [reflexivity |].
  rewrite (wrap32_small (iTotal b - 1)) by lia.
  unfold filled_inode.
  destruct (k =? iTotal b - 1); destruct (k =? 1); destruct soin; cbn;
    rewrite ?wrap32_small by lia; repeat split; reflexivity.
Qed.

Lemma fill_inode_pure b u g t k soin s :
  post (fill_inode b u g t k soin) s (fun _ s' => s' = s)
       (fun _ _ => True) True.
Proof. unfold fill_inode. wpx; try exact I; reflexivity. Qed.

Lemma fillInINT_post (b : SOSuperBlock) (s : FS) :
  0 < IPB -> sb s = b ->
  iTotal b = iTableSize b * IPB -> 1 <= iTotal b < 4294967296 ->
  post fillInINT s
    (fun _ s' => inodes_filled b (iTotal b) s' /\ dzone s' = dzone s)
    (fun _ _ => True) True.
Proof.
  intros Hipb Hsb Htab Hit. unfold fillInINT.
  wp_step. wp_step. cbv beta. rewrite Hsb.
  assert (Hts : 0 <= iTableSize b) by nia.
  eapply post_weaken;
    [apply (for_range_post
              (fun nblk s' => inodes_filled b (nblk * IPB) s'
                              /\ dzone s' = dzone s)) | | auto | auto].
  - split; [| reflexivity]. split; [exact Hsb |]. intros j Hj. lia.
  - intros nblk s1 Hnblk (Hinv & Hdz).
    wpx; try exact I.
    eapply post_weaken;
      [apply (for_range_post
                (fun i s' => inodes_filled b (nblk * IPB + i) s'
                             /\ dzone s' = dzone s)) | | auto | auto].
    + replace (nblk * IPB + 0) with (nblk * IPB) by lia. split; assumption.
    + intros i s2 Hi ((Hsb2 & Hinv2) & Hdz2).
      set (k := nblk * IPB + i).
      assert (Hk : 0 <= k < iTotal b) by (subst k; nia).
      replace (wrap32 (IPB * nblk + i)) with k
        by (symmetry; replace (IPB * nblk + i) with k by (subst k; lia);
            apply wrap32_small; lia).
      wpx; try exact I.
      destruct (Z.eq_dec k 0) as [Hk0 | Hk0].
      * eapply post_weaken; [apply fill_inode_pure | | auto | auto].
        cbv beta. intros r s3 ->. wpx; try exact I.
        cbn [sb itable dzone set_itable].
        split; [| exact Hdz2]. split; [exact Hsb2 |].
        intros j Hj. subst k. lia.
      * eapply post_weaken;
          [apply (fill_inode_next b _ _ _ k); lia | | auto | auto].
        cbv beta. intros r s3 (-> & Hr). wpx; try exact I.
        cbn [sb itable dzone set_itable].
        split; [| exact Hdz2]. split; [exact Hsb2 |].
        intros j Hj. fold k.
        destruct (Z.eq_dec j k) as [-> | Hjk].
        -- exists r. split; [apply lookup_insert_eq | exact Hr].
        -- destruct (Hinv2 j) as (ij & Hij & Hv); [subst k; lia |].
           exists ij. split; [| exact Hv]. cbn [itable set_itable].
           rewrite lookup_insert_ne by congruence. exact Hij.
    + cbv beta. intros [] s2 (Hinv2 & Hdz2). wpx.
      replace ((nblk + 1) * IPB) with (nblk * IPB + Z.of_nat (Z.to_nat IPB))
        by lia.
      split; assumption.
  - cbv beta. intros [] s1 (Hinv & Hdz).
    rewrite Z2Nat.id in Hinv by lia. rewrite Z.add_0_l in Hinv.
    rewrite <- Htab in Hinv. split; assumption.
Qed.

Lemma fillInGenRep_post (b : SOSuperBlock) (zero : bool) (junk : SOInfo)
    (s : FS) :
  geometry_ok b -> sb s = b -> 1 <= dZoneTotal b ->
  post (fillInGenRep zero junk) s
    (fun _ s' => clusters_filled b (dZoneTotal b) s' /\ itable s' = itable s)
    (fun _ _ => True) True.
Proof.
  intros Hg Hsb Htot. unfold fillInGenRep.
  wp_step. wp_step. cbv beta zeta. rewrite Hsb.
  pose proof Hg as (Hbpc & Hsz & Hst & Hnull & Hfit).
  unfold NULL_CLUSTER in Hnull.
  eapply post_weaken;
    [apply (for_range_post
              (fun k s' => clusters_filled b k s' /\ itable s' = itable s))
    | | auto | auto].
  - split; [| reflexivity]. split; [exact Hsb |]. intros j Hj. lia.
  - intros k s1 Hk ((Hsb1 & Hinv) & Hit).
    rewrite Z2Nat.id in Hk by lia.
    replace (wrap32 (dZoneStart b + BLOCKS_PER_CLUSTER * k)) with (phys b k)
      by (unfold phys; f_equal; lia).
    rewrite (wrap32_small (dZoneTotal b - 1)) by lia.
    wpx; try exact I. cbn [sb itable dzone set_dzone].
    split; [| exact Hit]. split; [exact Hsb1 |].
    intros j Hj. destruct (Z.eq_dec j k) as [-> | Hjk].
    + eexists. split; [apply lookup_insert_eq |]. reflexivity.
    + destruct (Hinv j) as (dc & Hdc & Hn); [lia |].
      exists dc. split; [| exact Hn]. cbn [dzone set_dzone].
      rewrite lookup_insert_ne; [exact Hdc |].
      intros Heq. apply Hjk.
      apply (phys_inj b j k Hg); [unfold in_zone; lia | unfold in_zone; lia |].
      symmetry. exact Heq.
  - cbv beta. intros [] s1 (Hinv & Hit).
    rewrite Z2Nat.id in Hinv by lia.
    replace (1 + (dZoneTotal b - 1)) with (dZoneTotal b) in Hinv by lia.
    split; assumption.
Qed.

Lemma ichain_seqZ (tbl : gmap Z SOInode) (total : Z) (n : nat) (k : Z) :
  total <= NULL_INODE -> 1 <= k -> k + Z.of_nat n = total ->
  (forall j, 1 <= j < total ->
     exists ij, tbl !! j = Some ij
       /\ vD1 ij = if j =? total - 1 then NULL_INODE else j + 1) ->
  ichain tbl (if (n =? 0)%nat then NULL_INODE else k) (seqZ k (Z.of_nat n)).
Proof.
  intros Htot. revert k. induction n as [| n IH]; intros k Hk Hsum Hf.
  - cbn. constructor.
  - rewrite seqZ_cons by lia. cbn [Nat.eqb].
    destruct (Hf k) as (ik & Hik & Hv); [lia |].
    eapply ichain_step; [unfold NULL_INODE in *; lia | exact Hik |].
    replace (Z.pred (Z.of_nat (S n))) with (Z.of_nat n) by lia.
    rewrite Hv.
    specialize (IH (Z.succ k) ltac:(lia) ltac:(lia) Hf).
    destruct n as [| n].
    + replace (k =? total - 1) with true by lia. exact IH.
    + replace (k =? total - 1) with false by lia. exact IH.
Qed.

Lemma chain_seqZ (b : SOSuperBlock) (dz : gmap Z SODataClust) (n : nat)
    (k : Z) :
  dZoneTotal b <= NULL_CLUSTER -> 1 <= k ->
  k + Z.of_nat n = dZoneTotal b ->
  (forall j, 1 <= j < dZoneTotal b ->
     exists dc, dz !! phys b j = Some dc
       /\ next dc = if j =? dZoneTotal b - 1 then NULL_CLUSTER else j + 1) ->
  chain b dz (if (n =? 0)%nat then NULL_CLUSTER else k) (seqZ k (Z.of_nat n)).
Proof.
  intros Htot. revert k. induction n as [| n IH]; intros k Hk Hsum Hf.
  - cbn. constructor.
  - rewrite seqZ_cons by lia. cbn [Nat.eqb].
    destruct (Hf k) as (dc & Hdc & Hv); [lia |].
    eapply chain_step; [unfold NULL_CLUSTER in *; lia | exact Hdc |].
    replace (Z.pred (Z.of_nat (S n))) with (Z.of_nat n) by lia.
    rewrite Hv.
    specialize (IH (Z.succ k) ltac:(lia) ltac:(lia) Hf).
    destruct n as [| n].
    + replace (k =? dZoneTotal b - 1) with true by lia. exact IH.
    + replace (k =? dZoneTotal b - 1) with false by lia. exact IH.
Qed.

Lemma last_seqZ k n : 0 < n -> last (seqZ k n) = Some (k + n - 1).
Proof.
  intros Hn. rewrite last_lookup, length_seqZ.
  replace (pred (Z.to_nat n)) with (Z.to_nat (n - 1)) by lia.
  rewrite lookup_seqZ. split; [| lia]. f_equal. lia.
Qed.

(** X17.  The formatter establishes the two invariants.  When it succeeds
    for at least 2 inodes and 2 data clusters that fit in the device, the
    free inodes form the list 1, 2, ..., [itotal - 1] and the free data
    clusters are accounted for, the chain being 1, 2, ...,
    [nclusttotal - 1] and both caches empty: the insertion cache has the
    index 0, the retrieval cache the index [DZONE_CACHE_SIZE], and every
    slot of both holds [NULL_CLUSTER]. *)
Theorem X17_mkfs_establishes_the_invariants (ntotal itotal : Z)
    (name_ : list Z) (zero : bool) (junk : SOInfo) (s s' : FS) :
  let it := fst (geometry ntotal itotal) in
  let nc := snd (geometry ntotal itotal) in
  0 < IPB -> 0 < BLOCKS_PER_CLUSTER -> 0 < DZONE_CACHE_SIZE < 4294967296 ->
  2 <= it < 4294967296 -> it mod IPB = 0 -> 2 <= nc ->
  1 + it / IPB + nc * BLOCKS_PER_CLUSTER <= 4294967296 ->
  mkfs ntotal itotal name_ zero junk s = Ok tt s' ->
  InodeInv s' (seqZ 1 (it - 1)) /\ FreeInv s' (seqZ 1 (nc - 1))
  /\ dZoneInsert (sb s')
     = mkCache 0 (replicate (Z.to_nat DZONE_CACHE_SIZE) NULL_CLUSTER)
  /\ dZoneRetriev (sb s')
     = mkCache DZONE_CACHE_SIZE
         (replicate (Z.to_nat DZONE_CACHE_SIZE) NULL_CLUSTER).
Proof.
  intros it nc Hipb Hbpc Hsz Hit Hmod Hnc Hfit.
  apply (post_Ok (mkfs ntotal itotal name_ zero junk) s
           (fun _ s' =>
              InodeInv s' (seqZ 1 (it - 1)) /\ FreeInv s' (seqZ 1 (nc - 1))
              /\ dZoneInsert (sb s')
                 = mkCache 0
                     (replicate (Z.to_nat DZONE_CACHE_SIZE) NULL_CLUSTER)
              /\ dZoneRetriev (sb s')
                 = mkCache DZONE_CACHE_SIZE
                     (replicate (Z.to_nat DZONE_CACHE_SIZE) NULL_CLUSTER))
           (fun _ _ => True) True).
  unfold mkfs. subst it nc.
  destruct (geometry ntotal itotal) as [it nc]. cbn [fst snd] in *.
  assert (Hdiv : it = it / IPB * IPB).
  { assert (Hipb0 : IPB <> 0) by lia.
    pose proof (Z.div_mod it IPB Hipb0). lia. }
  assert (Hq : 0 <= it / IPB) by (apply Z.div_pos; lia).
  unfold fillInSuperBlock.
  wpx.
  match goal with
  | |- post fillInINT (set_sb ?b0 s) _ _ _ => set (b := b0)
  end.
  assert (Hg : geometry_ok b).
  { unfold geometry_ok, b, NULL_CLUSTER. cbn [dZoneStart dZoneTotal].
    rewrite (wrap32_small (1 + it / IPB)) by nia.
    repeat split; try lia; nia. }
  eapply post_weaken;
    [apply (fillInINT_post b (set_sb b s) Hipb eq_refl) | | auto | auto].
  { unfold b. cbn [iTotal iTableSize]. exact Hdiv. }
  { unfold b. cbn [iTotal]. lia. }
  cbv beta. intros [] s1 ((Hsb1 & Hino) & _).
  wp_step. unfold fillInRootDir. wpx; try exact I.
  match goal with
  | |- post (fillInGenRep _ _) ?st _ _ _ =>
      eapply post_weaken;
        [apply (fillInGenRep_post b zero junk st Hg) | | auto | auto]
  end.
  { exact Hsb1. }
  { unfold b. cbn [dZoneTotal]. lia. }
  cbv beta. intros [] s3 ((Hsb3 & Hclu) & Hit3).
  cbn [itable set_dzone] in Hit3.
  unfold checkFSConsist. wpx; try exact I.
  cbn [sb itable dzone set_sb]. rewrite Hsb3.
  assert (Hfree : free_refs (set_magic MAGIC_NUMBER b) (seqZ 1 (nc - 1))
                  = seqZ 1 (nc - 1)).
  { unfold free_refs, inserted, retrievable, b.
    cbn [dZoneInsert dZoneRetriev set_magic cacheIdx cache].
    rewrite drop_ge by (rewrite length_replicate; lia).
    cbn [Z.to_nat take app]. apply app_nil_r. }
  split; [| split; [| split; reflexivity]].
  - constructor; cbn [sb itable set_sb];
      unfold b; cbn [iTotal iTableSize iHead iTail iFree set_magic].
    + exact Hipb.
    + lia.
    + unfold NULL_INODE. lia.
    + rewrite Hit3.
      pose proof (ichain_seqZ (itable s1) it (Z.to_nat (it - 1)) 1) as Hc.
      rewrite Z2Nat.id in Hc by lia.
      replace (Z.to_nat (it - 1) =? 0)%nat with false in Hc
        by (symmetry; apply Nat.eqb_neq; lia).
      apply Hc; [unfold NULL_INODE; lia | lia | lia |].
      intros j Hj. destruct (Hino j Hj) as (ij & Hij & _ & Hv & _).
      exists ij. split; [exact Hij | exact Hv].
    + rewrite last_seqZ by lia. cbn [default from_option id].
      rewrite wrap32_small by lia. lia.
    + apply Forall_forall. intros x Hx. apply elem_of_seqZ in Hx. lia.
    + apply NoDup_seqZ.
    + rewrite length_seqZ, wrap32_small by lia. lia.
  - constructor; cbn [sb dzone set_sb].
    + exact Hg.
    + unfold cache_ok, b. cbn [dZoneInsert set_magic cacheIdx cache].
      rewrite length_replicate. split; [lia | reflexivity].
    + unfold cache_ok, b. cbn [dZoneRetriev set_magic cacheIdx cache].
      rewrite length_replicate. split; [lia | reflexivity].
    + pose proof (chain_seqZ (set_magic MAGIC_NUMBER b) (dzone s3)
                    (Z.to_nat (nc - 1)) 1) as Hc.
      rewrite Z2Nat.id in Hc by lia.
      replace (Z.to_nat (nc - 1) =? 0)%nat with false in Hc
        by (symmetry; apply Nat.eqb_neq; lia).
      apply Hc; [destruct Hg as (_ & _ & _ & Hn & _); exact Hn | lia
                | unfold b; cbn [dZoneTotal set_magic]; lia |].
      exact Hclu.
    + unfold tail_of. rewrite last_seqZ by lia. cbn [default from_option id].
      unfold b. cbn [dTail set_magic]. rewrite wrap32_small by lia. lia.
    + rewrite Hfree. apply Forall_forall. intros x Hx.
      apply elem_of_seqZ in Hx. unfold in_zone, b.
      cbn [dZoneTotal set_magic]. lia.
    + rewrite Hfree. apply NoDup_seqZ.
    + unfold b. cbn [dZoneFree dZoneInsert dZoneRetriev set_magic cacheIdx].
      rewrite length_seqZ, wrap32_small by lia. lia.
Qed.

(** *** The list of free inodes *)

Lemma fillInGenRep_frame (zero : bool) (junk : SOInfo) (s : FS) :
  post (fillInGenRep zero junk) s
    (fun _ s' => itable s' = itable s /\ sb s' = sb s)
    (fun _ _ => True) True.
Proof.
  unfold fillInGenRep. wp_step. wp_step. cbv beta zeta.
  eapply post_weaken;
    [apply (for_range_post
              (fun _ s' => itable s' = itable s /\ sb s' = sb s))
    | | auto | auto].
  - split; reflexivity.
  - intros k s1 _ (Hi & Hb). wpx; try exact I.
    cbn [sb itable set_dzone]. split; assumption.
  - cbv beta. intros [] s1 H. exact H.
Qed.

Lemma mkfs_inode_table (ntotal itotal : Z) (name_ : list Z) (zero : bool)
    (junk : SOInfo) (s : FS) :
  let it := fst (geometry ntotal itotal) in
  0 < IPB -> 1 <= it < 4294967296 -> it mod IPB = 0 ->
  post (mkfs ntotal itotal name_ zero junk) s
    (fun _ s' =>
       iTotal (sb s') = it /\ iTableSize (sb s') = it / IPB
       /\ iHead (sb s') = 1 /\ iTail (sb s') = it - 1
       /\ iFree (sb s') = it - 1
       /\ forall j, 1 <= j < it ->
            exists ij, itable s' !! j = Some ij
                       /\ filled_inode (sb s') j ij)
    (fun _ _ => True) True.
Proof.
  intros it Hipb Hit Hmod.
  unfold mkfs. subst it.
  destruct (geometry ntotal itotal) as [it nc]. cbn [fst snd] in *.
  assert (Hdiv : it = it / IPB * IPB).
  { assert (Hipb0 : IPB <> 0) by lia.
    pose proof (Z.div_mod it IPB Hipb0). lia. }
  unfold fillInSuperBlock.
  wpx.
  match goal with
  | |- post fillInINT (set_sb ?b0 s) _ _ _ => set (b := b0)
  end.
  eapply post_weaken;
    [apply (fillInINT_post b (set_sb b s) Hipb eq_refl) | | auto | auto].
  { unfold b. cbn [iTotal iTableSize]. exact Hdiv. }
  { unfold b. cbn [iTotal]. lia. }
  cbv beta. intros [] s1 ((Hsb1 & Hino) & _).
  wp_step. unfold fillInRootDir. wpx; try exact I.
  match goal with
  | |- post (fillInGenRep _ _) ?st _ _ _ =>
      eapply post_weaken;
        [apply (fillInGenRep_frame zero junk st) | | auto | auto]
  end.
  cbv beta. intros [] s3 (Hit3 & Hsb3).
  cbn [itable sb set_dzone] in Hit3, Hsb3.
  unfold checkFSConsist. wpx; try exact I.
  cbn [sb itable dzone set_sb]. rewrite Hsb3, Hsb1, Hit3.
  unfold b at 1 2 3 4 5. cbn [iTotal iTableSize iHead iTail iFree set_magic].
  rewrite !wrap32_small by lia.
  repeat (split; [reflexivity |]).
  intros j Hj. destruct (Hino j Hj) as (ij & Hij & Hf).
  exists ij. split; [exact Hij |]. exact Hf.
Qed.


End Format.

(** ** Removing an entry *)

Section Unlink.
Context {P : Params} {L : Lower}.

Lemma soFreeInode_marks (n : Z) (s : FS) :
  0 < IPB -> 0 <= n ->
  post (soFreeInode n) s
    (fun _ s' =>
       exists i', itable s' !! n = Some i' /\ refCount i' = 0
         /\ exists m, mode i' = Z.lor m INODE_FREE)
    (fun _ _ => True) True.
Proof.
  intros Hipb Hn. unfold soFreeInode.
  wpx; cbn [sb itable dzone set_sb set_itable] in *;
    try exact I; rewrite ?(inode_key n Hipb) in *; tests; try lia;
    rewrite ?lookup_insert_eq in *;
    repeat match goal with
           | G : Some _ = Some ?x |- _ => is_var x; injection G as <-
           end.
  all: unify_lookups.
  - eexists. split; [reflexivity |].
    repeat match goal with x : SOInode |- _ => destruct x end; cbn in *.
    split; [assumption | eauto].
  - match goal with
    | |- context [<[?k := _]> _ !! n] => destruct (Z.eq_dec k n) as [Heq | Hneq]
    end.
    + rewrite Heq in *. rewrite lookup_insert_eq in *.
      repeat match goal with
             | G : Some _ = Some ?x |- _ => is_var x; injection G as <-
             end.
      eexists. split; [reflexivity |].
      repeat match goal with x : SOInode |- _ => destruct x end; cbn in *.
    split; [assumption | eauto].
    + rewrite lookup_insert_ne by congruence. rewrite lookup_insert_eq.
      eexists. split; [reflexivity |].
      repeat match goal with x : SOInode |- _ => destruct x end; cbn in *.
    split; [assumption | eauto].
Qed.

Lemma soReadInode_nonneg n st s i s' :
  soReadInode n st s = Ok i s' -> 0 <= n.
Proof.
  apply (post_Ok (soReadInode n st) s (fun _ _ => 0 <= n) (fun _ _ => True) True).
  unfold soReadInode. wpx; try exact I; lia.
Qed.

(** X18.  After [soRemDetachDirEntry] succeeds, the inode of the entry found
    under the name, when it is not the directory itself, has lost the
    references of the entry: 2 for a directory, 1 otherwise.  When the
    operation is [DETACH] or a reference is left, the inode is the same
    file with that count; when the operation is [REM] and no reference is
    left, the inode has been freed: its count is 0 and [INODE_FREE] is set
    in its mode. *)
Theorem X18_removing_uncounts_the_link (dir op : Z) (eName : list Z)
    (s s' : FS) :
  sizes_ok ->
  soRemDetachDirEntry dir eName op s = Ok tt s' ->
  exists s1 s2 ent idx,
    only_atime dir s s1
    /\ soGetDirEntryByName dir eName local local s1
       = Ok (mkLookup None (Some ent) (Some idx)) s2
    /\ (ent <> dir ->
        exists ie ie',
          itable s !! ent = Some ie /\ itable s' !! ent = Some ie'
          /\ let k := if Z.land (mode ie) INODE_DIR =? INODE_DIR
                      then 2 else 1 in
             (op = DETACH \/ wrap16 (refCount ie - k) <> 0 ->
              refCount ie' = wrap16 (refCount ie - k) /\ same_file ie ie')
             /\ (op = REM -> wrap16 (refCount ie - k) = 0 ->
                 refCount ie' = 0
                 /\ exists m, mode ie' = Z.lor m INODE_FREE)).
Proof.
  intros Hsz. pose proof Hsz as (Hipb & _).
  apply (post_Ok (soRemDetachDirEntry dir eName op) s
           (fun _ s' => exists s1 s2 ent idx,
    only_atime dir s s1
    /\ soGetDirEntryByName dir eName local local s1
       = Ok (mkLookup None (Some ent) (Some idx)) s2
    /\ (ent <> dir ->
        exists ie ie',
          itable s !! ent = Some ie /\ itable s' !! ent = Some ie'
          /\ let k := if Z.land (mode ie) INODE_DIR =? INODE_DIR
                      then 2 else 1 in
             (op = DETACH \/ wrap16 (refCount ie - k) <> 0 ->
              refCount ie' = wrap16 (refCount ie - k) /\ same_file ie ie')
             /\ (op = REM -> wrap16 (refCount ie - k) = 0 ->
                 refCount ie' = 0
                 /\ exists m, mode ie' = Z.lor m INODE_FREE)))
           (fun _ _ => True) True).
  unfold soRemDetachDirEntry.
  wpz Hipb; try exact I; try discriminate.
  match goal with
  | |- post _ ?st _ _ _ =>
      assert (Hat : only_atime dir s st) by (right; eauto);
      generalize dependent st; intros s1 _ Hat
  end.
  apply (post_reads_only dir);
    [apply reads_only_soAccessGranted; exact Hipb | | auto].
  intros [] s2 Hat2.
  pose proof (only_atime_trans _ _ _ _ Hat Hat2) as Hat'. clear Hat Hat2.
  wpz Hipb.
  apply (post_reads_only dir);
    [apply reads_only_soAccessGranted; exact Hipb | | auto].
  intros [] s3 Hat3.
  pose proof (only_atime_trans _ _ _ _ Hat' Hat3) as Hat. clear Hat' Hat3.
  wp_step.
  apply post_run; [| auto | auto]. intros l s4 Hrun.
  pose proof (post_Ok _ _ _ _ _ _ _
                (reads_only_soGetDirEntryByName dir eName local local Hsz s3)
                Hrun) as Hat4. cbv beta in Hat4.
  pose proof (only_atime_trans _ _ _ _ Hat Hat4) as Hat5.
  destruct l as [st oent oidx]. cbn [l_stat l_idx l_nInodeEnt].
  wp_step. wp_step; [exact I |].
  match goal with G : st = None |- _ => subst st end.
  wp_step. wp_step; [exact I |].
  match goal with G : oent = Some ?x |- _ => subst oent; rename x into ent end.
  wp_step. wp_step; [exact I |].
  match goal with G : oidx = Some ?x |- _ => subst oidx; rename x into idx end.
  wp_step.
  apply post_run; [| auto | auto]. intros ie1 s5 Hrd.
  pose proof (soReadInode_nonneg _ _ _ _ _ Hrd) as Hent0.
  pose proof (post_Ok _ _ _ _ _ _ _ (soReadInode_post ent IUIN s4 Hipb) Hrd)
    as (ie0 & Hie0 & [(_ & -> & ->) | (Hfd & _)]); [| discriminate Hfd].
  eapply post_weaken with
    (Q1 := fun _ s6 =>
       ent <> dir ->
       exists ie', itable s6 !! ent = Some ie'
         /\ let k := if Z.land (mode ie0) INODE_DIR =? INODE_DIR
                     then 2 else 1 in
            (op = DETACH \/ wrap16 (refCount ie0 - k) <> 0 ->
             refCount ie' = wrap16 (refCount ie0 - k) /\ same_file ie0 ie')
            /\ (op = REM -> wrap16 (refCount ie0 - k) = 0 ->
                refCount ie' = 0
                /\ exists m, mode ie' = Z.lor m INODE_FREE))
    (E1 := fun _ _ => True) (U1 := True); [| | auto | auto].
  2:{ cbv beta. intros [] s6 Hq. exists s3, s4, ent, idx.
      split; [exact Hat |]. split; [exact Hrun |]. intros Hne.
      destruct (Hq Hne) as (ie' & Hie' & Hr).
      exists ie0, ie'. split; [| split; [exact Hie' | exact Hr]].
      rewrite <- Hie0. symmetry.
      destruct Hat5 as [-> | (i & _ & ->)]; [reflexivity |].
      cbn [itable set_itable]. apply lookup_insert_ne. congruence. }
  replace (mode (set_vD1 (clock s4) ie0)) with (mode ie0)
    by (destruct ie0; reflexivity).
  replace (refCount (set_vD1 (clock s4) ie0)) with (refCount ie0)
    by (destruct ie0; reflexivity).
  wp_step. wp_step; [exact I |].
  wp_step. apply post_any. intros dc s5.
  wp_step. apply post_any. intros [] s6.
  set (k := if Z.land (mode ie0) INODE_DIR =? INODE_DIR then 2 else 1).
  set (ie1 := if Z.land (mode ie0) INODE_DIR =? INODE_DIR
              then set_refCount (wrap16 (refCount ie0 - 2))
                     (set_vD1 (clock s4) ie0)
              else set_refCount (wrap16 (refCount ie0 - 1))
                     (set_vD1 (clock s4) ie0)).
  assert (Hrc : refCount ie1 = wrap16 (refCount ie0 - k))
    by (unfold ie1, k; destruct (Z.land (mode ie0) INODE_DIR =? INODE_DIR);
        destruct ie0; reflexivity).
  assert (Hsf : same_file ie0 ie1)
    by (unfold ie1, same_file;
        destruct (Z.land (mode ie0) INODE_DIR =? INODE_DIR);
        destruct ie0; cbn; repeat split; reflexivity).
  clearbody ie1 k.
  match goal with
  | |- context [soWriteInode ?x dir IUIN] => generalize x; intros idir
  end.
  wp_step. wp_inode Hipb; try exact I. cbv beta.
  set (ie2 := set_vD2 (clock s6) (set_vD1 (clock s6) ie1)).
  assert (Hrc2 : refCount ie2 = wrap16 (refCount ie0 - k))
    by (rewrite <- Hrc; unfold ie2; destruct ie1; reflexivity).
  assert (Hsf2 : same_file ie0 ie2)
    by (unfold ie2; destruct Hsf as (? & ? & ? & ? & ? & ? & ? & ?);
        destruct ie1; cbn in *; repeat split; assumption).
  clearbody ie2. rewrite Hrc.
  rewrite Z.eqb_refl. cbv zeta.
  assert (Hop : op = DETACH \/ op = REM).
  { match goal with
    | Hx : (_ && _ || _) = false |- _ =>
        apply orb_false_elim in Hx as (Hop & _)
    end.
    destruct (Z.eqb_spec op DETACH); [left; assumption |].
    destruct (Z.eqb_spec op REM); [right; assumption | discriminate Hop]. }
  wp_step.
  destruct ((wrap16 (refCount ie0 - k) =? 0) && (op =? REM)) eqn:Hc.
  - apply andb_true_iff in Hc as (Hz%Z.eqb_eq & Hrem%Z.eqb_eq).
    wp_step. apply post_any. intros [] s7.
    eapply post_weaken;
      [apply (soFreeInode_marks ent s7 Hipb Hent0) | | auto | auto].
    cbv beta. intros [] s8 (i' & Hi' & Hr0 & m & Hm).
    wp_inode Hipb; try exact I. intros Hne.
    exists i'. cbn [itable set_itable].
    rewrite lookup_insert_ne by congruence. split; [exact Hi' |].
    split.
    + intros [Hd | Hnz]; [| contradiction].
      subst op. discriminate Hd.
    + intros _ _. split; [exact Hr0 | exists m; exact Hm].
  - wp_step. wp_inode Hipb; try exact I. intros Hne.
    exists ie2. cbn [itable set_itable].
    rewrite lookup_insert_ne by congruence.
    rewrite lookup_insert_eq. split; [reflexivity |].
    apply andb_false_iff in Hc.
    split.
    + intros _. split; assumption.
    + intros Hrem Hz. destruct Hc as [Hc | Hc].
      * apply Z.eqb_neq in Hc. contradiction.
      * apply Z.eqb_neq in Hc. contradiction.
Qed.



End Unlink.


(** ** Scenarios *)

Module ScenarioFacts.
Import Scenario.
#[local] Existing Instance tiny.
#[local] Existing Instance ref_lower.

(** The formatter succeeds on both devices. *)
Lemma format_ok :
  outcome (mkfs 28 6 [83; 79] false (IData [])) dev0 = Some (inr tt)
  /\ outcome (mkfs 10 2 [83; 79] false (IData [])) dev2 = Some (inr tt).
Proof. split; vm_compute; reflexivity. Qed.

(** With 2 inodes in a block, as in [tiny], a device can be formatted for 2
    inodes.  Inode 1 is then the head and the tail of the list of free
    inodes ([iHead = iTail = 1], [next] is [NULL_INODE]), and its [prev]
    field is 0, not [NULL_INODE]: the assignments for the last inode come
    after those for inode 1. *)
Lemma two_inodes_prev_not_null :
  iTotal (sb formatted2) = 2
  /\ iHead (sb formatted2) = 1
  /\ iTail (sb formatted2) = 1
  /\ (vD1 <$> itable formatted2 !! 1) = Some NULL_INODE
  /\ (vD2 <$> itable formatted2 !! 1) = Some 0.
Proof. vm_compute. repeat split; reflexivity. Qed.


(** C3, at the failing input.  The root directory holds ".", "..", "a" and
    "b" in two full clusters; adding "c" succeeds, and the lookup of "c"
    that follows answers [-ENOENT]. *)
Theorem C3_lookup_after_add_fails :
  outcome (addfile name_a ;;; addfile name_b ;;;
           soGetDirEntryByName 0 name_b local local) formatted
    = Some (inr (mkLookup None (Some 2) (Some 3)))
  /\ outcome (addfile name_a ;;; addfile name_b ;;; addfile name_c) formatted
    = Some (inr tt)
  /\ outcome (soGetDirEntryByName 0 name_c local local) with_abc
    = Some (inr (mkLookup (Some ENOENT) None (Some 4))).
Proof. vm_compute. repeat split; reflexivity. Qed.

(** C1, at the failing input.  Positions other than the last one read back
    what was written, and a position never written reads as zeros; the
    write at the last position, 12, answers [-EINVAL], the position stays
    unallocated, and three clusters have left the free ones. *)
Theorem C1_write_last_position_fails :
  MAX_FILE_CLUSTERS = 13
  /\ outcome (soWriteFileCluster 1 5 (buf 170) ;;;
              soWriteFileCluster 1 0 (buf 187) ;;;
              soWriteFileCluster 1 6 (buf 204) ;;;
              c <- soReadFileCluster 1 5 ;; ret (info c)) with_file
    = Some (inr (info (buf 170)))
  /\ outcome (soReadFileCluster 1 12) with_file = Some (inr zero_cluster)
  /\ outcome (soWriteFileCluster 1 12 (buf 170)) with_file = Some (inl EINVAL)
  /\ outcome (soHandleFileCluster 1 12 GET local)
       (after (soWriteFileCluster 1 12 (buf 170)) with_file)
    = Some (inr (Some NULL_CLUSTER))
  /\ dZoneFree (sb with_file) = 11
  /\ dZoneFree (sb (after (soWriteFileCluster 1 12 (buf 170)) with_file)) = 8.
Proof. vm_compute. repeat split; reflexivity. Qed.

(** C8, at the failing input.  A cluster allocated for inode 1 is attached
    at position 1, between the clusters of the positions 0 and 2 (clusters
    1 and 3): its header and those of its neighbours are linked.  At the
    last position, 12, the attachment answers [-EINVAL]. *)
Theorem C8_attach_last_position_fails :
  outcome (soWriteFileCluster 1 0 (buf 170) ;;;
           soWriteFileCluster 1 2 (buf 171) ;;;
           c <- soAllocDataCluster 1 local ;;
           soAttachLogicalCluster 1 1 c ;;;
           p_sb <- soGetSuperBlock ;;
           dc <- soReadCacheCluster (phys p_sb c) ;;
           dp <- soReadCacheCluster (phys p_sb 1) ;;
           dn <- soReadCacheCluster (phys p_sb 3) ;;
           ret (c, prev dc, next dc, next dp, prev dn)) with_file
    = Some (inr (4, 1, 3, 4, 4))
  /\ outcome (c <- soAllocDataCluster 1 local ;;
              soAttachLogicalCluster 1 12 c) with_file
    = Some (inl EINVAL).
Proof. vm_compute. repeat split; reflexivity. Qed.

(** C4, at the failing input.  The positions 7 and 8 of the file are
    allocated and nothing else is.  The sweep from position 5 with
    FREE_CLEAN succeeds and leaves position 7 allocated; the sweep from
    position 0 frees both. *)
Theorem C4_sweep_skips_position :
  outcome (a <- soHandleFileCluster 1 7 GET local ;;
           b <- soHandleFileCluster 1 8 GET local ;; ret (a, b)) with_7_8
    = Some (inr (Some 3, Some 4))
  /\ outcome (soHandleFileClusters 1 5 FREE_CLEAN ;;;
              a <- soHandleFileCluster 1 7 GET local ;;
              b <- soHandleFileCluster 1 8 GET local ;; ret (a, b)) with_7_8
    = Some (inr (Some 3, Some NULL_CLUSTER))
  /\ outcome (soHandleFileClusters 1 0 FREE_CLEAN ;;;
              a <- soHandleFileCluster 1 7 GET local ;;
              b <- soHandleFileCluster 1 8 GET local ;; ret (a, b)) with_7_8
    = Some (inr (Some NULL_CLUSTER, Some NULL_CLUSTER)).
Proof. vm_compute. repeat split; reflexivity. Qed.

(** C6, the claim at a concrete input.  The effective identifiers of the
    caller match neither the owner nor the group of inode 1, so that the
    class by effective identifiers is that of the others, which has no
    read permission; the real user identifier is the owner, who has it, and
    [soAccessGranted] grants the read. *)
Lemma C6_counterexample :
  euid with_owned_file <> 0
  /\ eclass_of with_owned_file owned_inode = Oth
  /\ ~ permits Oth (mode owned_inode) R
  /\ soReadInode 1 IUIN with_owned_file = Ok owned_inode owned_read
  /\ soAccessGranted 1 R with_owned_file = Ok tt owned_read.
Proof.
  repeat apply conj.
  - vm_compute. discriminate.
  - vm_compute. reflexivity.
  - intros (H & _). vm_compute in H. specialize (H ltac:(discriminate)).
    discriminate H.
  - vm_compute. reflexivity.
  - vm_compute. reflexivity.
Qed.

Lemma C6_witness :
  1 <= R <= 7
  /\ soReadInode 1 IUIN with_owned_file = Ok owned_inode owned_read
  /\ (soAccessGranted 1 R with_owned_file = Ok tt owned_read
      <-> permits (class_of with_owned_file owned_inode) (mode owned_inode) R).
Proof.
  assert (H1 : 1 <= R <= 7) by (vm_compute; split; discriminate).
  assert (H2 : soReadInode 1 IUIN with_owned_file = Ok owned_inode owned_read)
    by (vm_compute; reflexivity).
  split; [exact H1 | split; [exact H2 |]].
  apply (C6_access_by_real_ids with_owned_file 1 R owned_inode owned_read H1 H2).
  vm_compute. discriminate.
Defined.

(** C9, the claim at a concrete input.  The name "z" is the name of no
    entry of the root directory of [with_abc].  None of the entries the
    scan reads is free in the clean state as the data model defines it, so
    that the claim gives [cluCount * DPC = 8]; the lookup stores 4, the
    index of an entry of the cluster that is missing at position 2, whose
    name is all NUL and whose inode field is 0. *)
Lemma C9_counterexample :
  soGetDirEntryByName 0 name_z local local with_abc
    = Ok (mkLookup (Some ENOENT) None (Some 4)) abc_s3
  /\ dir_clusters 3 0 0 abc_s2 = Ok abc_des abc_s3
  /\ no_match name_z abc_des = true
  /\ first_index free_clean (concat abc_des) = None
  /\ concat abc_des !! 4%nat = Some (mkDe [0; 0; 0; 0] 0)
  /\ wrap32 (cluCount abc_inode * DPC) = 8.
Proof. vm_compute. repeat apply conj; reflexivity. Qed.

Lemma C9_witness :
  soGetDirEntryByName 0 name_z None (Some 0) with_abc
  = Ok (mkLookup (Some ENOENT) None
          (Some (match first_index looks_free (concat abc_des) with
                 | Some i => wrap32 (Z.of_nat i)
                 | None => wrap32 (cluCount abc_inode * DPC)
                 end))) abc_s3.
Proof.
  apply (C9_index_of_first_free_looking_entry with_abc 0 name_z None 0
           abc_inode abc_s1 abc_s2 abc_s3 abc_des).
  - vm_compute. discriminate.
  - vm_compute. discriminate.
  - vm_compute. discriminate.
  - vm_compute. discriminate.
  - vm_compute. reflexivity.
  - vm_compute. reflexivity.
  - vm_compute. reflexivity.
  - vm_compute. reflexivity.
  - vm_compute. reflexivity.
  - vm_compute. reflexivity.
  - vm_compute. reflexivity.
Defined.

(** C5, the claim at concrete inputs.  The insertion cache of [formatted]
    is empty and [soDeplete] does not return the state unchanged: it does
    not return with success.  The retrieval cache of [replenished] is full,
    with the clusters 1 and 2; [soReplenish] succeeds on it, replaces them
    with the clusters 3 and 4, and moves [dHead] from 3 to 5. *)
Lemma C5_counterexample :
  cacheIdx (dZoneInsert (sb formatted)) = 0
  /\ soDeplete formatted <> Ok tt formatted
  /\ cacheIdx (dZoneRetriev (sb replenished)) = 0
  /\ soReplenish replenished = Ok tt replenished2
  /\ (dHead (sb replenished), cache (dZoneRetriev (sb replenished)))
     = (3, [1; 2])
  /\ (dHead (sb replenished2), cache (dZoneRetriev (sb replenished2)))
     = (5, [3; 4]).
Proof.
  repeat apply conj.
  - vm_compute. reflexivity.
  - apply soDeplete_empty; vm_compute; reflexivity.
  - vm_compute. reflexivity.
  - vm_compute. reflexivity.
  - vm_compute. reflexivity.
  - vm_compute. reflexivity.
Qed.

(** The free clusters of [replenished] are accounted for. *)
Lemma FreeInv_replenished : FreeInv replenished free_chain_r.
Proof.
  constructor.
  - unfold geometry_ok. vm_compute. repeat split; congruence.
  - split; vm_compute; [split; congruence | reflexivity].
  - split; vm_compute; [split; congruence | reflexivity].
  - unfold free_chain_r.
    repeat (eapply chain_step;
            [ vm_compute; congruence | vm_compute; reflexivity | ]).
    apply chain_end.
  - vm_compute. reflexivity.
  - vm_compute. repeat constructor; congruence.
  - apply (bool_decide_unpack
             (NoDup (free_refs (sb replenished) free_chain_r))).
    vm_compute. exact I.
  - vm_compute. reflexivity.
Qed.

Lemma C5_witness :
  soDeplete with_7_8 <> Ok tt freed3
  /\ (dHead (sb freed3) = dHead (sb with_7_8)
      /\ dTail (sb freed3) = dTail (sb with_7_8)
      /\ dZoneRetriev (sb freed3) = dZoneRetriev (sb with_7_8)
      /\ (forall a, a <> phys (sb with_7_8) 3 ->
                    dzone freed3 !! a = dzone with_7_8 !! a))
  /\ (dHead (sb alloc4) = dHead (sb with_abc)
      /\ dTail (sb alloc4) = dTail (sb with_abc)
      /\ dZoneInsert (sb alloc4) = dZoneInsert (sb with_abc)
      /\ (forall a, a <> phys (sb with_abc) 4 ->
                    dzone alloc4 !! a = dzone with_abc !! a))
  /\ (cache (dZoneRetriev (sb replenished2))
      = take (Z.to_nat DZONE_CACHE_SIZE) free_chain_r
      /\ cacheIdx (dZoneRetriev (sb replenished2)) = 0
      /\ dHead (sb replenished2)
         = hd NULL_CLUSTER (drop (Z.to_nat DZONE_CACHE_SIZE) free_chain_r)
      /\ dZoneFree (sb replenished2) = dZoneFree (sb replenished)
      /\ replenished2 <> replenished).
Proof.
  split; [| split; [| split]].
  - apply (proj1 (C5_helpers_rely_on_their_callers with_7_8 freed3));
      vm_compute; reflexivity.
  - apply (proj1 (proj2 (C5_helpers_rely_on_their_callers with_7_8 freed3)) 3).
    + vm_compute. discriminate.
    + vm_compute. reflexivity.
  - apply (proj1 (proj2 (proj2
                    (C5_helpers_rely_on_their_callers with_abc alloc4)))
             0 local 4).
    + vm_compute. discriminate.
    + vm_compute. intros dc [= <-]. reflexivity.
    + vm_compute. reflexivity.
  - apply (proj2 (proj2 (proj2
                    (C5_helpers_rely_on_their_callers replenished
                       replenished2)))
             free_chain_r FreeInv_replenished).
    + vm_compute. reflexivity.
    + vm_compute. lia.
    + vm_compute. reflexivity.
Defined.

(** C2, the claim at concrete inputs.  The free clusters of [replenished]
    are accounted for and its retrieval cache is full; [soReplenish]
    succeeds on it and leaves [dZoneFree] at 11, while the insertion cache
    holds no reference, the chain 7 and the retrieval cache 2.  On
    [drained], the allocation that follows replenishes; its [soDeplete]
    succeeds and leaves [dZoneFree] at 2, while the insertion cache holds
    no reference, the chain 1 and the index of the retrieval cache is
    still [DZONE_CACHE_SIZE]. *)
Lemma C2_counterexample :
  FreeInv replenished free_chain_r
  /\ soReplenish replenished = Ok tt replenished2
  /\ chain (sb replenished2) (dzone replenished2) (dHead (sb replenished2))
        free_chain_r2
  /\ dTail (sb replenished2) = tail_of free_chain_r2
  /\ dZoneFree (sb replenished2)
     <> cacheIdx (dZoneInsert (sb replenished2))
        + Z.of_nat (length free_chain_r2)
        + (DZONE_CACHE_SIZE - cacheIdx (dZoneRetriev (sb replenished2)))
  /\ outcome (soAllocDataCluster 0 local) drained = Some (inr 11)
  /\ soDeplete drained_mid = Ok tt drained_depleted
  /\ chain (sb drained_depleted) (dzone drained_depleted)
        (dHead (sb drained_depleted)) [3]
  /\ dTail (sb drained_depleted) = tail_of [3]
  /\ dZoneFree (sb drained_depleted)
     <> cacheIdx (dZoneInsert (sb drained_depleted))
        + Z.of_nat (length [3])
        + (DZONE_CACHE_SIZE - cacheIdx (dZoneRetriev (sb drained_depleted))).
Proof.
  split; [exact FreeInv_replenished |].
  split; [vm_compute; reflexivity |].
  split.
  { unfold free_chain_r2.
    repeat (eapply chain_step;
            [ vm_compute; congruence | vm_compute; reflexivity | ]).
    apply chain_end. }
  split; [vm_compute; reflexivity |].
  split; [vm_compute; congruence |].
  split; [vm_compute; reflexivity |].
  split; [vm_compute; reflexivity |].
  split.
  { repeat (eapply chain_step;
            [ vm_compute; congruence | vm_compute; reflexivity | ]).
    apply chain_end. }
  split; [vm_compute; reflexivity |].
  vm_compute. congruence.
Qed.

(** C2, at a concrete input: the first allocation on [formatted], which
    replenishes the retrieval cache from the chain of the eleven free
    clusters. *)
Lemma C2_witness :
  FreeInv formatted free_chain0
  /\ clean_preserves
  /\ exists l', FreeInv alloc1 l'.
Proof.
  assert (Hinv : FreeInv formatted free_chain0).
  { constructor.
    - unfold geometry_ok. vm_compute. repeat split; congruence.
    - split; vm_compute; [split; congruence | reflexivity].
    - split; vm_compute; [split; congruence | reflexivity].
    - unfold free_chain0.
      repeat (eapply chain_step;
              [ vm_compute; congruence | vm_compute; reflexivity | ]).
      apply chain_end.
    - vm_compute. reflexivity.
    - vm_compute. repeat constructor; congruence.
    - apply (bool_decide_unpack (NoDup (free_refs (sb formatted) free_chain0))).
      vm_compute. exact I.
    - vm_compute. reflexivity. }
  assert (Hclean : clean_preserves).
  { intros n c s s' l _ H. vm_compute in H. discriminate H. }
  assert (Hrun : soAllocDataCluster 0 local formatted = Ok 1 alloc1)
    by (vm_compute; reflexivity).
  split; [exact Hinv | split; [exact Hclean |]].
  apply (proj1 (proj2 (proj2 (proj2
                  (C2_free_clusters_accounted formatted alloc1 free_chain0
                     Hinv Hclean)))
                0 local 1 Hrun)).
Defined.

(** X1, at a concrete input: the root directory of [formatted] is read. *)
Lemma X1_witness :
  0 < IPB
  /\ exists i0,
       itable formatted !! 0 = Some i0
       /\ soReadInode 0 IUIN formatted
          = Ok (set_vD1 77 i0)
               (set_itable (<[0 := set_vD1 77 i0]> (itable formatted)) formatted).
Proof.
  assert (Hipb : 0 < IPB) by reflexivity.
  split; [exact Hipb |].
  destruct (soReadInode 0 IUIN formatted) as [i s' | |] eqn:Hrun;
    [| vm_compute in Hrun; discriminate Hrun
     | vm_compute in Hrun; discriminate Hrun].
  destruct (proj1 (X1_soReadInode_touches_access_time 0 IUIN formatted Hipb)
              i s' Hrun)
    as (i0 & Hi0 & [(_ & -> & ->) | (Hfd & _)]); [| discriminate Hfd].
  exists i0. split; [exact Hi0 | reflexivity].
Defined.

(** X2, at a concrete input: the inode 1 of [with_file] is given
    the mode of a regular file that its owner may read. *)
Lemma X2_witness :
  soWriteInode (set_mode (Z.lor INODE_FILE INODE_RD_USR) file_inode) 1 IUIN
    with_file
  = Ok tt (after (soWriteInode
                    (set_mode (Z.lor INODE_FILE INODE_RD_USR) file_inode)
                    1 IUIN) with_file)
  /\ (vD1 <$> itable (after (soWriteInode
                    (set_mode (Z.lor INODE_FILE INODE_RD_USR) file_inode)
                    1 IUIN) with_file) !! 1) = Some 77.
Proof.
  assert (Hrun : soWriteInode
                   (set_mode (Z.lor INODE_FILE INODE_RD_USR) file_inode) 1 IUIN
                   with_file
                 = Ok tt (after (soWriteInode
                    (set_mode (Z.lor INODE_FILE INODE_RD_USR) file_inode)
                    1 IUIN) with_file))
    by (vm_compute; reflexivity).
  split; [exact Hrun |].
  assert (Hipb : 0 < IPB) by reflexivity.
  rewrite (proj1 (X2_inode_write_read_round_trip _ 1 IUIN with_file _
                    Hipb Hrun)).
  vm_compute. reflexivity.
Defined.

Lemma InodeInv_formatted : InodeInv formatted free_inodes0.
Proof.
  constructor.
  - reflexivity.
  - vm_compute. congruence.
  - vm_compute. congruence.
  - unfold free_inodes0.
    repeat (eapply ichain_step;
            [ vm_compute; congruence | vm_compute; reflexivity | ]).
    apply ichain_end.
  - vm_compute. reflexivity.
  - vm_compute. repeat constructor; congruence.
  - apply (bool_decide_unpack (NoDup free_inodes0)). vm_compute. exact I.
  - vm_compute. reflexivity.
Qed.

Lemma InodeInv_with_file : InodeInv with_file free_inodes1.
Proof.
  constructor.
  - reflexivity.
  - vm_compute. congruence.
  - vm_compute. congruence.
  - unfold free_inodes1.
    repeat (eapply ichain_step;
            [ vm_compute; congruence | vm_compute; reflexivity | ]).
    apply ichain_end.
  - vm_compute. reflexivity.
  - vm_compute. repeat constructor; congruence.
  - apply (bool_decide_unpack (NoDup free_inodes1)). vm_compute. exact I.
  - vm_compute. reflexivity.
Qed.

(** X3, at a concrete input: the first allocation on [formatted] answers
    inode 1 and leaves the inodes 2 to 5 free. *)
Lemma X3_witness :
  InodeInv formatted free_inodes0
  /\ post (soAllocInode INODE_FILE local) formatted
       (fun r s' => r = 1 /\ InodeInv s' free_inodes1)
       (fun _ _ => False) False.
Proof.
  split; [exact InodeInv_formatted |].
  eapply post_weaken;
    [apply (X3_soAllocInode_takes_the_head INODE_FILE local formatted
              free_inodes0 InodeInv_formatted) | | |].
  - discriminate.
  - right; left; reflexivity.
  - reflexivity.
  - reflexivity.
  - vm_compute. intros i [= <-]. reflexivity.
  - cbn beta. intros r s' (l' & Hl & Hinv & _).
    injection Hl as <- <-. split; [reflexivity | exact Hinv].
  - cbn beta. intros e s' (Hl & _). discriminate Hl.
  - auto.
Defined.

(** X4, at a concrete input: the inode allocated on [formatted] is freed
    again and goes to the end of the list. *)
Lemma X4_witness :
  InodeInv with_file free_inodes1
  /\ post (soFreeInode 1) with_file
       (fun _ s' => InodeInv s' [2; 3; 4; 5; 1])
       (fun _ _ => False) False.
Proof.
  split; [exact InodeInv_with_file |].
  eapply post_weaken;
    [apply (X4_soFreeInode_appends_to_the_tail 1 with_file free_inodes1
              file_inode InodeInv_with_file) | | |].
  - vm_compute. split; reflexivity.
  - apply (bool_decide_unpack (1 ∉ free_inodes1)). vm_compute. exact I.
  - vm_compute. reflexivity.
  - reflexivity.
  - vm_compute. reflexivity.
  - vm_compute. reflexivity.
  - vm_compute. reflexivity.
  - cbn beta. intros _ s' (Hinv & _). exact Hinv.
  - auto.
  - auto.
Defined.

Lemma sizes_ok_tiny : sizes_ok.
Proof. unfold sizes_ok. vm_compute. repeat split; congruence. Qed.

(** X5, at a concrete input: the file of [with_file] is freed. *)
Lemma X5_witness :
  soFreeInode 1 with_file = Ok tt unlinked
  /\ 1 <> 0 /\ 1 < iTotal (sb with_file)
  /\ exists i, itable with_file !! 1 = Some i
       /\ refCount i = 0 /\ legal_type (mode i) = true
       /\ soQCheckInodeIU with_file i = None.
Proof.
  assert (Hrun : soFreeInode 1 with_file = Ok tt unlinked)
    by (vm_compute; reflexivity).
  split; [exact Hrun |].
  apply (X5_soFreeInode_guards 1 with_file unlinked);
    [reflexivity | lia | exact Hrun].
Defined.

(** X6, at a concrete input: cluster 4 is allocated on [with_abc]. *)
Lemma X6_witness :
  soAllocDataCluster 0 local with_abc = Ok 4 alloc4
  /\ exists dc,
       dzone with_abc !! phys (sb with_abc) 4 = Some dc
       /\ dzone alloc4 !! phys (sb alloc4) 4
          = Some (mkDC NULL_CLUSTER NULL_CLUSTER 0 (info dc)).
Proof.
  assert (Hrun : soAllocDataCluster 0 local with_abc = Ok 4 alloc4)
    by (vm_compute; reflexivity).
  split; [exact Hrun |].
  assert (Hidx : cacheIdx (dZoneRetriev (sb with_abc)) <> DZONE_CACHE_SIZE)
    by (vm_compute; discriminate).
  destruct (X6_soAllocDataCluster_stamps_the_cluster 0 local 4 with_abc alloc4
              Hidx Hrun) as (_ & _ & _ & dc & Hdc & Hdc' & _).
  exists dc. split; assumption.
Defined.

Lemma FreeInv_with_abc : FreeInv with_abc free_chain_abc.
Proof.
  constructor.
  - unfold geometry_ok. vm_compute. repeat split; congruence.
  - split; vm_compute; [split; congruence | reflexivity].
  - split; vm_compute; [split; congruence | reflexivity].
  - unfold free_chain_abc.
    repeat (eapply chain_step;
            [ vm_compute; congruence | vm_compute; reflexivity | ]).
    apply chain_end.
  - vm_compute. reflexivity.
  - vm_compute. repeat constructor; congruence.
  - apply (bool_decide_unpack (NoDup (free_refs (sb with_abc) free_chain_abc))).
    vm_compute. exact I.
  - vm_compute. reflexivity.
Qed.

(** X7, at a concrete input: [soFreeDataCluster] of cluster 3 of
    [with_7_8]. *)
Lemma X7_witness :
  soFreeDataCluster 3 with_7_8 = Ok tt freed3
  /\ exists dc,
       dzone with_7_8 !! phys (sb with_7_8) 3 = Some dc
       /\ dzone freed3 !! phys (sb with_7_8) 3
          = Some (mkDC NULL_CLUSTER NULL_CLUSTER (stat dc) (info dc)).
Proof.
  assert (Hrun : soFreeDataCluster 3 with_7_8 = Ok tt freed3)
    by (vm_compute; reflexivity).
  split; [exact Hrun |].
  assert (Hidx : cacheIdx (dZoneInsert (sb with_7_8)) <> DZONE_CACHE_SIZE)
    by (vm_compute; discriminate).
  exact (proj2 (proj2 (proj2 (proj2
           (X7_soFreeDataCluster_leaves_the_cluster_dirty 3 with_7_8 freed3
              Hrun))) Hidx)).
Defined.

(** X8, at a concrete input: cluster 4 is allocated on [with_abc] and
    freed at once. *)
Lemma X8_witness :
  FreeInv with_abc free_chain_abc
  /\ FreeInv alloc4_freed free_chain_abc
  /\ dZoneFree (sb alloc4_freed) = dZoneFree (sb with_abc)
  /\ retrievable (sb with_abc) = 4 :: retrievable (sb alloc4_freed)
  /\ inserted (sb alloc4_freed) = inserted (sb with_abc) ++ [4].
Proof.
  split; [exact FreeInv_with_abc |].
  apply (X8_alloc_then_free 0 local 4 with_abc alloc4 alloc4_freed
           free_chain_abc FreeInv_with_abc).
  - vm_compute. discriminate.
  - vm_compute. discriminate.
  - vm_compute. intros dc [= <-]. reflexivity.
  - vm_compute. reflexivity.
  - vm_compute. reflexivity.
Defined.

(** X9, at a concrete input: position 7 of the file of [with_7_8]. *)
Lemma X9_witness :
  sizes_ok
  /\ exists i s',
       soHandleFileCluster 1 7 GET local with_7_8 = Ok (Some 3) s'
       /\ itable with_7_8 !! 1 = Some i
       /\ cluster_at with_7_8 i 7 = Some 3.
Proof.
  split; [exact sizes_ok_tiny |].
  destruct (soHandleFileCluster 1 7 GET local with_7_8) as [o s' | |] eqn:Hrun;
    [| vm_compute in Hrun; discriminate Hrun
     | vm_compute in Hrun; discriminate Hrun].
  assert (Ho : o = Some 3).
  { vm_compute in Hrun. injection Hrun as <- _. reflexivity. }
  destruct (proj1 (X9_GET_is_a_lookup 1 7 with_7_8 sizes_ok_tiny ltac:(lia))
              o s' Hrun) as (i & c & Hi & _ & Hc & Hat).
  exists i, s'. rewrite Ho. split; [reflexivity |]. split; [exact Hi |].
  congruence.
Defined.

(** X10, at a concrete input: position 1 of the file of [with_7_8],
    which holds no cluster. *)
Lemma X10_witness :
  sizes_ok
  /\ exists s', soReadFileCluster 1 1 with_7_8 = Ok zero_cluster s'.
Proof.
  split; [exact sizes_ok_tiny |].
  destruct (soReadFileCluster 1 1 with_7_8) as [r s' | |] eqn:Hrun;
    [| vm_compute in Hrun; discriminate Hrun
     | vm_compute in Hrun; discriminate Hrun].
  destruct (proj1 (X10_soReadFileCluster_reads_the_tables 1 1 with_7_8
                     sizes_ok_tiny ltac:(lia)) r s' Hrun)
    as (i & c & Hi & _ & Hc & Hz & _).
  exists s'. rewrite Hz; [reflexivity |].
  vm_compute in Hi. injection Hi as <-. vm_compute in Hc.
  injection Hc as <-. reflexivity.
Defined.

(** X11, at a concrete input: the first cluster of the root directory of
    [formatted] is written over. *)
Lemma X11_witness :
  soWriteFileCluster 0 0 (buf 170) formatted = Ok tt root_written
  /\ sb root_written = sb formatted
  /\ forall r s2, soReadFileCluster 0 0 root_written = Ok r s2 ->
       info r = info (buf 170).
Proof.
  assert (Hrun : soWriteFileCluster 0 0 (buf 170) formatted = Ok tt root_written)
    by (vm_compute; reflexivity).
  split; [exact Hrun |].
  destruct (X11_overwrite_then_read 0 0 (buf 170) formatted root_written
              root_inode 0 sizes_ok_tiny)
    as (dc & _ & _ & Hsb & Hrd); try exact Hrun.
  - vm_compute. split; congruence.
  - vm_compute. reflexivity.
  - vm_compute. reflexivity.
  - vm_compute. discriminate.
  - split; [exact Hsb |]. intros r s2 Hr. rewrite (Hrd r s2 Hr).
    destruct dc; reflexivity.
Defined.

(** X12, at a concrete input: the first position of the empty file of
    [with_file] is written. *)
Lemma X12_witness :
  soWriteFileCluster 1 0 (buf 170) with_file = Ok tt hole_written
  /\ exists c i1 dc,
       itable hole_written !! 1 = Some i1
       /\ d i1 !! Z.to_nat 0 = Some c
       /\ dzone hole_written !! phys (sb with_file) c
          = Some (set_info (info (buf 170)) dc).
Proof.
  assert (Hrun : soWriteFileCluster 1 0 (buf 170) with_file = Ok tt hole_written)
    by (vm_compute; reflexivity).
  split; [exact Hrun |].
  destruct (X12_write_to_a_hole_then_read 1 0 (buf 170) with_file hole_written
              file_inode sizes_ok_tiny)
    as (c & i1 & dc & Hi & Hd & Hdz & _); try exact Hrun.
  - vm_compute. split; congruence.
  - vm_compute. reflexivity.
  - vm_compute. reflexivity.
  - exists c, i1, dc. repeat split; assumption.
Defined.

(** X13, at a concrete input: a name is looked up in the root directory of
    [formatted]. *)
Lemma X13_witness :
  sizes_ok
  /\ exists r s', soGetDirEntryByName 0 name_a local local formatted = Ok r s'
       /\ only_atime 0 formatted s'.
Proof.
  split; [exact sizes_ok_tiny |].
  destruct (soGetDirEntryByName 0 name_a local local formatted)
    as [r s' | |] eqn:Hrun;
    [| vm_compute in Hrun; discriminate Hrun
     | vm_compute in Hrun; discriminate Hrun].
  exists r, s'. split; [reflexivity |].
  exact (proj1 (X13_lookup_reads_only 0 name_a local local formatted
                  sizes_ok_tiny) r s' Hrun).
Defined.

(** X14, at a concrete input: the file of [with_file] is entered into the
    root directory. *)
Lemma X14_witness :
  soAddAttDirEntry junk_cluster 0 name_a 1 ADD with_file = Ok tt linked
  /\ exists ie', itable linked !! 1 = Some ie' /\ refCount ie' = 1.
Proof.
  assert (Hrun : soAddAttDirEntry junk_cluster 0 name_a 1 ADD with_file
                 = Ok tt linked) by (vm_compute; reflexivity).
  split; [exact Hrun |].
  destruct (X14_add_counts_the_link junk_cluster 0 1 ADD name_a with_file
              linked file_inode sizes_ok_tiny)
    as (ie' & Hie & Hrc & _); try exact Hrun.
  - discriminate.
  - vm_compute. reflexivity.
  - vm_compute. discriminate.
  - exists ie'. split; [exact Hie |]. rewrite Hrc. vm_compute. reflexivity.
Defined.

(** X15, at a concrete input: a device of 28 blocks and 6 inodes. *)
Lemma X15_witness :
  geometry 28 6 = (6, 12)
  /\ 1 + fst (geometry 28 6) / IPB
     + snd (geometry 28 6) * BLOCKS_PER_CLUSTER = 28.
Proof.
  split; [vm_compute; reflexivity |].
  apply (X15_mkfs_geometry 28 6); vm_compute; congruence.
Defined.

Lemma entries_sized_formatted : entries_sized formatted.
Proof.
  intros k dc e Hk He.
  apply elem_of_map_to_list in Hk. vm_compute in Hk.
  repeat (apply elem_of_cons in Hk; destruct Hk as [[= -> ->] | Hk];
          [cbn in He; try discriminate He; injection He as <-; reflexivity |]).
  apply elem_of_nil in Hk. contradiction.
Qed.

(** X16, at a concrete input: the entry ".." of the root directory of
    [formatted] is renamed. *)
Lemma X16_witness :
  soRenameDirEntry 0 dotdot name_z formatted = Ok tt renamed
  /\ exists s1 s2 ent idx,
       only_atime 0 formatted s1
       /\ soGetDirEntryByName 0 dotdot None local s1
          = Ok (mkLookup None ent (Some idx)) s2
       /\ 0 <= idx < DPC.
Proof.
  assert (Hrun : soRenameDirEntry 0 dotdot name_z formatted = Ok tt renamed)
    by (vm_compute; reflexivity).
  split; [exact Hrun |].
  apply (X16_rename_reaches_the_first_cluster_only 0 dotdot name_z formatted
           renamed sizes_ok_tiny);
    [reflexivity | exact entries_sized_formatted | exact Hrun].
Defined.

(** X17, at a concrete input: the formatter on the device [dev0]. *)
Lemma X17_witness :
  mkfs 28 6 [83; 79] false (IData []) dev0 = Ok tt formatted
  /\ InodeInv formatted (seqZ 1 5) /\ FreeInv formatted (seqZ 1 11)
  /\ dZoneInsert (sb formatted)
     = mkCache 0 (replicate (Z.to_nat DZONE_CACHE_SIZE) NULL_CLUSTER)
  /\ dZoneRetriev (sb formatted)
     = mkCache DZONE_CACHE_SIZE
         (replicate (Z.to_nat DZONE_CACHE_SIZE) NULL_CLUSTER).
Proof.
  assert (Hrun : mkfs 28 6 [83; 79] false (IData []) dev0 = Ok tt formatted)
    by (vm_compute; reflexivity).
  split; [exact Hrun |].
  change (InodeInv formatted (seqZ 1 (fst (geometry 28 6) - 1))
          /\ FreeInv formatted (seqZ 1 (snd (geometry 28 6) - 1))
          /\ dZoneInsert (sb formatted)
             = mkCache 0 (replicate (Z.to_nat DZONE_CACHE_SIZE) NULL_CLUSTER)
          /\ dZoneRetriev (sb formatted)
             = mkCache DZONE_CACHE_SIZE
                 (replicate (Z.to_nat DZONE_CACHE_SIZE) NULL_CLUSTER)).
  apply (X17_mkfs_establishes_the_invariants 28 6 [83; 79] false (IData [])
           dev0 formatted); try exact Hrun; vm_compute; try reflexivity;
    try (split; congruence); congruence.
Defined.

(** X18, at a concrete input: the only entry of the file of [linked] is
    removed, and the inode is freed. *)
Lemma X18_witness :
  soRemDetachDirEntry 0 name_a REM linked = Ok tt removed
  /\ exists ie', itable removed !! 1 = Some ie' /\ refCount ie' = 0
       /\ exists m, mode ie' = Z.lor m INODE_FREE.
Proof.
  assert (Hrun : soRemDetachDirEntry 0 name_a REM linked = Ok tt removed)
    by (vm_compute; reflexivity).
  split; [exact Hrun |].
  destruct (X18_removing_uncounts_the_link 0 REM name_a linked removed
              sizes_ok_tiny Hrun)
    as (s1 & s2 & ent & idx & Hat & Hl & Hent).
  assert (He : ent = 1).
  { destruct Hat as [-> | (i & Hi & ->)].
    - vm_compute in Hl. congruence.
    - vm_compute in Hi. injection Hi as <-. vm_compute in Hl. congruence. }
  subst ent.
  destruct Hent as (ie & ie' & Hie & Hie' & _ & Hfree); [discriminate |].
  exists ie'. split; [exact Hie' |].
  vm_compute in Hie. injection Hie as <-.
  apply Hfree; reflexivity.
Defined.

End ScenarioFacts.
